(** * Basemap acquisition and mosaic assembly: a shallow embedding

    The development embeds the four scripts of the repository:

    - [basemaps_download.py]   (module [Basemaps]): the pipeline
      download -> merge -> terrain model,
    - [mosaics_download.py]    (modules [Mosaics] and [MosaicsSplit]): the
      earlier download script and its two halves,
    - [merge_mosaics.py]       (module [MergeMosaics]): the earlier merge script,
    - [convert_to_geopackage.py] (modules [Geopackage] and [Conversion]): the
      shapefile table and the conversion loop.

    Python integers are [Z]; JSON documents are the tree [json]; the file
    system is a finite map from paths to file contents, kept together with
    every state it went through; exceptions are explicit results; the network
    and the geospatial libraries are oracles gathered in the record [Env],
    whose answers may depend on the calls made before.

    Left out: the reading of the API key when a script is loaded, the
    progress bar of [tqdm], and directories ([mkdir] and [makedirs] create
    what the model keeps implicit).  Creating a temporary file, renaming and
    unlinking are taken to succeed; [shutil.move] is the rename it performs
    when source and destination share a file system. *)

From Stdlib Require Import ZArith Floats Sorted.
From stdpp Require Import gmap strings list pretty.

Open Scope Z_scope.

Set Warnings "-register-all".

(** ** Calendar dates ([datetime(year, month, day)]) *)

Record datetime := mk_datetime { year : Z; month : Z; day : Z }.

(** ** Paths ([pathlib.Path], [os.path.join]) as their parts *)

Definition Path := list string.

Definition pjoin (p : Path) (q : string) : Path := p ++ [q].
Infix "//" := pjoin (at level 40, left associativity).

(** [p.parent.name]: the name of the directory that holds [p]. *)
Definition parent_name (p : Path) : option string :=
  match reverse p with
  | _ :: d :: _ => Some d
  | _ => None
  end.

(** [p.name]: the last part. *)
Definition base_name (p : Path) : option string := last p.

(** [f"{m:02}"] for an integer: decimal, zero-padded to width two. *)
Definition fmt02 (m : Z) : string :=
  let s := pretty m in
  if (String.length s <? 2)%nat then ("0" +:+ s) else s.


(** [str(p)] for a path. *)
Definition path_str (p : Path) : string := String.concat "/" p.

(** [s.endswith(suffix)]. *)
Definition ends_with (suffix s : string) : bool :=
  let n := String.length s in
  let k := String.length suffix in
  (k <=? n)%nat && String.eqb (String.substring (n - k) k s) suffix.

Fixpoint assoc {A} (k : string) (l : list (string * A)) : option A :=
  match l with
  | [] => None
  | (k', v) :: l => if String.eqb k k' then Some v else assoc k l
  end.

(** ** JSON documents, as [res.json()] returns them

    [JObj] is a Python [dict] in insertion order. *)

Inductive json :=
| JNull
| JBool (b : bool)
| JInt (n : Z)
| JFloat (x : float)
| JStr (s : string)
| JArr (l : list json)
| JObj (kv : list (string * json)).

Definition type_name (v : json) : string :=
  match v with
  | JNull => "NoneType"
  | JBool _ => "bool"
  | JInt _ => "int"
  | JFloat _ => "float"
  | JStr _ => "str"
  | JArr _ => "list"
  | JObj _ => "dict"
  end.

(** ** Exceptions and results

    An exception is its class name and [str(e)].  [OutOfFuel] is not a Python
    result: it marks a [while] loop that the given fuel did not let finish. *)

Record exn := Exn { exn_class : string; exn_msg : string }.

Inductive outcome (A : Type) :=
| Ok (a : A)
| Raise (e : exn)
| OutOfFuel.
Arguments Ok {A} a.
Arguments Raise {A} e.
Arguments OutOfFuel {A}.

(** What a library call answers: a value, or an exception. *)
Inductive answer (A : Type) :=
| Done (a : A)
| Fails (e : exn).
Arguments Done {A} a.
Arguments Fails {A} e.

Definition of_answer {A} (r : answer A) : outcome A :=
  match r with
  | Done a => Ok a
  | Fails e => Raise e
  end.

(** Truth value of a JSON value ([if v:], [not v], [while v:]). *)
Definition truthy (v : json) : bool :=
  match v with
  | JNull => false
  | JBool b => b
  | JInt n => negb (n =? 0)
  | JFloat x => negb (PrimFloat.eqb x 0%float)
  | JStr s => negb (String.eqb s "")
  | JArr l => match l with [] => false | _ => true end
  | JObj kv => match kv with [] => false | _ => true end
  end.

Definition not_subscriptable {A} (v : json) : outcome A :=
  Raise (Exn "TypeError" ("'" +:+ type_name v +:+ "' object is not subscriptable")).

(** [d.get(k, default)]. *)
Definition dict_get (d : json) (k : string) (dflt : json) : outcome json :=
  match d with
  | JObj kv => Ok (default dflt (assoc k kv))
  | _ => Raise (Exn "AttributeError"
                 ("'" +:+ type_name d +:+ "' object has no attribute 'get'"))
  end.

(** [v[k]] for a string key [k]. *)
Definition getitem (v : json) (k : string) : outcome json :=
  match v with
  | JObj kv =>
      match assoc k kv with
      | Some x => Ok x
      | None => Raise (Exn "KeyError" ("'" +:+ k +:+ "'"))
      end
  | JArr _ => Raise (Exn "TypeError" "list indices must be integers or slices, not str")
  | JStr _ => Raise (Exn "TypeError" "string indices must be integers, not 'str'")
  | _ => not_subscriptable v
  end.

(** [v[0]]. *)
Definition getitem0 (v : json) : outcome json :=
  match v with
  | JArr (x :: _) => Ok x
  | JArr [] => Raise (Exn "IndexError" "list index out of range")
  | JStr (String c _) => Ok (JStr (String c ""))
  | JStr EmptyString => Raise (Exn "IndexError" "string index out of range")
  | JObj _ => Raise (Exn "KeyError" "0")
  | _ => not_subscriptable v
  end.

(** The values that iterating over [v] yields ([items.extend(v)]). *)
Definition py_iter (v : json) : outcome (list json) :=
  match v with
  | JArr l => Ok l
  | JStr s => Ok (map (fun c => JStr (String c "")) (String.list_ascii_of_string s))
  | JObj kv => Ok (map (fun kx => JStr (fst kx)) kv)
  | _ => Raise (Exn "TypeError" ("'" +:+ type_name v +:+ "' object is not iterable"))
  end.

(** The double quote character, as a string. *)
Definition dquote : string := String (Ascii.ascii_of_nat 34) "".

(** [k in v] for a string [k]: a key of a dict, an element of a list, a
    substring of a string. *)
Definition py_contains (k : string) (v : json) : outcome bool :=
  match v with
  | JObj kv => Ok (bool_decide (is_Some (assoc k kv)))
  | JArr l =>
      Ok (existsb (fun x => match x with JStr s => String.eqb s k | _ => false end) l)
  | JStr s => Ok (bool_decide (is_Some (String.index 0 k s)))
  | _ => Raise (Exn "TypeError"
                 ("argument of type '" +:+ type_name v +:+ "' is not iterable"))
  end.

(** [v + s] for a string [s]. *)
Definition py_add_str (v : json) (s : string) : outcome string :=
  match v with
  | JStr a => Ok (a +:+ s)
  | JArr _ =>
      Raise (Exn "TypeError"
               ("can only concatenate list (not " +:+ dquote +:+ "str" +:+ dquote
                +:+ ") to list"))
  | _ => Raise (Exn "TypeError"
                 ("unsupported operand type(s) for +: '" +:+ type_name v +:+ "' and 'str'"))
  end.

(** ** The file system

    Files only: a path is either a file created by [NamedTemporaryFile] (in
    the temporary directory, under a name of its own) or a file named by its
    parts.  Directories exist implicitly. *)

Inductive fpath := TmpFile (n : nat) | File (p : Path).

#[global] Instance fpath_eq_dec : EqDecision fpath.
Proof. solve_decision. Defined.

Definition fpath_to_sum (p : fpath) : nat + Path :=
  match p with TmpFile n => inl n | File q => inr q end.
Definition fpath_of_sum (s : nat + Path) : fpath :=
  match s with inl n => TmpFile n | inr q => File q end.
Lemma fpath_of_to_sum p : fpath_of_sum (fpath_to_sum p) = p.
Proof. destruct p; reflexivity. Qed.
#[global] Instance fpath_countable : Countable fpath :=
  inj_countable' fpath_to_sum fpath_of_sum fpath_of_to_sum.

Definition bytes := list Byte.byte.
Abbreviation FS := (gmap fpath bytes).

(** ** The world: file system, its history, and the logs of what was done *)

Inductive net_event :=
| NGet (url : string) (params : option (list (string * json)))  (* session.get *)
| NRetrieve (url : json).                                       (* urlretrieve *)

Inductive raster_event :=
| RRead (p : Path)     (* rasterio.open(p) *)
| RWrite (p : Path).   (* rasterio.open(p, "w") and dest.write *)

Record World := mkWorld {
  fs : FS;                          (* the files now *)
  hist : list FS;                   (* every state the files went through, oldest first *)
  net : list net_event;             (* network calls, oldest first *)
  raster_log : list raster_event;   (* raster reads and writes, oldest first *)
  out : list string;                (* lines printed, oldest first *)
  next_tmp : nat                    (* names handed out by NamedTemporaryFile *)
}.

Definition set_fs (f : FS) (w : World) : World :=
  mkWorld f (hist w ++ [f]) (net w) (raster_log w) (out w) (next_tmp w).
Definition log_net (ev : net_event) (w : World) : World :=
  mkWorld (fs w) (hist w) (net w ++ [ev]) (raster_log w) (out w) (next_tmp w).
Definition log_raster (ev : raster_event) (w : World) : World :=
  mkWorld (fs w) (hist w) (net w) (raster_log w ++ [ev]) (out w) (next_tmp w).
Definition log_out (s : string) (w : World) : World :=
  mkWorld (fs w) (hist w) (net w) (raster_log w) (out w ++ [s]) (next_tmp w).
Definition bump_tmp (w : World) : World :=
  mkWorld (fs w) (hist w) (net w) (raster_log w) (out w) (S (next_tmp w)).

Definition empty_world : World := mkWorld ∅ [] [] [] [] 0%nat.

(** ** The monad of the scripts: state and exceptions *)

Definition M (A : Type) : Type := World -> outcome A * World.

Definition ret {A} (a : A) : M A := fun w => (Ok a, w).

Definition bind {A B} (m : M A) (k : A -> M B) : M B :=
  fun w =>
    match m w with
    | (Ok a, w') => k a w'
    | (Raise e, w') => (Raise e, w')
    | (OutOfFuel, w') => (OutOfFuel, w')
    end.

Notation "'let*' x ':=' c 'in' k" := (bind c (fun x => k))
  (at level 10, x name, c at level 100, k at level 200).
Notation "c '>>' k" := (bind c (fun _ => k))
  (at level 90, right associativity).

Definition lift {A} (r : outcome A) : M A := fun w => (r, w).

(** A library call that touches nothing of the world. *)
Definition call {A} (r : answer A) : M A := lift (of_answer r).

(** [try: body  except Exception as e: handler e]. *)
Definition try_ {A} (body : M A) (handler : exn -> M A) : M A :=
  fun w =>
    match body w with
    | (Raise e, w') => handler e w'
    | r => r
    end.

(** [for x in l: body x] (no [break]). *)
Fixpoint for_each {A} (body : A -> M unit) (l : list A) : M unit :=
  match l with
  | [] => ret tt
  | x :: l' => body x >> for_each body l'
  end.

(** [[f x for x in l]]. *)
Fixpoint map_M {A B} (f : A -> M B) (l : list A) : M (list B) :=
  match l with
  | [] => ret []
  | x :: l' => let* y := f x in let* ys := map_M f l' in ret (y :: ys)
  end.

(** [print(s)] and [tqdm.write(s)]. *)
Definition print (s : string) : M unit := fun w => (Ok tt, log_out s w).

(** [p.exists()], [os.path.isfile(p)]. *)
Definition path_exists (p : fpath) : M bool :=
  fun w => (Ok (bool_decide (is_Some (fs w !! p))), w).

(** ** What the libraries and the network answer *)

(** A response of the catalog. *)
Record response := mkResponse {
  status_code : Z;
  reason : string;
  resp_url : string;
  body : json + exn      (* what [res.json()] returns or raises *)
}.

Inductive reply :=
| ConnectionFailed (e : exn)   (* [session.get] raises *)
| Reply (r : response).

(** What [urlretrieve] meets: the URL cannot be opened, or blocks arrive and
    are written in order, after which the transfer is complete ([None]) or
    fails ([Some e]). *)
Inductive transfer :=
| Refused (e : exn)
| Received (blocks : list bytes) (failure : option exn).

Definition Bounds : Type := float * float * float * float.

(** Raster metadata ([src.meta]) and arrays. *)
Inductive metaval :=
| MStr (s : string)
| MInt (n : Z)
| MTransform (t : list float)
| MOther (s : string).

Definition Meta := list (string * metaval).

Record dataset := mkDataset { ds_path : Path; ds_meta : Meta; ds_content : bytes }.
Record ndarray := mkArray { shape : list Z; pixels : bytes }.

Record Env := mkEnv {
  (* str() of a float and of a list or dict *)
  str_float : float -> string;
  py_repr : json -> string;
  (* requests: the answer to a GET, given the calls made before it *)
  http : list net_event -> string -> option (list (string * json)) -> reply;
  (* urllib: what retrieving a link meets, given the calls made before it *)
  fetch : list net_event -> json -> transfer;
  (* geopandas: read_file(path, layer).to_crs(epsg).total_bounds *)
  total_bounds : Path -> option string -> Z -> answer Bounds;
  (* rasterio *)
  raster_meta : bytes -> answer Meta;                       (* open for reading *)
  raster_merge : list dataset -> answer (ndarray * list float);
  raster_create : Meta -> answer bytes;                     (* open(p, "w", **meta) *)
  raster_encode : Meta -> ndarray -> answer bytes;          (* dest.write(mosaic) *)
  transform_bounds : dataset -> answer Bounds;
  (* elevation *)
  elevation_clip : Bounds -> answer bytes;
  elevation_clean : answer unit
}.

(** [str(v)]: the rendering an f-string gives a JSON value. *)
Definition py_str (E : Env) (v : json) : string :=
  match v with
  | JNull => "None"
  | JBool true => "True"
  | JBool false => "False"
  | JInt n => pretty n
  | JFloat x => str_float E x
  | JStr s => s
  | _ => py_repr E v
  end.

(** ** Library calls *)

Section Libraries.
Variable E : Env.

(** [session.get(url, params=params)]: the call is logged, the catalog
    answers. *)
Definition session_get (url : string) (params : option (list (string * json)))
  : M response :=
  fun w =>
    let w' := log_net (NGet url params) w in
    match http E (net w) url params with
    | ConnectionFailed e => (Raise e, w')
    | Reply r => (Ok r, w')
    end.

(** [res.raise_for_status()]. *)
Definition raise_for_status (res : response) : outcome unit :=
  let c := status_code res in
  if (400 <=? c) && (c <? 500) then
    Raise (Exn "HTTPError" (pretty c +:+ " Client Error: " +:+ reason res
                             +:+ " for url: " +:+ resp_url res))
  else if (500 <=? c) && (c <? 600) then
    Raise (Exn "HTTPError" (pretty c +:+ " Server Error: " +:+ reason res
                             +:+ " for url: " +:+ resp_url res))
  else Ok tt.

(** [res.json()]. *)
Definition res_json (res : response) : outcome json :=
  match body res with
  | inl j => Ok j
  | inr e => Raise e
  end.

(** [NamedTemporaryFile(delete=False)]: a new empty file under a name of
    its own. *)
Definition NamedTemporaryFile : M fpath :=
  fun w =>
    let p := TmpFile (next_tmp w) in
    (Ok p, set_fs (<[p := []]> (fs w)) (bump_tmp w)).

(** Appending the received blocks to [dest], one write each. *)
Fixpoint write_blocks (dest : fpath) (blocks : list bytes) (w : World) : World :=
  match blocks with
  | [] => w
  | b :: bs =>
      write_blocks dest bs
        (set_fs (<[dest := default [] (fs w !! dest) ++ b]> (fs w)) w)
  end.

(** [urllib.request.urlretrieve(url, dest)]: when the URL opens, [dest] is
    opened for writing (emptied) and the blocks are written as they
    arrive; a failure leaves what was written. *)
Definition urlretrieve (url : json) (dest : fpath) : M unit :=
  fun w =>
    let w0 := log_net (NRetrieve url) w in
    match fetch E (net w) url with
    | Refused e => (Raise e, w0)
    | Received blocks failure =>
        let w1 := write_blocks dest blocks (set_fs (<[dest := []]> (fs w0)) w0) in
        (match failure with None => Ok tt | Some e => Raise e end, w1)
    end.

(** [shutil.move(src, dst)], as the rename it is within one file system. *)
Definition shutil_move (src dst : fpath) : M unit :=
  fun w =>
    match fs w !! src with
    | Some c => (Ok tt, set_fs (<[dst := c]> (delete src (fs w))) w)
    | None => (Raise (Exn "FileNotFoundError" "No such file or directory"), w)
    end.

(** [Path(p).unlink()]. *)
Definition unlink (p : fpath) : M unit :=
  fun w => (Ok tt, set_fs (delete p (fs w)) w).

(** [rasterio.open(fp)] for reading. *)
Definition rasterio_open (fp : Path) : M dataset :=
  fun w =>
    let w' := log_raster (RRead fp) w in
    match fs w !! File fp with
    | None =>
        (Raise (Exn "RasterioIOError"
                  (path_str fp +:+ ": No such file or directory")), w')
    | Some c =>
        match raster_meta E c with
        | Done m => (Ok (mkDataset fp m c), w')
        | Fails e => (Raise e, w')
        end
    end.

(** [rasterio.open(p, "w", **meta)]: the file is created. *)
Definition rasterio_create (p : Path) (meta : Meta) : M unit :=
  fun w =>
    let w0 := log_raster (RWrite p) w in
    match raster_create E meta with
    | Done header => (Ok tt, set_fs (<[File p := header]> (fs w0)) w0)
    | Fails e => (Raise e, w0)
    end.

(** [dest.write(mosaic)] on the file opened at [p]. *)
Definition dest_write (p : Path) (meta : Meta) (mosaic : ndarray) : M unit :=
  fun w =>
    match raster_encode E meta mosaic with
    | Done c => (Ok tt, set_fs (<[File p := c]> (fs w)) w)
    | Fails e => (Raise e, w)
    end.

(** [with rasterio.open(p, "w", **meta) as dest: dest.write(mosaic)]. *)
Definition rasterio_write (p : Path) (meta : Meta) (mosaic : ndarray) : M unit :=
  rasterio_create p meta >> dest_write p meta mosaic.

(** [d.update(kv)] on a metadata dictionary. *)
Fixpoint meta_set (k : string) (v : metaval) (d : Meta) : Meta :=
  match d with
  | [] => [(k, v)]
  | (k', v') :: d' =>
      if String.eqb k k' then (k, v) :: d' else (k', v') :: meta_set k v d'
  end.

Definition meta_update (d : Meta) (kv : Meta) : Meta :=
  fold_left (fun acc e => meta_set (fst e) (snd e) acc) kv d.

(** [a.shape[i]]. *)
Definition shape_at (a : ndarray) (i : nat) : outcome Z :=
  match shape a !! i with
  | Some n => Ok n
  | None => Raise (Exn "IndexError" "tuple index out of range")
  end.

(** [l[0]] on a Python list. *)
Definition first_of {A} (l : list A) : outcome A :=
  match l with
  | x :: _ => Ok x
  | [] => Raise (Exn "IndexError" "list index out of range")
  end.

End Libraries.

Module Basemaps.

(** Lines 18-22. *)
Definition DOWNLOAD_DIR : Path := ["basemaps"].
Definition ANNOTATIONS_PATH : Path := ["inventories"].
Definition API_URL : string := "https://api.planet.com/basemaps/v1/mosaics".

(** [INVENTORIES], lines 25-47. *)
Record inventory := { name : string; dates : list datetime }.

Definition INVENTORIES : list inventory :=
  [ {| name := "Lombok2018";
       dates := [mk_datetime 2018 8 5; mk_datetime 2018 8 19] |};
    {| name := "Philippines2019";
       dates := [mk_datetime 2019 10 16; mk_datetime 2019 10 29;
                 mk_datetime 2019 10 31; mk_datetime 2019 12 15] |};
    {| name := "Michoacan2022";
       dates := [mk_datetime 2022 9 19] |};
    {| name := "EmiliaRomagna2023";
       dates := [mk_datetime 2023 5 16; mk_datetime 2023 5 17] |} ].

(** Lines 68-69. *)
Definition get_previous_month (month year : Z) : Z * Z :=
  if month =? 1 then (12, year - 1) else (month - 1, year).

(** Lines 72-73. *)
Definition get_next_month (month year : Z) : Z * Z :=
  if month =? 12 then (1, year + 1) else (month + 1, year).

(** Lines 112-117 and 122-125: the two windows of an inventory, as the
    triples [(tag, y, m)] the inner loop runs over.  [dates[0]] raises on an
    empty list. *)
Definition windows (inv : inventory) : outcome (list (string * Z * Z)) :=
  match dates inv with
  | [] => Raise (Exn "IndexError" "list index out of range")
  | d0 :: _ =>
      let dl := List.last (dates inv) d0 in
      let '(month_before, year_before) := get_previous_month (month d0) (year d0) in
      let '(month_after, year_after) := get_next_month (month dl) (year dl) in
      Ok [("pre", year_before, month_before); ("post", year_after, month_after)]
  end.

(** The line of [tqdm.write], line 127. *)
Definition banner (name tag : string) (y m : Z) : string :=
  "[" +:+ name +:+ "] Downloading " +:+ tag +:+ "-event area for "
      +:+ pretty y +:+ "-" +:+ fmt02 m.

(** [f"global_monthly_{y}_{m:02}_mosaic"], line 126. *)
Definition mosaic_name_of (y m : Z) : string :=
  "global_monthly_" +:+ pretty y +:+ "_" +:+ fmt02 m +:+ "_mosaic".

Section WithEnv.
Variable E : Env.

(** Lines 60-65. *)
Definition shapefile_to_bbox (inv : inventory) (target_epsg : Z) : M Bounds :=
  let gpkg_path := ANNOTATIONS_PATH // (name inv +:+ ".gpkg") in
  call (total_bounds E gpkg_path (Some "area") target_epsg).

(** [",".join(map(str, area_bbox))], line 120. *)
Definition bbox_string (b : Bounds) : string :=
  let '(minx, miny, maxx, maxy) := b in
  String.concat "," (map (str_float E) [minx; miny; maxx; maxy]).

(** Lines 129-140: the mosaic id, or [None] where the source says
    [continue]. *)
Definition resolve_mosaic (mosaic_name : string) : M (option json) :=
  try_
    (let* res := session_get E API_URL (Some [("name__is", JStr mosaic_name)]) in
     let* _ := lift (raise_for_status res) in
     let* data := lift (res_json res) in
     let* mosaics := lift (dict_get data "mosaics" (JArr [])) in
     if negb (truthy mosaics) then
       print ("No mosaics found for '" +:+ mosaic_name +:+ "'") >> ret None
     else
       let* first := lift (getitem0 mosaics) in
       let* mosaic_id := lift (getitem first "id") in
       ret (Some mosaic_id))
    (fun e => print ("Error retrieving mosaic: " +:+ exn_msg e) >> ret None).

(** Lines 148-158: the [while url:] loop.  [url] is the Python value held
    by the variable (a string at first, then whatever [_next] carried);
    [requests] takes [str(url)]. *)
Fixpoint quads_loop (fuel : nat) (url : json)
    (params : option (list (string * json))) (items : list json)
  : M (list json) :=
  if truthy url then
    match fuel with
    | O => lift OutOfFuel
    | S fuel' =>
        let* res := session_get E (py_str E url) params in
        let* _ := lift (raise_for_status res) in
        let* data := lift (res_json res) in
        let* page := lift (dict_get data "items" (JArr [])) in
        let* more := lift (py_iter page) in
        let items := items ++ more in
        let params := None in
        let* links := lift (dict_get data "_links" (JObj [])) in
        let* next := lift (dict_get links "_next" JNull) in
        quads_loop fuel' next params items
    end
  else ret items.

(** Lines 142-165: the items of all pages, or [None] where the source
    says [continue]. *)
Definition list_quads (fuel : nat) (mosaic_id : json) (bbox_str tag : string)
  : M (option (list json)) :=
  try_
    (let quads_url := API_URL +:+ "/" +:+ py_str E mosaic_id +:+ "/quads" in
     let params := Some [("bbox", JStr bbox_str); ("minimal", JBool true)] in
     let* items := quads_loop fuel (JStr quads_url) params [] in
     match items with
     | [] => print ("No quads found for " +:+ tag) >> ret None
     | _ => ret (Some items)
     end)
    (fun e => print ("Error retrieving quads: " +:+ exn_msg e) >> ret None).

(** [f"{quad['id']}_{tag}.tiff"] under [output_dir], line 172. *)
Definition quad_filename (output_dir : Path) (tag : string) (quad_id : json) : Path :=
  output_dir // (py_str E quad_id +:+ "_" +:+ tag +:+ ".tiff").

(** Lines 171-181: the body of the loop over the items.  [tmp_file] is
    bound before the transfer starts, so the handler finds this tile's
    temporary file. *)
Definition download_quad (output_dir : Path) (tag : string) (quad : json) : M unit :=
  let* links := lift (getitem quad "_links") in
  let* download_link := lift (getitem links "download") in
  let* quad_id := lift (getitem quad "id") in
  let filename := quad_filename output_dir tag quad_id in
  let* present := path_exists (File filename) in
  if negb present then
    let* tmp_file := NamedTemporaryFile in
    try_
      (urlretrieve E download_link tmp_file >>
       shutil_move tmp_file (File filename))
      (fun e =>
         print ("Download failed for " +:+ path_str filename +:+ ": " +:+ exn_msg e) >>
         let* there := path_exists tmp_file in
         if there then unlink tmp_file else ret tt)
  else ret tt.

(** Lines 126-181: the body of the loop over the windows.
    ([output_dir.mkdir(parents=True, exist_ok=True)], line 168, creates
    directories only.) *)
Definition process_window (fuel : nat) (name : string) (bbox_str : string)
    (download_path : Path) (win : string * Z * Z) : M unit :=
  let '(tag, y, m) := win in
  let mosaic_name := mosaic_name_of y m in
  print (banner name tag y m) >>
  let* found := resolve_mosaic mosaic_name in
  match found with
  | None => ret tt
  | Some mosaic_id =>
      let* listed := list_quads fuel mosaic_id bbox_str tag in
      match listed with
      | None => ret tt
      | Some items =>
          let output_dir := download_path // name // (tag +:+ "_quads") in
          for_each (download_quad output_dir tag) items
      end
  end.

(** Lines 111-181: the body of the loop over the inventories. *)
Definition process_inventory (fuel : nat) (download_path : Path) (inv : inventory)
  : M unit :=
  let* wins := lift (windows inv) in
  let* area_bbox := shapefile_to_bbox inv 4326 in
  let bbox_str := bbox_string area_bbox in
  for_each (process_window fuel (name inv) bbox_str download_path) wins.

(** Lines 110-181. *)
Definition download_basemaps (fuel : nat) (inventories : list inventory)
    (download_path : Path) : M unit :=
  for_each (process_inventory fuel download_path) inventories.

(** [dir.glob("*.tiff")]: the files of [dir] whose name ends in [.tiff]. *)
Definition in_dir_tiff (dir : Path) (p : fpath) : option Path :=
  match p with
  | File q =>
      match reverse q with
      | nm :: rd =>
          if bool_decide (reverse rd = dir) && ends_with ".tiff" nm
          then Some q else None
      | [] => None
      end
  | TmpFile _ => None
  end.

Definition glob_tiff (dir : Path) : M (list Path) :=
  fun w => (Ok (omap (in_dir_tiff dir) (map fst (map_to_list (fs w)))), w).

(** Lines 76-107. *)
Definition merge_quads (folder : Path) (tag : string) : M unit :=
  let input_dir := folder // (tag +:+ "_quads") in
  let output_path := folder // (tag +:+ "_merged.tif") in
  let* present := path_exists (File output_path) in
  if present then
    print (tag +:+ "_merged.tif" +:+ " already exists, skipping merge.")
  else
    let* tiff_files := glob_tiff input_dir in
    let* src_files_to_mosaic := map_M (rasterio_open E) tiff_files in
    let* merged := call (raster_merge E src_files_to_mosaic) in
    let '(mosaic, out_trans) := merged in
    let* first := lift (first_of src_files_to_mosaic) in
    let out_meta := ds_meta first in
    let* height := lift (shape_at mosaic 1) in
    let* width := lift (shape_at mosaic 2) in
    let out_meta :=
      meta_update out_meta
        [("driver", MStr "GTiff"); ("height", MInt height); ("width", MInt width);
         ("transform", MTransform out_trans); ("compress", MStr "lzw")] in
    rasterio_write E output_path (out_meta ++ [("BIGTIFF", MStr "YES")]) mosaic >>
    print ("Saved merged file to " +:+ path_str output_path).

(** Lines 184-188. *)
Definition get_bounds_wgs84 (raster_path : Path) : M Bounds :=
  let* src := rasterio_open E raster_path in
  call (transform_bounds E src).

(** Lines 191-207. *)
Definition download_dtm (inv : inventory) (output_dir : Path) : M unit :=
  let folder := output_dir // name inv in
  let pre_tif := folder // "pre_merged.tif" in
  let dtm_path := folder // "dtm.tif" in
  let* present := path_exists (File dtm_path) in
  if present then
    print ("DTM already exists for " +:+ name inv +:+ ", skipping download.")
  else
    let* bounds := get_bounds_wgs84 pre_tif in
    let* c := call (elevation_clip E bounds) in
    (fun w => (Ok tt, set_fs (<[File dtm_path := c]> (fs w)) w)) >>
    call (elevation_clean E) >>
    print ("DTM saved to " +:+ path_str dtm_path).

(** Lines 213-218: merge and terrain model of one inventory. *)
Definition assemble (inv : inventory) : M unit :=
  let folder := DOWNLOAD_DIR // name inv in
  for_each (fun tag => merge_quads folder tag) ["pre"; "post"] >>
  download_dtm inv DOWNLOAD_DIR.

(** Lines 210-218: the entry point. *)
Definition main (fuel : nat) : M unit :=
  download_basemaps fuel INVENTORIES DOWNLOAD_DIR >>
  for_each assemble INVENTORIES.

(** The exit status of the process: 0 when the script runs to its end,
    1 when an exception reaches the top. *)
Definition exit_status (r : outcome unit) : Z :=
  match r with
  | Ok _ => 0
  | _ => 1
  end.

End WithEnv.

End Basemaps.

Module Mosaics.

(** [INVENTORIES] of mosaics_download.py, lines 27-61. *)
Definition ANNOTATIONS_PATH : Path :=
  [".."; "landslides-detection-main"; "inventories"].
Definition LOMBOK_PATH := ANNOTATIONS_PATH // "Lombok2018".
Definition PHILIPPINES_PATH := ANNOTATIONS_PATH // "Philippines2019".
Definition EMILIA_PATH := ANNOTATIONS_PATH // "EmiliaRomagna2023".
Definition MICHOACAN_PATH := ANNOTATIONS_PATH // "Michoacan2022".

Record inventory :=
  { name : string; area : Path; dates : list datetime }.

Definition INVENTORIES : list inventory :=
  [ {| name := "Lombok2018";
       area := LOMBOK_PATH // "area.shp";
       dates := [mk_datetime 2018 8 5; mk_datetime 2018 8 19] |};
    {| name := "Philippines2019";
       area := PHILIPPINES_PATH // "area_study.shp";
       dates := [mk_datetime 2019 10 16; mk_datetime 2019 10 29;
                 mk_datetime 2019 10 31; mk_datetime 2019 12 15] |};
    {| name := "Michoacan2022";
       area := EMILIA_PATH // "Area_rev.shp";
       dates := [mk_datetime 2022 9 19] |};
    {| name := "EmiliaRomagna2023";
       area := MICHOACAN_PATH // "investigated_area_LS_Michoacan2022.shp";
       dates := [mk_datetime 2023 5 16; mk_datetime 2023 5 17] |} ].

(** Lines 71-82.  The callers pass the integers [dates[i].month] and
    [dates[i].year], on which [int(...)] is the identity; the results are
    the strings [f"{prev_month:02}"] and [str(prev_year)]. *)
Definition get_previous_month (month_str year_str : Z) : string * string :=
  let month := month_str in
  let year := year_str in
  let '(prev_month, prev_year) :=
    if month =? 1 then (12, year - 1) else (month - 1, year) in
  (fmt02 prev_month, pretty prev_year).

(** Lines 85-96. *)
Definition get_next_month (month_str year_str : Z) : string * string :=
  let month := month_str in
  let year := year_str in
  let '(next_month, next_year) :=
    if month =? 12 then (1, year + 1) else (month + 1, year) in
  (fmt02 next_month, pretty next_year).

(** Lines 243-264: the two windows of an entry, as the triples
    [(tag, y, m)] the inner loop runs over. *)
Definition windows (el : inventory) : outcome (list (string * string * string)) :=
  match dates el with
  | [d] =>
      let year := year d in
      let month := month d in
      let '(month_before, year_before) := get_previous_month month year in
      let '(month_after, year_after) := get_next_month month year in
      Ok [("pre", year_before, month_before); ("post", year_after, month_after)]
  | d0 :: _ =>
      let dl := List.last (dates el) d0 in
      let first_year := year d0 in
      let last_year := year dl in
      let first_month := month d0 in
      let last_month := month dl in
      let '(month_before, year_before) := get_previous_month first_month first_year in
      let '(month_after, year_after) := get_next_month last_month last_year in
      Ok [("pre", year_before, month_before); ("post", year_after, month_after)]
  | [] => Raise (Exn "IndexError" "list index out of range")
  end.

(** Line 66. *)
Definition API_URL : string := "https://api.planet.com/basemaps/v1/mosaics".

Section WithEnv.
Variable E : Env.

(** Lines 12-24. *)
Definition shapefile_to_bbox (shapefile_path : Path) (target_epsg : Z) : M Bounds :=
  call (total_bounds E shapefile_path None target_epsg).

(** [",".join(map(str, area_bbox))], line 259. *)
Definition bbox_string (b : Bounds) : string :=
  let '(minx, miny, maxx, maxy) := b in
  String.concat "," (map (str_float E) [minx; miny; maxx; maxy]).

(** Lines 275-283: the mosaic id, or [None] where the source says
    [continue]. *)
Definition parse_mosaic (res : response) (mosaic_name : string) : M (option json) :=
  try_
    (let* data := lift (res_json res) in
     let* listed := lift (py_contains "mosaics" data) in
     let* none :=
       (if negb listed then ret true
        else let* v := lift (getitem data "mosaics") in ret (negb (truthy v))) in
     if (none : bool) then
       print ("No mosaics found for '" +:+ mosaic_name +:+ "'") >> ret None
     else
       let* v := lift (getitem data "mosaics") in
       let* first := lift (getitem0 v) in
       let* mosaic_id := lift (getitem first "id") in
       ret (Some mosaic_id))
    (fun e => print ("Failed to parse mosaic response: " +:+ exn_msg e) >> ret None).

(** Lines 294-302: the value of [items], or [None] where the source says
    [continue]. *)
Definition parse_quads (res : response) (tag : string) : M (option json) :=
  try_
    (let* data := lift (res_json res) in
     let* items := lift (dict_get data "items" (JArr [])) in
     if negb (truthy items) then
       print ("No quads found for " +:+ tag) >> ret None
     else ret (Some items))
    (fun e => print ("Error parsing quads JSON: " +:+ exn_msg e) >> ret None).

(** Lines 306-314: the body of the loop over the items.  The tile is
    retrieved straight to its final path. *)
Definition download_item (path : Path) (el_name tag : string) (i : json) : M unit :=
  let* links := lift (getitem i "_links") in
  let* link := lift (getitem links "download") in
  let* id := lift (getitem i "id") in
  let* name := lift (py_add_str id ("_" +:+ tag +:+ ".tiff")) in
  let DIR := path // el_name in
  let filename := DIR // name in
  let* present := path_exists (File filename) in
  if negb present then
    print ("Downloading " +:+ path_str filename) >>
    urlretrieve E link (File filename)
  else ret tt.

(** Lines 265-314: the body of the loop over the windows. *)
Definition process_window (area_bbox_str : string) (path : Path) (el_name : string)
    (win : string * string * string) : M unit :=
  let '(tag, y, m) := win in
  let mosaic_name := "global_monthly_" +:+ y +:+ "_" +:+ m +:+ "_mosaic" in
  print ("Looking for mosaic: " +:+ mosaic_name) >>
  let* res := session_get E API_URL (Some [("name__is", JStr mosaic_name)]) in
  if negb (status_code res =? 200) then
    print ("Failed to find mosaic '" +:+ mosaic_name +:+ "': "
           +:+ pretty (status_code res))
  else
    let* found := parse_mosaic res mosaic_name in
    match found with
    | None => ret tt
    | Some mosaic_id =>
        print ("Using mosaic_id: " +:+ py_str E mosaic_id) >>
        let quads_url := API_URL +:+ "/" +:+ py_str E mosaic_id +:+ "/quads" in
        let* res :=
          session_get E quads_url
            (Some [("bbox", JStr area_bbox_str); ("minimal", JBool true)]) in
        print ("Status code for quads (" +:+ tag +:+ "): "
               +:+ pretty (status_code res)) >>
        let* listed := parse_quads res tag in
        match listed with
        | None => ret tt
        | Some items =>
            let* l := lift (py_iter items) in
            for_each (download_item path el_name tag) l
        end
    end.

(** Lines 242-314: the body of the loop over the inventories. *)
Definition process_inventory (path : Path) (el : inventory) : M unit :=
  let* wins := lift (windows el) in
  let* area_bbox := shapefile_to_bbox (area el) 4326 in
  let area_bbox_str := bbox_string area_bbox in
  for_each (process_window area_bbox_str path (name el)) wins.

(** Lines 241-314. *)
Definition download_basemaps (inventories : list inventory) (path : Path) : M unit :=
  for_each (process_inventory path) inventories.

End WithEnv.

End Mosaics.

Module MergeMosaics.

(** [s.lower()], on ASCII letters. *)
Definition lower_char (c : Ascii.ascii) : Ascii.ascii :=
  let n := Ascii.nat_of_ascii c in
  if (65 <=? n)%nat && (n <=? 90)%nat then Ascii.ascii_of_nat (n + 32) else c.

Fixpoint lower (s : string) : string :=
  match s with
  | EmptyString => EmptyString
  | String c s' => String (lower_char c) (lower s')
  end.

(** The name directly under [dir] on the way to the file [p]. *)
Definition entry_under (dir : Path) (p : fpath) : option string :=
  match p with
  | File q => if bool_decide (take (length dir) q = dir) then q !! length dir else None
  | TmpFile _ => None
  end.

(** [os.listdir(dir)]: the names directly under [dir], each once. *)
Definition listdir (dir : Path) : M (list string) :=
  fun w => (Ok (remove_dups (omap (entry_under dir) (map fst (map_to_list (fs w))))), w).

(** [os.path.isdir(p)]: some file lies under [p]. *)
Definition isdir (p : Path) : M bool :=
  fun w =>
    (Ok (match omap (entry_under p) (map fst (map_to_list (fs w))) with
         | [] => false
         | _ => true
         end), w).

(** [glob.glob(f"{dir}/*_{suffix}.tiff")]: the files of [dir] whose name
    ends in [_<suffix>.tiff] and does not start with a dot. *)
Definition in_dir_suffix (dir : Path) (suffix : string) (p : fpath) : option Path :=
  match p with
  | File q =>
      match reverse q with
      | nm :: rd =>
          if bool_decide (reverse rd = dir)
             && ends_with ("_" +:+ suffix +:+ ".tiff") nm
             && negb (String.prefix "." nm)
          then Some q else None
      | [] => None
      end
  | TmpFile _ => None
  end.

Definition glob_suffix (dir : Path) (suffix : string) : M (list Path) :=
  fun w => (Ok (omap (in_dir_suffix dir suffix) (map fst (map_to_list (fs w)))), w).

Section WithEnv.
Variable E : Env.

(** Lines 11-42: the body of the loop over the names under [path_root]. *)
Definition merge_folder (path_root : Path) (suffix name : string) : M unit :=
  let path := path_root // name in
  let* is_dir := isdir path in
  if negb is_dir then ret tt
  else
    let* raster_files := glob_suffix path suffix in
    print ("reading: " +:+ path_str path_root +:+ "/" +:+ name +:+ "/*_" +:+ suffix
           +:+ ".tiff") >>
    let* src_files_to_mosaic := map_M (rasterio_open E) raster_files in
    let* merged := call (raster_merge E src_files_to_mosaic) in
    let '(mosaic, out_transform) := merged in
    let* first := lift (first_of src_files_to_mosaic) in
    let out_meta := ds_meta first in
    let* height := lift (shape_at mosaic 1) in
    let* width := lift (shape_at mosaic 2) in
    let out_meta :=
      meta_update out_meta
        [("driver", MStr "GTiff"); ("height", MInt height); ("width", MInt width);
         ("transform", MTransform out_transform)] in
    let out_name := lower name +:+ "_" +:+ suffix +:+ "_merged.tiff" in
    rasterio_create E (path // out_name) out_meta >>
    print (out_name +:+ " mosaic written in " +:+ path_str path) >>
    dest_write E (path // out_name) out_meta mosaic.

(** Lines 9-42. *)
Definition mergeTiff (path_root : Path) (suffix : string) : M unit :=
  let* names := listdir path_root in
  for_each (merge_folder path_root suffix) names.

End WithEnv.

End MergeMosaics.

Module Geopackage.

(** [layer_map] of convert_to_geopackage.py, lines 6-23: for each inventory
    folder, the shapefile of each layer. *)
Definition layer_map : list (string * list (string * string)) :=
  [ ("EmiliaRomagna2023",
      [("area", "Area_rev.shp"); ("landslides", "Emilia_landslides_v2.shp")]);
    ("Lombok2018",
      [("area", "area.shp"); ("landslides", "LS19-08.shp")]);
    ("Michoacan2022",
      [("area", "investigated_area_LS_Michoacan2022.shp");
       ("landslides", "Michoacan2022_LS_polygon.shp")]);
    ("Philippines2019",
      [("area", "area_study.shp"); ("landslides", "landslides_dic2019.shp")]) ]%string.

(** [layer_map[country]["area"]]. *)
Definition area_file (country : string) : option string :=
  match assoc country layer_map with
  | Some layers => assoc "area"%string layers
  | None => None
  end.

End Geopackage.

(** ** Notions used in the statements about basemaps_download.py *)

(** The request that looks a mosaic up by name, and the world after the
    lookup gave up with the printed [line]. *)
Definition lookup_request (mosaic_name : string) : net_event :=
  NGet Basemaps.API_URL (Some [("name__is", JStr mosaic_name)]).

Definition gave_up (mosaic_name line : string) (w : World) : World :=
  log_out line (log_net (lookup_request mosaic_name) w).

(** A response that decodes to a page: its items and the value of
    [_links._next] ([None] when absent). *)
Definition page_of (r : response) (items : list json) (next : json) : Prop :=
  raise_for_status r = Ok tt
  ∧ exists data page links,
      res_json r = Ok data
      ∧ dict_get data "items" (JArr []) = Ok page
      ∧ py_iter page = Ok items
      ∧ dict_get data "_links" (JObj []) = Ok links
      ∧ dict_get links "_next" JNull = Ok next.

(** The catalog serves the pages [pages], each with its items and its
    [_next] value, starting from a request to [url] with [params]: every page
    but the last carries a continuation link, which answers a request without
    parameters with the next page. *)
Inductive serves (E : Env) :
  json -> option (list (string * json)) -> list (list json * json) -> Prop :=
| serves_last url params r items next :
    (forall h, http E h (py_str E url) params = Reply r) ->
    page_of r items next ->
    truthy next = false ->
    serves E url params [(items, next)]
| serves_more url params r items next rest :
    (forall h, http E h (py_str E url) params = Reply r) ->
    page_of r items next ->
    truthy next = true ->
    serves E next None rest ->
    serves E url params ((items, next) :: rest).

(** One request per page: the first to [url] with [params], each later one
    to the link of the page before it, without parameters. *)
Fixpoint page_requests (E : Env) (url : json) (params : option (list (string * json)))
    (pages : list (list json * json)) : list net_event :=
  match pages with
  | [] => []
  | (_, next) :: rest => NGet (py_str E url) params :: page_requests E next None rest
  end.

Definition add_requests (evs : list net_event) (w : World) : World :=
  mkWorld (fs w) (hist w) (net w ++ evs) (raster_log w) (out w) (next_tmp w).

(** A tile entry that carries an id and a download link. *)
Definition quad_fields (quad id link : json) : Prop :=
  exists links,
    getitem quad "_links" = Ok links
    ∧ getitem links "download" = Ok link
    ∧ getitem quad "id" = Ok id.

(** Every page the catalog can answer with lists entries of that shape. *)
Definition well_formed_catalog (E : Env) : Prop :=
  forall h url params r data page items,
    http E h url params = Reply r ->
    res_json r = Ok data ->
    dict_get data "items" (JArr []) = Ok page ->
    py_iter page = Ok items ->
    Forall (fun q => exists id link, quad_fields q id link) items.

(** [f] differs from [f0] at [dest] only. *)
Definition touches_only (dest : fpath) (f0 f : FS) : Prop :=
  forall q, q <> dest -> f !! q = f0 !! q.

(** The world after the handler removed the temporary file. *)
Definition cleanup (tmp : fpath) (w : World) : World := set_fs (delete tmp (fs w)) w.

(** The line printed for a failed tile, line 179. *)
Definition failure_line (filename : Path) (e : exn) : string :=
  "Download failed for " +:+ path_str filename +:+ ": " +:+ exn_msg e.

(** A file content that a completed transfer of one of the listed tiles
    delivered for the path [p]. *)
Definition delivered (E : Env) (output_dir : Path) (tag : string) (items : list json)
    (p : Path) (c : bytes) : Prop :=
  exists quad id link h blocks,
    quad ∈ items ∧ quad_fields quad id link
    ∧ p = Basemaps.quad_filename E output_dir tag id
    ∧ fetch E h link = Received blocks None
    ∧ c = concat blocks.

(** A state [f] of the files, reached from [f0]: every named file is as in
    [f0] or holds what a completed transfer delivered for it. *)
Definition never_partial (E : Env) (output_dir : Path) (tag : string) (items : list json)
    (f0 f : FS) : Prop :=
  forall p : Path,
    f !! File p = f0 !! File p
    ∨ exists c, f !! File p = Some c ∧ delivered E output_dir tag items p c.

(** A tile whose transfer completes whenever it is tried, and one whose
    transfer fails whenever it is tried (refused, or broken after some
    blocks). *)
Definition transfers (E : Env) (quad : json) : Prop :=
  exists id link blocks,
    quad_fields quad id link ∧ forall h, fetch E h link = Received blocks None.

Definition breaks (E : Env) (quad : json) : Prop :=
  exists id link,
    quad_fields quad id link
    ∧ forall h, match fetch E h link with
                | Received _ None => False
                | _ => True
                end.

(** The run did not end in an exception: it finished, or the paging loop
    was still following links when the fuel ran out. *)
Definition no_exception {A} (r : outcome A * World) : Prop :=
  match r.1 with
  | Raise _ => False
  | _ => True
  end.

(** The fuel is enough for every listing: the paging loop never stops for
    want of it. *)
Definition paging_ends (E : Env) (fuel : nat) : Prop :=
  forall url params acc w, (Basemaps.quads_loop E fuel url params acc w).1 <> OutOfFuel.

(** The area layer of the inventory can be read and gives a bounding box. *)
Definition area_resolves (E : Env) (inv : Basemaps.inventory) : Prop :=
  exists b,
    total_bounds E (Basemaps.ANNOTATIONS_PATH // (Basemaps.name inv +:+ ".gpkg"))
      (Some "area") 4326 = Done b.

(** ** Stub catalogs and libraries, for running the scripts on concrete data *)

Module Stub.

(** A tile entry of the catalog. *)
Definition quad (id link : string) : json :=
  JObj [("id", JStr id); ("_links", JObj [("download", JStr link)])].

(** A page of tile entries, with or without a continuation link. *)
Definition page (items : list json) (next : option string) : json :=
  JObj [("items", JArr items);
        ("_links",
          JObj (match next with
                | Some u => [("_self", JStr "self"); ("_next", JStr u)]
                | None => [("_self", JStr "self")]
                end))].

Definition ok200 (url : string) (j : json) : reply :=
  Reply (mkResponse 200 "OK" url (inl j)).

Definition not_found (url : string) : reply :=
  Reply (mkResponse 404 "Not Found" url
           (inr (Exn "JSONDecodeError" "Expecting value: line 1 column 1 (char 0)"))).

Definition quads_url : string := Basemaps.API_URL +:+ "/m1/quads".

(** A catalog with one mosaic [m1] whose tiles come in three pages. *)
Definition three_pages (h : list net_event) (url : string)
    (params : option (list (string * json))) : reply :=
  if String.eqb url Basemaps.API_URL then
    ok200 url (JObj [("mosaics", JArr [JObj [("id", JStr "m1")]])])
  else if String.eqb url quads_url then
    ok200 url (page [quad "q1" "dl/q1"; quad "q2" "dl/q2"] (Some "next/2"))
  else if String.eqb url "next/2" then
    ok200 url (page [quad "q3" "dl/q3"] (Some "next/3"))
  else if String.eqb url "next/3" then
    ok200 url (page [quad "q4" "dl/q4"] None)
  else not_found url.

(** A catalog with one mosaic [m1] whose tiles come in one page. *)
Definition one_page (h : list net_event) (url : string)
    (params : option (list (string * json))) : reply :=
  if String.eqb url Basemaps.API_URL then
    ok200 url (JObj [("mosaics", JArr [JObj [("id", JStr "m1")]])])
  else
    ok200 url (page [quad "q1" "dl/q1"; quad "q2" "dl/q2"; quad "q3" "dl/q3"] None).

(** A catalog that knows no mosaic. *)
Definition no_mosaic (h : list net_event) (url : string)
    (params : option (list (string * json))) : reply :=
  ok200 url (JObj [("mosaics", JArr [])]).

(** A catalog that cannot be reached. *)
Definition unreachable (h : list net_event) (url : string)
    (params : option (list (string * json))) : reply :=
  ConnectionFailed (Exn "ConnectionError" "Max retries exceeded").

Definition tile_body : list bytes := [[Byte.x49; Byte.x49]; [Byte.x2a; Byte.x00]].

(** Every link but [dl/q2] transfers in full; [dl/q2] breaks after its
    first block. *)
Definition fetch_q2_breaks (h : list net_event) (url : json) : transfer :=
  match url with
  | JStr s =>
      if String.eqb s "dl/q2"
      then Received [[Byte.x49; Byte.x49]] (Some (Exn "ContentTooShortError" "retrieval incomplete"))
      else Received tile_body None
  | _ => Refused (Exn "TypeError" "expected str")
  end.

(** Every link transfers in full. *)
Definition fetch_ok (h : list net_event) (url : json) : transfer :=
  Received tile_body None.

Definition unit_box : Bounds := (0%float, 0%float, 1%float, 1%float).

Definition bounds_ok (p : Path) (layer : option string) (epsg : Z) : answer Bounds :=
  Done unit_box.

Definition bounds_missing (p : Path) (layer : option string) (epsg : Z) : answer Bounds :=
  Fails (Exn "DataSourceError" (path_str p +:+ ": No such file or directory")).

(** A raster file opens when it is not empty. *)
Definition meta_of (c : bytes) : answer Meta :=
  match c with
  | [] => Fails (Exn "RasterioIOError" "not recognized as a supported file format")
  | _ => Done [("driver", MStr "GTiff"); ("count", MInt 3)]
  end.

(** [rasterio.merge.merge] looks at its first source and raises on none. *)
Definition merge_of (l : list dataset) : answer (ndarray * list float) :=
  match l with
  | [] => Fails (Exn "IndexError" "list index out of range")
  | d :: _ => Done (mkArray [3; 2; 2] (ds_content d), [])
  end.

Definition env (http : list net_event -> string -> option (list (string * json)) -> reply)
    (fetch : list net_event -> json -> transfer)
    (bounds : Path -> option string -> Z -> answer Bounds)
    (clip : Bounds -> answer bytes) : Env :=
  mkEnv (fun _ => "0.0") (fun _ => "?") http fetch bounds
        meta_of merge_of (fun _ => Done [Byte.x49]) (fun _ a => Done (pixels a))
        (fun _ => Done unit_box) clip (Done tt).

Definition clip_ok (b : Bounds) : answer bytes := Done [Byte.x44].
Definition clip_fails (b : Bounds) : answer bytes :=
  Fails (Exn "RuntimeError" "Too many tiles").

Definition good_env : Env := env three_pages fetch_q2_breaks bounds_ok clip_ok.

(** The pages of [three_pages]: the items and the [_next] value of each. *)
Definition pages : list (list json * json) :=
  [ ([quad "q1" "dl/q1"; quad "q2" "dl/q2"], JStr "next/2");
    ([quad "q3" "dl/q3"], JStr "next/3");
    ([quad "q4" "dl/q4"], JNull) ].

Definition no_mosaic_env : Env := env no_mosaic fetch_q2_breaks bounds_ok clip_ok.
Definition unreachable_env : Env := env unreachable fetch_q2_breaks bounds_ok clip_ok.
Definition no_area_env : Env := env three_pages fetch_q2_breaks bounds_missing clip_ok.
Definition no_terrain_env : Env := env three_pages fetch_q2_breaks bounds_ok clip_fails.
Definition one_page_env : Env := env one_page fetch_q2_breaks bounds_ok clip_fails.
Definition all_ok_env : Env := env three_pages fetch_ok bounds_ok clip_ok.

(** The first entry of the earlier script's table. *)
Definition lombok_entry : Mosaics.inventory :=
  {| Mosaics.name := "Lombok2018";
     Mosaics.area := Mosaics.LOMBOK_PATH // "area.shp";
     Mosaics.dates := [mk_datetime 2018 8 5; mk_datetime 2018 8 19] |}.

(** Three listed tiles; the transfer of the second one breaks. *)
Definition tiles : list json :=
  [quad "q1" "dl/q1"; quad "q2" "dl/q2"; quad "q3" "dl/q3"].

Definition lombok : Path := Basemaps.DOWNLOAD_DIR // "Lombok2018".

(** A world where Lombok2018's pre-event mosaic is already merged. *)
Definition merged_world : World :=
  set_fs (<[File (lombok // "pre_merged.tif") := [Byte.x49]]> ∅) empty_world.

(** A world with one tile as the earlier download script leaves it. *)
Definition quads_world : World :=
  set_fs (<[File ["quads"; "Lombok2018"; "q1_pre.tiff"] := [Byte.x49; Byte.x49]]> ∅)
         empty_world.

(** A world with one downloaded pre-event tile of Lombok2018. *)
Definition one_tile_world : World :=
  set_fs (<[File (lombok // "pre_quads" // "q1_pre.tiff") := [Byte.x49; Byte.x49]]> ∅)
         empty_world.

End Stub.

(** ** Chronological order of dates, and the table check of the earlier script *)

(** A window of basemaps_download.py as mosaics_download.py writes it: the
    year in decimal, the month in two digits. *)
Definition render_window (win : string * Z * Z) : string * string * string :=
  let '(tag, y, m) := win in (tag, pretty y, fmt02 m).

Definition date_le (a b : datetime) : Prop :=
  year a < year b
  ∨ (year a = year b
     ∧ (month a < month b ∨ (month a = month b ∧ day a <= day b))).

(** The directory that holds an entry's area file bears the entry's name. *)
Definition area_under_own_name (inv : Mosaics.inventory) : bool :=
  bool_decide (parent_name (Mosaics.area inv) = Some (Mosaics.name inv)).

(** The area file of an entry is the one [layer_map] lists for its name. *)
Definition area_file_matches (inv : Mosaics.inventory) : bool :=
  bool_decide (base_name (Mosaics.area inv) = Geopackage.area_file (Mosaics.name inv)).

(** ** The other entry points of mosaics_download.py *)

Module MosaicsSplit.

(** Lines 100-112: the window of an entry in [download_basemaps_pre].  With
    several dates the last one is read as well (lines 109 and 111). *)
Definition windows_pre (el : Mosaics.inventory)
  : outcome (list (string * string * string)) :=
  match Mosaics.dates el with
  | [d] =>
      let year := year d in
      let month := month d in
      let '(month_before, year_before) := Mosaics.get_previous_month month year in
      Ok [("pre", year_before, month_before)]
  | d0 :: _ =>
      let dl := List.last (Mosaics.dates el) d0 in
      let first_year := year d0 in
      let last_year := year dl in
      let first_month := month d0 in
      let last_month := month dl in
      let '(month_before, year_before) :=
        Mosaics.get_previous_month first_month first_year in
      Ok [("pre", year_before, month_before)]
  | [] => Raise (Exn "IndexError" "list index out of range")
  end.

(** Lines 171-183: the window of an entry in [download_basemaps_post]. *)
Definition windows_post (el : Mosaics.inventory)
  : outcome (list (string * string * string)) :=
  match Mosaics.dates el with
  | [d] =>
      let year := year d in
      let month := month d in
      let '(month_after, year_after) := Mosaics.get_next_month month year in
      Ok [("post", year_after, month_after)]
  | d0 :: _ =>
      let dl := List.last (Mosaics.dates el) d0 in
      let first_year := year d0 in
      let last_year := year dl in
      let first_month := month d0 in
      let last_month := month dl in
      let '(month_after, year_after) := Mosaics.get_next_month last_month last_year in
      Ok [("post", year_after, month_after)]
  | [] => Raise (Exn "IndexError" "list index out of range")
  end.

Section WithEnv.
Variable E : Env.

(** Lines 100-167: the body of the loop over the inventories.  The body of
    the loop over the windows (lines 118-167) is, line for line, that of
    [download_basemaps] (lines 265-314). *)
Definition process_inventory_pre (path : Path) (el : Mosaics.inventory) : M unit :=
  let* wins := lift (windows_pre el) in
  let* area_bbox := Mosaics.shapefile_to_bbox E (Mosaics.area el) 4326 in
  let area_bbox_str := Mosaics.bbox_string E area_bbox in
  for_each (Mosaics.process_window E area_bbox_str path (Mosaics.name el)) wins.

(** Lines 99-167. *)
Definition download_basemaps_pre (inventories : list Mosaics.inventory) (path : Path)
  : M unit :=
  for_each (process_inventory_pre path) inventories.

(** Lines 171-238: the body of the loop over the inventories; the body of
    the loop over the windows (lines 189-238) is again the same. *)
Definition process_inventory_post (path : Path) (el : Mosaics.inventory) : M unit :=
  let* wins := lift (windows_post el) in
  let* area_bbox := Mosaics.shapefile_to_bbox E (Mosaics.area el) 4326 in
  let area_bbox_str := Mosaics.bbox_string E area_bbox in
  for_each (Mosaics.process_window E area_bbox_str path (Mosaics.name el)) wins.

(** Lines 170-238. *)
Definition download_basemaps_post (inventories : list Mosaics.inventory) (path : Path)
  : M unit :=
  for_each (process_inventory_post path) inventories.

End WithEnv.

End MosaicsSplit.

(** ** The conversion loop of convert_to_geopackage.py *)

Module Conversion.

(** What [geopandas] answers: [gpd.read_file(shp_path)], which reads the
    shapefile and the files beside it, and [gdf.to_file(output, layer=...,
    driver="GPKG")], which gives the GeoPackage its new content from the
    content it had ([None] when the file is new).  A failed [to_file] is taken
    to leave the file as it was. *)
Record GeoLib := mkGeoLib {
  frame : Type;
  read_file : FS -> Path -> answer frame;
  to_file : option bytes -> string -> frame -> answer bytes
}.

(** Line 26. *)
Definition inventories_root : Path := ["inventories"].

(** Line 30. *)
Definition output_gpkg (country : string) : Path :=
  inventories_root // (country +:+ ".gpkg").

Section WithLib.
Variable G : GeoLib.

Definition gpd_read_file (shp_path : Path) : M (frame G) :=
  fun w => (of_answer (read_file G (fs w) shp_path), w).

Definition gdf_to_file (gdf : frame G) (output : Path) (layer : string) : M unit :=
  fun w =>
    match to_file G (fs w !! File output) layer gdf with
    | Done c => (Ok tt, set_fs (<[File output := c]> (fs w)) w)
    | Fails e => (Raise e, w)
    end.

(** Lines 32-40: the body of the loop over the layers of a country. *)
Definition convert_layer (country : string) (layer : string * string) : M unit :=
  let folder := inventories_root // country in
  let '(layer_name, shp_file) := layer in
  let shp_path := folder // shp_file in
  let* present := path_exists (File shp_path) in
  if negb present then
    print ("Missing file: " +:+ path_str shp_path)
  else
    let* gdf := gpd_read_file shp_path in
    gdf_to_file gdf (output_gpkg country) layer_name >>
    print (country +:+ ": Saved '" +:+ layer_name +:+ "' from '" +:+ shp_file +:+ "'").

(** Lines 28-40, over a table of the shape of [layer_map]. *)
Definition convert (table : list (string * list (string * string))) : M unit :=
  for_each (fun entry => for_each (convert_layer (fst entry)) (snd entry)) table.

(** The script: the loop over [layer_map]. *)
Definition main : M unit := convert Geopackage.layer_map.

End WithLib.

End Conversion.

(** ** Notions used in the statements about the files *)

(** Every named file of [f0] is in [f] with the content it had. *)
Definition keeps (f0 f : FS) : Prop :=
  forall (p : Path) (c : bytes), f0 !! File p = Some c -> f !! File p = Some c.

(** From [w] to [w'] the files changed as [R] allows: in the state reached
    and in every state gone through on the way. *)
Definition throughout (R : FS -> FS -> Prop) (w w' : World) : Prop :=
  R (fs w) (fs w')
  ∧ exists new, hist w' = hist w ++ new ∧ Forall (R (fs w)) new.

(** The month [m] of the year [y] lies before the month of [d], and after
    it. *)
Definition month_before (y m : Z) (d : datetime) : Prop :=
  y < year d ∨ (y = year d ∧ m < month d).

Definition month_after (y m : Z) (d : datetime) : Prop :=
  year d < y ∨ (year d = y ∧ month d < m).

(** No temporary file is in [f] that was not in [f0]. *)
Definition no_new_tmp (f0 f : FS) : Prop :=
  forall n : nat, f0 !! TmpFile n = None -> f !! TmpFile n = None.

(** The files are in [w'] as in [w], and went through no other state. *)
Definition same_files (w w' : World) : Prop :=
  fs w' = fs w ∧ hist w' = hist w.

(** From [w] to [w'] no named file was changed or removed at any point, and
    no temporary file is left that was not there. *)
Definition unharmed (w w' : World) : Prop :=
  throughout keeps w w' ∧ no_new_tmp (fs w) (fs w').

(** ** Notions used in the statements about a listing that goes wrong *)

(** A response that cannot be read as a page, and the exception the loop
    meets on it: an error status, a body that does not decode, or a decoded
    body of another shape. *)
Definition page_fails (r : response) (e : exn) : Prop :=
  raise_for_status r = Raise e
  ∨ (raise_for_status r = Ok tt
     ∧ (res_json r = Raise e
        ∨ exists data,
            res_json r = Ok data
            ∧ (dict_get data "items" (JArr []) = Raise e
               ∨ exists page,
                   dict_get data "items" (JArr []) = Ok page
                   ∧ (py_iter page = Raise e
                      ∨ exists more,
                          py_iter page = Ok more
                          ∧ (dict_get data "_links" (JObj []) = Raise e
                             ∨ exists links,
                                 dict_get data "_links" (JObj []) = Ok links
                                 ∧ dict_get links "_next" JNull = Raise e))))).

(** The catalog serves the pages [pages], linked by [_next], and fails on
    the request that follows the last of them (on the first request when
    [pages] is empty): the catalog cannot be reached, or its response cannot
    be read as a page. *)
Inductive listing_breaks (E : Env) :
  json -> option (list (string * json)) -> list (list json * json) -> exn -> Prop :=
| breaks_unreachable url params e :
    (forall h, http E h (py_str E url) params = ConnectionFailed e) ->
    listing_breaks E url params [] e
| breaks_response url params r e :
    (forall h, http E h (py_str E url) params = Reply r) ->
    page_fails r e ->
    listing_breaks E url params [] e
| breaks_later url params r items next rest e :
    (forall h, http E h (py_str E url) params = Reply r) ->
    page_of r items next ->
    truthy next = true ->
    listing_breaks E next None rest e ->
    listing_breaks E url params ((items, next) :: rest) e.

(** The request that fails: the one after the last page. *)
Fixpoint broken_request (E : Env) (url : json) (params : option (list (string * json)))
    (pages : list (list json * json)) : net_event :=
  match pages with
  | [] => NGet (py_str E url) params
  | (_, next) :: rest => broken_request E next None rest
  end.

(** A catalog whose every answer is a page that links to a next one. *)
Definition endless (E : Env) : Prop :=
  forall h url params,
    exists r items next,
      http E h url params = Reply r ∧ page_of r items next ∧ truthy next = true.

(** A listed entry that lacks its links, its download link or its id, and
    the exception reading it raises. *)
Definition malformed (quad : json) (e : exn) : Prop :=
  getitem quad "_links" = Raise e
  ∨ exists links,
      getitem quad "_links" = Ok links
      ∧ (getitem links "download" = Raise e
         ∨ exists link, getitem links "download" = Ok link ∧ getitem quad "id" = Raise e).

(** ** More stub catalogs *)

Module Cases.

(** The catalog of [Stub.three_pages] with its third page out of service. *)
Definition third_page_down (h : list net_event) (url : string)
    (params : option (list (string * json))) : reply :=
  if String.eqb url "next/3" then
    Reply (mkResponse 503 "Service Unavailable" url
             (inr (Exn "JSONDecodeError" "Expecting value: line 1 column 1 (char 0)")))
  else Stub.three_pages h url params.

(** A catalog whose every page links to a next one. *)
Definition always_more (h : list net_event) (url : string)
    (params : option (list (string * json))) : reply :=
  Stub.ok200 url (Stub.page [Stub.quad "q1" "dl/q1"] (Some "next/1")).

Definition third_page_down_env : Env :=
  Stub.env third_page_down Stub.fetch_ok Stub.bounds_ok Stub.clip_ok.

Definition always_more_env : Env :=
  Stub.env always_more Stub.fetch_ok Stub.bounds_ok Stub.clip_ok.

(** The two pages that [third_page_down] serves. *)
Definition two_pages : list (list json * json) :=
  [ ([Stub.quad "q1" "dl/q1"; Stub.quad "q2" "dl/q2"], JStr "next/2");
    ([Stub.quad "q3" "dl/q3"], JStr "next/3") ].

(** A listed entry without its links. *)
Definition no_links : json := JObj [("id", JStr "q9")].

End Cases.

(** ** A stub library whose cache cleaning fails *)

Module Terrain.

Definition clean_fails_env : Env :=
  mkEnv (fun _ => "0.0") (fun _ => "?") Stub.three_pages Stub.fetch_ok Stub.bounds_ok
        Stub.meta_of Stub.merge_of (fun _ => Done [Byte.x49]) (fun _ a => Done (pixels a))
        (fun _ => Done Stub.unit_box) Stub.clip_ok
        (Fails (Exn "CalledProcessError" "make clean returned non-zero exit status 2")).

(** The first entry of the script's table. *)
Definition lombok_entry : Basemaps.inventory :=
  {| Basemaps.name := "Lombok2018";
     Basemaps.dates := [mk_datetime 2018 8 5; mk_datetime 2018 8 19] |}.

End Terrain.

(** ** Notions used in the statements about the earlier merge script *)

(** The name of the mosaic that [mergeTiff] writes in the folder [name]. *)
Definition merged_name (name suffix : string) : string :=
  MergeMosaics.lower name +:+ "_" +:+ suffix +:+ "_merged.tiff".

(** [f] is as [f0] but at the mosaics that [mergeTiff] writes under
    [path_root] for [suffix]. *)
Definition only_merged (path_root : Path) (suffix : string) (f0 f : FS) : Prop :=
  forall q : fpath,
    (forall name, q <> File (path_root // name // merged_name name suffix)) ->
    f !! q = f0 !! q.

(** ** Notions used in the statements about the conversion *)

(** [f] is as [f0] but at the GeoPackages of the countries of [table]. *)
Definition only_outputs (table : list (string * list (string * string))) (f0 f : FS)
  : Prop :=
  forall q : fpath,
    (forall country, country ∈ map fst table -> q <> File (Conversion.output_gpkg country)) ->
    f !! q = f0 !! q.

(** The library reads every shapefile that is there and writes every layer
    it is given. *)
Definition lib_succeeds (G : Conversion.GeoLib) : Prop :=
  (forall (f : FS) (p : Path),
      is_Some (f !! File p) -> exists x, Conversion.read_file G f p = Done x)
  ∧ (forall old layer x, exists c, Conversion.to_file G old layer x = Done c).

(** The shapefile of a layer, and the line printed when it is missing. *)
Definition shapefile (country shp_file : string) : Path :=
  Conversion.inventories_root // country // shp_file.

Definition missing_line (country shp_file : string) : string :=
  "Missing file: " +:+ path_str (shapefile country shp_file).

Module Shapes.

(** A library that reads a shapefile as its bytes and appends each layer to
    the GeoPackage. *)
Definition lib : Conversion.GeoLib :=
  Conversion.mkGeoLib bytes
    (fun f p =>
       match f !! File p with
       | Some c => Done c
       | None => Fails (Exn "DataSourceError" (path_str p +:+ ": No such file or directory"))
       end)
    (fun old layer x => Done (default [] old ++ x)).

(** A world where only the area of Lombok2018 is there. *)
Definition lombok_area_only : World :=
  set_fs (<[File ["inventories"; "Lombok2018"; "area.shp"] := [Byte.x01]]> ∅) empty_world.

End Shapes.

Module Corrupt.

(** A library that recognises no shapefile. *)
Definition lib : Conversion.GeoLib :=
  Conversion.mkGeoLib bytes
    (fun f p => Fails (Exn "DriverError" (path_str p +:+ " not recognized as a supported file format")))
    (fun old layer x => Done (default [] old ++ x)).

End Corrupt.

(** * Theorems *)

(** ** Month arithmetic *)

Example fmt02_7 : fmt02 7 = "07".
Proof. vm_compute. reflexivity. Qed.

Example fmt02_12 : fmt02 12 = "12".
Proof. vm_compute. reflexivity. Qed.

Lemma previous_of_next (month year : Z) :
  month <> 0 ->
  Basemaps.get_previous_month (Basemaps.get_next_month month year).1
                              (Basemaps.get_next_month month year).2
  = (month, year).
Proof.
  intros Hm. unfold Basemaps.get_next_month, Basemaps.get_previous_month.
  destruct (month =? 12) eqn:H12; simpl.
  - apply Z.eqb_eq in H12. subst. f_equal. lia.
  - destruct (month + 1 =? 1) eqn:H1.
    + apply Z.eqb_eq in H1. lia.
    + f_equal. lia.
Qed.

(** The earlier script computes the same months and renders them as text. *)
Lemma mosaics_months_agree (month year : Z) :
  Mosaics.get_previous_month month year
  = (fmt02 (Basemaps.get_previous_month month year).1,
     pretty (Basemaps.get_previous_month month year).2)
  ∧ Mosaics.get_next_month month year
  = (fmt02 (Basemaps.get_next_month month year).1,
     pretty (Basemaps.get_next_month month year).2).
Proof.
  unfold Mosaics.get_previous_month, Mosaics.get_next_month,
    Basemaps.get_previous_month, Basemaps.get_next_month.
  destruct (month =? 1), (month =? 12); split; reflexivity.
Qed.

(** C8: [get_previous_month] and [get_next_month] return a pair for every
    input (they are functions into [Z * Z], with no error result);
    the previous month of month 1 is month 12 of the year before, of any
    other month the month before in the same year; the next month of month 12
    is month 1 of the year after, of any other month the month after in the
    same year; for a month between 1 and 12 the previous month of the next
    month is the month itself, in the same year;
    [get_previous_month 1 2020 = (12, 2019)], [get_next_month 12 2019 = (1, 2020)];
    and the functions of mosaics_download.py return the same month and year,
    written as text. *)
Theorem month_arithmetic (month year : Z) :
  (month = 1 -> Basemaps.get_previous_month month year = (12, year - 1))
  ∧ (month <> 1 -> Basemaps.get_previous_month month year = (month - 1, year))
  ∧ (month = 12 -> Basemaps.get_next_month month year = (1, year + 1))
  ∧ (month <> 12 -> Basemaps.get_next_month month year = (month + 1, year))
  ∧ (1 <= month <= 12 ->
     Basemaps.get_previous_month (Basemaps.get_next_month month year).1
                                 (Basemaps.get_next_month month year).2
     = (month, year))
  ∧ Basemaps.get_previous_month 1 2020 = (12, 2019)
  ∧ Basemaps.get_next_month 12 2019 = (1, 2020)
  ∧ Mosaics.get_previous_month month year
    = (fmt02 (Basemaps.get_previous_month month year).1,
       pretty (Basemaps.get_previous_month month year).2)
  ∧ Mosaics.get_next_month month year
    = (fmt02 (Basemaps.get_next_month month year).1,
       pretty (Basemaps.get_next_month month year).2).
Proof.
  split; [| split; [| split; [| split; [| split; [| split; [| split]]]]]].
  - intros ->. reflexivity.
  - intros H. unfold Basemaps.get_previous_month.
    destruct (month =? 1) eqn:E; [apply Z.eqb_eq in E; lia | reflexivity].
  - intros ->. reflexivity.
  - intros H. unfold Basemaps.get_next_month.
    destruct (month =? 12) eqn:E; [apply Z.eqb_eq in E; lia | reflexivity].
  - intros H. apply previous_of_next. lia.
  - reflexivity.
  - reflexivity.
  - apply mosaics_months_agree.
Qed.

Lemma month_arithmetic_witness :
  Basemaps.get_previous_month 1 2020 = (12, 2020 - 1)
  ∧ Basemaps.get_previous_month 8 2018 = (8 - 1, 2018)
  ∧ Basemaps.get_next_month 12 2019 = (1, 2019 + 1)
  ∧ Basemaps.get_next_month 8 2018 = (8 + 1, 2018)
  ∧ Basemaps.get_previous_month (Basemaps.get_next_month 12 2019).1
                                (Basemaps.get_next_month 12 2019).2 = (12, 2019).
Proof.
  split; [apply (proj1 (month_arithmetic 1 2020)); reflexivity |].
  split; [apply (proj1 (proj2 (month_arithmetic 8 2018))); lia |].
  split; [apply (proj1 (proj2 (proj2 (month_arithmetic 12 2019)))); reflexivity |].
  split; [apply (proj1 (proj2 (proj2 (proj2 (month_arithmetic 8 2018))))); lia |].
  apply (proj1 (proj2 (proj2 (proj2 (proj2 (month_arithmetic 12 2019)))))); lia.
Defined.

(** ** Window derivation *)

Lemma date_le_trans : Transitive date_le.
Proof. intros a b c. unfold date_le. lia. Qed.

Lemma date_le_refl (d : datetime) : date_le d d.
Proof. unfold date_le. lia. Qed.

(** In an ascending list the first date is the earliest. *)
Lemma sorted_first_earliest (d0 : datetime) (rest : list datetime) :
  Sorted date_le (d0 :: rest) -> forall d, d ∈ d0 :: rest -> date_le d0 d.
Proof.
  intros Hs d Hd. apply Sorted_StronglySorted in Hs; [| apply date_le_trans].
  apply StronglySorted_inv in Hs as [_ Hall].
  apply elem_of_cons in Hd as [-> | Hd]; [apply date_le_refl |].
  rewrite Forall_forall in Hall. by apply Hall.
Qed.

(** In an ascending list the last date is the latest. *)
Lemma sorted_last_latest (l : list datetime) :
  Sorted date_le l -> forall d0 d, d ∈ l -> date_le d (List.last l d0).
Proof.
  intros Hs. apply Sorted_StronglySorted in Hs; [| apply date_le_trans].
  induction Hs as [| a l Hs IH Hall]; intros d0 d Hd.
  - by apply elem_of_nil in Hd.
  - destruct l as [| b l'].
    + apply list_elem_of_singleton in Hd as ->. apply date_le_refl.
    + change (List.last (a :: b :: l') d0) with (List.last (b :: l') d0).
      apply elem_of_cons in Hd as [-> | Hd].
      * apply (date_le_trans _ b).
        -- rewrite Forall_forall in Hall. apply Hall. left.
        -- apply IH. left.
      * by apply IH.
Qed.

Lemma last_elem_of (l : list datetime) (d : datetime) :
  l <> [] -> List.last l d ∈ l.
Proof.
  induction l as [| a l IH]; [congruence |]. intros _.
  destruct l as [| b l]; [left |].
  change (List.last (a :: b :: l) d) with (List.last (b :: l) d).
  right. apply IH. discriminate.
Qed.

Lemma mosaics_windows_agree (el : Mosaics.inventory) (inv : Basemaps.inventory)
    (wins : list (string * Z * Z)) :
  Mosaics.dates el = Basemaps.dates inv ->
  Basemaps.windows inv = Ok wins ->
  Mosaics.windows el = Ok (map render_window wins).
Proof.
  unfold Mosaics.windows, Basemaps.windows. intros ->.
  destruct (Basemaps.dates inv) as [| d0 rest]; [discriminate |].
  pose proof (mosaics_months_agree (month d0) (year d0)) as [Hp _].
  pose proof (mosaics_months_agree (month (List.last (d0 :: rest) d0))
                (year (List.last (d0 :: rest) d0))) as [_ Hn].
  destruct rest as [| d1 rest].
  - simpl in Hn. rewrite Hp, Hn.
    destruct (Basemaps.get_previous_month _ _) as [mb yb].
    destruct (Basemaps.get_next_month _ _) as [ma ya].
    intros [= <-]. reflexivity.
  - rewrite Hp, Hn.
    destruct (Basemaps.get_previous_month _ _) as [mb yb].
    destruct (Basemaps.get_next_month _ _) as [ma ya].
    intros [= <-]. reflexivity.
Qed.

(** C9: for a non-empty ascending list of event dates the windows are the
    month before the month of the earliest date ([pre]) and the month after
    the month of the latest date ([post]); for Lombok2018's dates
    2018-08-05 and 2018-08-19 they are July and September 2018, and for the
    single date 2022-09-19 they are August and October 2022; and
    mosaics_download.py derives the same windows, written as text. *)
Theorem window_derivation :
  (forall (inv : Basemaps.inventory) (d0 : datetime) (rest : list datetime),
      Basemaps.dates inv = d0 :: rest ->
      Sorted date_le (Basemaps.dates inv) ->
      exists earliest latest,
        earliest ∈ Basemaps.dates inv ∧ latest ∈ Basemaps.dates inv
        ∧ (forall d, d ∈ Basemaps.dates inv -> date_le earliest d ∧ date_le d latest)
        ∧ Basemaps.windows inv
          = Ok [("pre",
                 (Basemaps.get_previous_month (month earliest) (year earliest)).2,
                 (Basemaps.get_previous_month (month earliest) (year earliest)).1);
                ("post",
                 (Basemaps.get_next_month (month latest) (year latest)).2,
                 (Basemaps.get_next_month (month latest) (year latest)).1)])
  ∧ Basemaps.windows
      {| Basemaps.name := "Lombok2018";
         Basemaps.dates := [mk_datetime 2018 8 5; mk_datetime 2018 8 19] |}
    = Ok [("pre", 2018, 7); ("post", 2018, 9)]
  ∧ Basemaps.windows
      {| Basemaps.name := "Michoacan2022";
         Basemaps.dates := [mk_datetime 2022 9 19] |}
    = Ok [("pre", 2022, 8); ("post", 2022, 10)]
  ∧ (forall (el : Mosaics.inventory) (inv : Basemaps.inventory) wins,
        Mosaics.dates el = Basemaps.dates inv ->
        Basemaps.windows inv = Ok wins ->
        Mosaics.windows el = Ok (map render_window wins)).
Proof.
  split; [| split; [reflexivity | split; [reflexivity | apply mosaics_windows_agree]]].
  intros inv d0 rest Hd Hs.
  exists d0, (List.last (Basemaps.dates inv) d0). rewrite Hd in Hs |- *.
  split; [left |]. split; [apply last_elem_of; discriminate |]. split.
  - intros d Hin. split.
    + by apply (sorted_first_earliest d0 rest).
    + by apply sorted_last_latest.
  - unfold Basemaps.windows. rewrite Hd.
    destruct (Basemaps.get_previous_month (month d0) (year d0)) as [mb yb].
    destruct (Basemaps.get_next_month _ _) as [ma ya]. reflexivity.
Qed.

Lemma lombok_sorted :
  Sorted date_le [mk_datetime 2018 8 5; mk_datetime 2018 8 19].
Proof.
  apply Sorted_cons; [apply Sorted_cons; [apply Sorted_nil | apply HdRel_nil] |].
  apply HdRel_cons. unfold date_le. simpl. lia.
Defined.

Lemma window_derivation_witness :
  exists earliest latest,
    earliest ∈ [mk_datetime 2018 8 5; mk_datetime 2018 8 19]
    ∧ latest ∈ [mk_datetime 2018 8 5; mk_datetime 2018 8 19]
    ∧ (forall d, d ∈ [mk_datetime 2018 8 5; mk_datetime 2018 8 19] ->
                 date_le earliest d ∧ date_le d latest)
    ∧ Basemaps.windows
        {| Basemaps.name := "Lombok2018";
           Basemaps.dates := [mk_datetime 2018 8 5; mk_datetime 2018 8 19] |}
      = Ok [("pre",
             (Basemaps.get_previous_month (month earliest) (year earliest)).2,
             (Basemaps.get_previous_month (month earliest) (year earliest)).1);
            ("post",
             (Basemaps.get_next_month (month latest) (year latest)).2,
             (Basemaps.get_next_month (month latest) (year latest)).1)].
Proof.
  apply (proj1 window_derivation
           {| Basemaps.name := "Lombok2018";
              Basemaps.dates := [mk_datetime 2018 8 5; mk_datetime 2018 8 19] |}
           (mk_datetime 2018 8 5) [mk_datetime 2018 8 19]).
  - reflexivity.
  - apply lombok_sorted.
Defined.

(** The mosaics the pipeline asks for in the two examples. *)
Example lombok_mosaic_names :
  Basemaps.mosaic_name_of 2018 7 = "global_monthly_2018_07_mosaic"
  ∧ Basemaps.mosaic_name_of 2018 9 = "global_monthly_2018_09_mosaic".
Proof. split; vm_compute; reflexivity. Qed.

(** The earlier script derives the same windows, with the months and years
    rendered as text. *)
Lemma mosaics_windows_examples :
  Mosaics.windows
    {| Mosaics.name := "Lombok2018"; Mosaics.area := [];
       Mosaics.dates := [mk_datetime 2018 8 5; mk_datetime 2018 8 19] |}
  = Ok [("pre", "2018", "07"); ("post", "2018", "09")]
  ∧ Mosaics.windows
      {| Mosaics.name := "Michoacan2022"; Mosaics.area := [];
         Mosaics.dates := [mk_datetime 2022 9 19] |}
    = Ok [("pre", "2022", "08"); ("post", "2022", "10")].
Proof. split; vm_compute; reflexivity. Qed.

(** ** The inventory table of the earlier script *)

(** C10 (the code departs from it): of the four entries of [INVENTORIES] in
    mosaics_download.py only the first two keep their area file under the
    directory of their own name.  The entry named Michoacan2022 points into
    EmiliaRomagna2023 and the entry named EmiliaRomagna2023 points into
    Michoacan2022, against the table of convert_to_geopackage.py. *)
Theorem inventory_areas_swapped :
  map area_under_own_name Mosaics.INVENTORIES = [true; true; false; false]
  ∧ map area_file_matches Mosaics.INVENTORIES = [true; true; false; false]
  ∧ map (fun inv => (Mosaics.name inv, parent_name (Mosaics.area inv),
                     base_name (Mosaics.area inv), Geopackage.area_file (Mosaics.name inv)))
        Mosaics.INVENTORIES
    = [ ("Lombok2018", Some "Lombok2018", Some "area.shp", Some "area.shp");
        ("Philippines2019", Some "Philippines2019", Some "area_study.shp",
         Some "area_study.shp");
        ("Michoacan2022", Some "EmiliaRomagna2023", Some "Area_rev.shp",
         Some "investigated_area_LS_Michoacan2022.shp");
        ("EmiliaRomagna2023", Some "Michoacan2022",
         Some "investigated_area_LS_Michoacan2022.shp", Some "Area_rev.shp") ].
Proof. repeat split; vm_compute; reflexivity. Qed.

(** ** Laws of the monad *)

Lemma bind_ok {A B} (m : M A) (k : A -> M B) (w w' : World) (a : A) :
  m w = (Ok a, w') -> bind m k w = k a w'.
Proof. intros H. unfold bind. by rewrite H. Qed.

Lemma bind_raise {A B} (m : M A) (k : A -> M B) (w w' : World) (e : exn) :
  m w = (Raise e, w') -> bind m k w = (Raise e, w').
Proof. intros H. unfold bind. by rewrite H. Qed.

Lemma bind_ok_inv {A B} (m : M A) (k : A -> M B) (w w' : World) (b : B) :
  bind m k w = (Ok b, w') ->
  exists a w1, m w = (Ok a, w1) ∧ k a w1 = (Ok b, w').
Proof.
  unfold bind. destruct (m w) as [[a | e |] w1]; intros H; try discriminate.
  by exists a, w1.
Qed.

Import Basemaps.

(** ** Merging *)

Section MergeFacts.
Variable E : Env.

Lemma rasterio_write_ok p meta mosaic w w' :
  rasterio_write E p meta mosaic w = (Ok tt, w') ->
  is_Some (fs w' !! File p).
Proof.
  unfold rasterio_write, bind, rasterio_create, dest_write.
  destruct (raster_create E meta); [| discriminate].
  destruct (raster_encode E meta mosaic); [| discriminate].
  intros [= <-]. simpl. rewrite lookup_insert_eq. by eexists.
Qed.

Lemma merge_quads_present folder tag w :
  is_Some (fs w !! File (folder // (tag +:+ "_merged.tif"))) ->
  merge_quads E folder tag w
  = (Ok tt, log_out (tag +:+ "_merged.tif" +:+ " already exists, skipping merge.") w).
Proof.
  intros H. unfold merge_quads, path_exists, bind.
  rewrite bool_decide_eq_true_2 by done. reflexivity.
Qed.

Lemma merge_quads_ok_output folder tag w w' :
  merge_quads E folder tag w = (Ok tt, w') ->
  is_Some (fs w' !! File (folder // (tag +:+ "_merged.tif"))).
Proof.
  destruct (decide (is_Some (fs w !! File (folder // (tag +:+ "_merged.tif"))))) as [Hp | Hp].
  - rewrite merge_quads_present by done. intros [= <-]. exact Hp.
  - unfold merge_quads. intros H.
    apply bind_ok_inv in H as (present & w1 & H1 & H).
    unfold path_exists in H1. injection H1 as <- <-.
    rewrite bool_decide_eq_false_2 in H by done.
    apply bind_ok_inv in H as (files & w2 & _ & H).
    apply bind_ok_inv in H as (srcs & w3 & _ & H).
    apply bind_ok_inv in H as ([mosaic tr] & w4 & _ & H).
    apply bind_ok_inv in H as (first & w5 & _ & H).
    apply bind_ok_inv in H as (height & w6 & _ & H).
    apply bind_ok_inv in H as (width & w7 & _ & H).
    apply bind_ok_inv in H as ([] & w8 & Hw & H).
    apply rasterio_write_ok in Hw.
    unfold print in H. injection H as <-. exact Hw.
Qed.
End MergeFacts.

(** C4, amended to basemaps_download.py: when the merged output of a
    window exists, [merge_quads] only
    prints a line: it opens no raster, writes none, and leaves every file as
    it was; and after a first call that ended normally a second call is such
    a no-op. *)
Theorem merge_idempotent (E : Env) (folder : Path) (tag : string) (w : World) :
  (is_Some (fs w !! File (folder // (tag +:+ "_merged.tif"))) ->
   exists w',
     merge_quads E folder tag w = (Ok tt, w')
     ∧ fs w' = fs w ∧ hist w' = hist w
     ∧ raster_log w' = raster_log w ∧ net w' = net w
     ∧ out w' = out w ++ [tag +:+ "_merged.tif already exists, skipping merge."])
  ∧ (forall w1,
       merge_quads E folder tag w = (Ok tt, w1) ->
       exists w2,
         merge_quads E folder tag w1 = (Ok tt, w2)
         ∧ fs w2 = fs w1 ∧ hist w2 = hist w1
         ∧ raster_log w2 = raster_log w1 ∧ net w2 = net w1).
Proof.
  split.
  - intros H. eexists. split; [by apply merge_quads_present |].
    simpl. repeat split.
  - intros w1 H1. apply merge_quads_ok_output in H1.
    eexists. split; [by apply merge_quads_present |]. done.
Qed.

Lemma map_M_nil {A B} (f : A -> M B) w : map_M f [] w = (Ok [], w).
Proof. reflexivity. Qed.

(** C5 (the code departs from it): with no merged output and no tile file
    in the quad directory, [merge_quads] ends in an exception, the one
    [rasterio]'s merge raises on an empty list or else the [IndexError] of
    [src_files_to_mosaic[0]]; nothing is printed and nothing is written. *)
Theorem merge_empty_directory_raises (E : Env) (folder : Path) (tag : string) (w : World) :
  fs w !! File (folder // (tag +:+ "_merged.tif")) = None ->
  omap (in_dir_tiff (folder // (tag +:+ "_quads"))) (map fst (map_to_list (fs w))) = [] ->
  merge_quads E folder tag w
  = (Raise (match raster_merge E [] with
            | Done _ => Exn "IndexError" "list index out of range"
            | Fails e => e
            end), w).
Proof.
  intros Hout Hglob. unfold merge_quads, path_exists, glob_tiff, bind.
  rewrite bool_decide_eq_false_2 by (rewrite Hout; by intros [? ?]).
  rewrite Hglob. simpl.
  unfold call, lift. destruct (raster_merge E []) as [[mosaic tr] | e]; reflexivity.
Qed.

Section OpenFacts.
Variable E : Env.

Lemma rasterio_open_frame fp w r w' :
  rasterio_open E fp w = (r, w') ->
  r <> OutOfFuel ∧ fs w' = fs w ∧ hist w' = hist w ∧ out w' = out w.
Proof.
  unfold rasterio_open. destruct (fs w !! File fp) as [c |].
  - destruct (raster_meta E c); by intros [= <- <-].
  - by intros [= <- <-].
Qed.

Lemma open_all_frame files w r w' :
  map_M (rasterio_open E) files w = (r, w') ->
  fs w' = fs w ∧ hist w' = hist w ∧ out w' = out w.
Proof.
  revert w r w'. induction files as [| fp files IH]; intros w r w'.
  - by intros [= <- <-].
  - simpl. unfold bind at 1.
    destruct (rasterio_open E fp w) as [r1 w1] eqn:Hopen.
    apply rasterio_open_frame in Hopen as (_ & Hf & Hh & Ho).
    destruct r1 as [d | e |]; [| intros [= <- <-]; done ..].
    unfold bind. destruct (map_M (rasterio_open E) files w1) as [r2 w2] eqn:Hrest.
    apply IH in Hrest as (Hf' & Hh' & Ho').
    destruct r2; intros [= <- <-]; simpl; repeat split; congruence.
Qed.

Lemma open_all_unreadable files w fp c e0 :
  fp ∈ files -> fs w !! File fp = Some c -> raster_meta E c = Fails e0 ->
  exists e w', map_M (rasterio_open E) files w = (Raise e, w').
Proof.
  revert w. induction files as [| fp' files IH]; intros w Hin Hc He.
  - by apply elem_of_nil in Hin.
  - simpl. unfold bind at 1.
    destruct (rasterio_open E fp' w) as [r1 w1] eqn:Hopen.
    pose proof Hopen as Hopen'.
    apply rasterio_open_frame in Hopen as (Hnf & Hf & _).
    destruct r1 as [d | e |]; [| by eexists _, _ | done].
    apply elem_of_cons in Hin as [-> | Hin].
    + unfold rasterio_open in Hopen'. rewrite Hc, He in Hopen'. discriminate.
    + destruct (IH w1 Hin) as (e & w2 & Hr); [by rewrite Hf | done |].
      unfold bind. rewrite Hr. by eexists _, _.
Qed.

(** When a tile of the window cannot be opened, the merge ends in an
    exception and has written nothing: no file is at the output path. *)
Lemma merge_unreadable_tile folder tag w fp c e0 :
  fs w !! File (folder // (tag +:+ "_merged.tif")) = None ->
  fp ∈ omap (in_dir_tiff (folder // (tag +:+ "_quads"))) (map fst (map_to_list (fs w))) ->
  fs w !! File fp = Some c ->
  raster_meta E c = Fails e0 ->
  exists e w',
    merge_quads E folder tag w = (Raise e, w')
    ∧ fs w' = fs w ∧ hist w' = hist w ∧ out w' = out w
    ∧ fs w' !! File (folder // (tag +:+ "_merged.tif")) = None.
Proof.
  intros Hout Hin Hc He.
  destruct (open_all_unreadable _ w fp c e0 Hin Hc He) as (e & w' & Hr).
  pose proof (open_all_frame _ _ _ _ Hr) as (Hf & Hh & Ho).
  exists e, w'. repeat split; try done; [| by rewrite Hf].
  unfold merge_quads, path_exists, glob_tiff. unfold bind at 1.
  rewrite bool_decide_eq_false_2 by (rewrite Hout; by intros [? ?]).
  unfold bind at 1. unfold bind at 1. by rewrite Hr.
Qed.
End OpenFacts.

Lemma merge_idempotent_witness :
  (exists w',
     merge_quads Stub.good_env Stub.lombok "pre" Stub.merged_world = (Ok tt, w')
     ∧ fs w' = fs Stub.merged_world ∧ hist w' = hist Stub.merged_world
     ∧ raster_log w' = raster_log Stub.merged_world ∧ net w' = net Stub.merged_world
     ∧ out w' = out Stub.merged_world
                ++ ["pre" +:+ "_merged.tif already exists, skipping merge."])
  ∧ (exists w2,
       merge_quads Stub.good_env Stub.lombok "pre"
         (merge_quads Stub.good_env Stub.lombok "pre" Stub.one_tile_world).2
       = (Ok tt, w2)
       ∧ fs w2 = fs (merge_quads Stub.good_env Stub.lombok "pre" Stub.one_tile_world).2
       ∧ hist w2 = hist (merge_quads Stub.good_env Stub.lombok "pre" Stub.one_tile_world).2
       ∧ raster_log w2
         = raster_log (merge_quads Stub.good_env Stub.lombok "pre" Stub.one_tile_world).2
       ∧ net w2 = net (merge_quads Stub.good_env Stub.lombok "pre" Stub.one_tile_world).2).
Proof.
  split.
  - apply (proj1 (merge_idempotent Stub.good_env Stub.lombok "pre" Stub.merged_world)).
    vm_compute. eexists. reflexivity.
  - apply (proj2 (merge_idempotent Stub.good_env Stub.lombok "pre" Stub.one_tile_world)).
    vm_compute. reflexivity.
Defined.

Lemma merge_empty_directory_raises_witness :
  merge_quads Stub.good_env Stub.lombok "pre" empty_world
  = (Raise (Exn "IndexError" "list index out of range"), empty_world).
Proof.
  apply (merge_empty_directory_raises Stub.good_env Stub.lombok "pre" empty_world).
  - reflexivity.
  - reflexivity.
Defined.

(** The first merge of the witness does read the tile and write the output. *)
Example first_merge_reads_and_writes :
  raster_log (merge_quads Stub.good_env Stub.lombok "pre" Stub.one_tile_world).2
  = [RRead (Stub.lombok // "pre_quads" // "q1_pre.tiff");
     RWrite (Stub.lombok // "pre_merged.tif")].
Proof. vm_compute. reflexivity. Qed.

(** ** Mosaic lookup *)

Lemma for_each_cons_ok {A} (body : A -> M unit) (x : A) (l : list A) (w w' : World) :
  body x w = (Ok tt, w') -> for_each body (x :: l) w = for_each body l w'.
Proof. intros H. simpl. unfold bind. by rewrite H. Qed.

Section Lookup.
Variable E : Env.

Lemma resolve_mosaic_total nm w :
  (exists id, resolve_mosaic E nm w = (Ok (Some id), log_net (lookup_request nm) w))
  ∨ (exists line, resolve_mosaic E nm w = (Ok None, gave_up nm line w)).
Proof.
  unfold resolve_mosaic, try_, bind, session_get, lift, print, ret, gave_up, lookup_request.
  destruct (http E (net w) API_URL _) as [e | r]; [right; by eexists |].
  destruct (raise_for_status r) as [[] | e |] eqn:Hs; [| right; by eexists |].
  2:{ unfold raise_for_status in Hs. repeat case_match; discriminate. }
  destruct (res_json r) as [data | e |] eqn:Hj; [| right; by eexists |].
  2:{ unfold res_json in Hj. repeat case_match; discriminate. }
  destruct (dict_get data "mosaics" (JArr [])) as [mosaics | e |] eqn:Hd; [| right; by eexists |].
  2:{ unfold dict_get in Hd. repeat case_match; discriminate. }
  destruct (truthy mosaics); simpl; [| right; by eexists].
  destruct (getitem0 mosaics) as [first | e |] eqn:H0; [| right; by eexists |].
  2:{ unfold getitem0, not_subscriptable in H0. repeat case_match; discriminate. }
  destruct (getitem first "id") as [id | e |] eqn:Hi; [| right; by eexists |].
  2:{ unfold getitem, not_subscriptable in Hi. repeat case_match; discriminate. }
  left. by eexists.
Qed.
End Lookup.

Section LookupTheorem.
Variable E : Env.

Lemma process_window_skip fuel name bbox_str download_path tag y m w w1 :
  resolve_mosaic E (mosaic_name_of y m) (log_out (banner name tag y m) w) = (Ok None, w1) ->
  process_window E fuel name bbox_str download_path (tag, y, m) w = (Ok tt, w1).
Proof.
  intros H. unfold process_window. unfold bind at 1. unfold print at 1.
  unfold bind at 1. by rewrite H.
Qed.

Ltac lookup_steps :=
  unfold resolve_mosaic, try_, bind, session_get, lift, print, ret, gave_up,
    lookup_request; simpl net.

Lemma resolve_transport nm w e :
  http E (net w) API_URL (Some [("name__is", JStr nm)]) = ConnectionFailed e ->
  resolve_mosaic E nm w = (Ok None, gave_up nm ("Error retrieving mosaic: " +:+ exn_msg e) w).
Proof. intros H. lookup_steps. by rewrite H. Qed.

Lemma resolve_status nm w r e :
  http E (net w) API_URL (Some [("name__is", JStr nm)]) = Reply r ->
  raise_for_status r = Raise e ->
  resolve_mosaic E nm w = (Ok None, gave_up nm ("Error retrieving mosaic: " +:+ exn_msg e) w).
Proof. intros H Hs. lookup_steps. by rewrite H, Hs. Qed.

Lemma resolve_undecodable nm w r e :
  http E (net w) API_URL (Some [("name__is", JStr nm)]) = Reply r ->
  raise_for_status r = Ok tt ->
  body r = inr e ->
  resolve_mosaic E nm w = (Ok None, gave_up nm ("Error retrieving mosaic: " +:+ exn_msg e) w).
Proof. intros H Hs Hb. lookup_steps. unfold res_json. by rewrite H, Hs, Hb. Qed.

Lemma resolve_no_match nm w r data mosaics :
  http E (net w) API_URL (Some [("name__is", JStr nm)]) = Reply r ->
  raise_for_status r = Ok tt ->
  body r = inl data ->
  dict_get data "mosaics" (JArr []) = Ok mosaics ->
  truthy mosaics = false ->
  resolve_mosaic E nm w = (Ok None, gave_up nm ("No mosaics found for '" +:+ nm +:+ "'") w).
Proof. intros H Hs Hb Hd Ht. lookup_steps. unfold res_json. by rewrite H, Hs, Hb, Hd, Ht. Qed.

Lemma resolve_malformed nm w r data e :
  http E (net w) API_URL (Some [("name__is", JStr nm)]) = Reply r ->
  raise_for_status r = Ok tt ->
  body r = inl data ->
  (dict_get data "mosaics" (JArr []) = Raise e
   ∨ exists mosaics,
       dict_get data "mosaics" (JArr []) = Ok mosaics ∧ truthy mosaics = true
       ∧ (getitem0 mosaics = Raise e
          ∨ exists first, getitem0 mosaics = Ok first ∧ getitem first "id" = Raise e)) ->
  resolve_mosaic E nm w = (Ok None, gave_up nm ("Error retrieving mosaic: " +:+ exn_msg e) w).
Proof.
  intros H Hs Hb Hc. lookup_steps. unfold res_json. rewrite H, Hs, Hb.
  destruct Hc as [Hd | (mosaics & Hd & Ht & [H0 | (first & H0 & Hi)])].
  - by rewrite Hd.
  - by rewrite Hd, Ht, H0.
  - by rewrite Hd, Ht, H0, Hi.
Qed.
End LookupTheorem.

(** C7, amended to basemaps_download.py: when the lookup of a window's
    mosaic fails in transport, by its HTTP
    status, in decoding, or matches no mosaic, the window ends there: the
    cause is printed, no exception leaves the window, nothing is listed or
    downloaded for it (the world only gains the request and the printed
    lines), and the loop goes on with the windows that follow. *)
Theorem mosaic_lookup_soft_failure (E : Env) (fuel : nat) (name bbox_str : string)
    (download_path : Path) (tag : string) (y m : Z) (rest : list (string * Z * Z))
    (w : World) :
  let nm := mosaic_name_of y m in
  let answer := http E (net w) API_URL (Some [("name__is", JStr nm)]) in
  let skipped (line : string) :=
    for_each (process_window E fuel name bbox_str download_path) ((tag, y, m) :: rest) w
    = for_each (process_window E fuel name bbox_str download_path) rest
        (gave_up nm line (log_out (banner name tag y m) w)) in
  (forall e, answer = ConnectionFailed e ->
             skipped ("Error retrieving mosaic: " +:+ exn_msg e))
  ∧ (forall r e, answer = Reply r -> raise_for_status r = Raise e ->
                 skipped ("Error retrieving mosaic: " +:+ exn_msg e))
  ∧ (forall r e, answer = Reply r -> raise_for_status r = Ok tt -> body r = inr e ->
                 skipped ("Error retrieving mosaic: " +:+ exn_msg e))
  ∧ (forall r data e,
        answer = Reply r -> raise_for_status r = Ok tt -> body r = inl data ->
        (dict_get data "mosaics" (JArr []) = Raise e
         ∨ exists mosaics,
             dict_get data "mosaics" (JArr []) = Ok mosaics ∧ truthy mosaics = true
             ∧ (getitem0 mosaics = Raise e
                ∨ exists first, getitem0 mosaics = Ok first ∧ getitem first "id" = Raise e)) ->
        skipped ("Error retrieving mosaic: " +:+ exn_msg e))
  ∧ (forall r data mosaics,
        answer = Reply r -> raise_for_status r = Ok tt -> body r = inl data ->
        dict_get data "mosaics" (JArr []) = Ok mosaics -> truthy mosaics = false ->
        skipped ("No mosaics found for '" +:+ nm +:+ "'")).
Proof.
  intros nm answer skipped. subst skipped answer nm.
  repeat split; intros; apply for_each_cons_ok, process_window_skip.
  - by apply resolve_transport.
  - by eapply resolve_status.
  - by eapply resolve_undecodable.
  - by eapply resolve_malformed.
  - by eapply resolve_no_match.
Qed.

(** ** Tile listing *)

Section Paging.
Variable E : Env.

Lemma quads_loop_step fuel url params acc w r items next :
  truthy url = true ->
  http E (net w) (py_str E url) params = Reply r ->
  page_of r items next ->
  quads_loop E (S fuel) url params acc w
  = quads_loop E fuel next None (acc ++ items) (log_net (NGet (py_str E url) params) w).
Proof.
  intros Ht Hh (Hs & data & page & links & Hj & Hp & Hi & Hl & Hn).
  simpl. rewrite Ht. unfold bind, session_get, lift.
  by rewrite Hh, Hs, Hj, Hp, Hi, Hl, Hn.
Qed.

Lemma quads_loop_stop fuel url params acc w :
  truthy url = false -> quads_loop E fuel url params acc w = (Ok acc, w).
Proof. intros Ht. destruct fuel; simpl; by rewrite Ht. Qed.

Lemma add_requests_log ev evs w :
  add_requests evs (log_net ev w) = add_requests (ev :: evs) w.
Proof. unfold add_requests, log_net. simpl. by rewrite <- app_assoc. Qed.

Lemma quads_loop_serves url params pages :
  serves E url params pages ->
  forall fuel acc w,
    truthy url = true ->
    (length pages <= fuel)%nat ->
    quads_loop E fuel url params acc w
    = (Ok (acc ++ concat (map fst pages)), add_requests (page_requests E url params pages) w).
Proof.
  induction 1 as [url params r items next Hh Hp Hn
                 | url params r items next rest Hh Hp Hn Hrest IH];
    intros fuel acc w Ht Hfuel.
  - destruct fuel as [| fuel]; [simpl in Hfuel; lia |].
    rewrite (quads_loop_step _ _ _ _ _ r items next) by done.
    rewrite quads_loop_stop by done. simpl. rewrite app_nil_r. reflexivity.
  - destruct fuel as [| fuel]; [simpl in Hfuel; lia |].
    rewrite (quads_loop_step _ _ _ _ _ r items next) by done.
    rewrite IH by (done || simpl in Hfuel; lia).
    simpl. rewrite <- app_assoc. by rewrite add_requests_log.
Qed.

Lemma page_requests_shape url params pages :
  pages <> [] ->
  page_requests E url params pages
  = NGet (py_str E url) params
      :: map (fun p => NGet (py_str E p.2) None) (removelast pages).
Proof.
  revert url params. induction pages as [| [items next] rest IH]; intros url params Hne;
    [done |].
  destruct rest as [| p rest]; [reflexivity |].
  change (removelast ((items, next) :: p :: rest))
    with ((items, next) :: removelast (p :: rest)).
  change (page_requests E url params ((items, next) :: p :: rest))
    with (NGet (py_str E url) params :: page_requests E next None (p :: rest)).
  rewrite IH by done. reflexivity.
Qed.

Lemma serves_nonempty url params pages : serves E url params pages -> pages <> [].
Proof. by destruct 1. Qed.
End Paging.

Lemma list_quads_serves (E : Env) fuel mosaic_id bbox_str tag pages w :
  serves E (JStr (API_URL +:+ "/" +:+ py_str E mosaic_id +:+ "/quads"))
         (Some [("bbox", JStr bbox_str); ("minimal", JBool true)]) pages ->
  (length pages <= fuel)%nat ->
  list_quads E fuel mosaic_id bbox_str tag w
  = let w1 := add_requests
                (page_requests E (JStr (API_URL +:+ "/" +:+ py_str E mosaic_id +:+ "/quads"))
                   (Some [("bbox", JStr bbox_str); ("minimal", JBool true)]) pages) w in
    match concat (map fst pages) with
    | [] => (Ok None, log_out ("No quads found for " +:+ tag) w1)
    | items => (Ok (Some items), w1)
    end.
Proof.
  intros Hs Hfuel. unfold list_quads, try_, bind.
  rewrite (quads_loop_serves E _ _ _ Hs) by done. simpl app.
  by destruct (concat (map fst pages)).
Qed.

Lemma length_removelast_cons {A} (p : A) (l : list A) :
  S (length (removelast (p :: l))) = length (p :: l).
Proof.
  revert p. induction l as [| q l IH]; intros p; [done |].
  change (removelast (p :: q :: l)) with (p :: removelast (q :: l)).
  simpl. f_equal. apply IH.
Qed.

(** C1, amended to basemaps_download.py: when the catalog serves the tiles
    of a mosaic in pages linked by [_next], [list_quads] sends the bounding box and [minimal] with the first
    request only, follows each page's link with a request that carries no
    parameters until a page has none, issues exactly one request per page,
    and returns the items of all pages in order. *)
Theorem paginated_listing (E : Env) (fuel : nat) (mosaic_id : json) (bbox_str tag : string)
    (pages : list (list json * json)) (w : World) :
  let quads_url := API_URL +:+ "/" +:+ py_str E mosaic_id +:+ "/quads" in
  let params := Some [("bbox", JStr bbox_str); ("minimal", JBool true)] in
  let continuation := map (fun p => NGet (py_str E p.2) None) (removelast pages) in
  serves E (JStr quads_url) params pages ->
  (length pages <= fuel)%nat ->
  exists w',
    list_quads E fuel mosaic_id bbox_str tag w
    = (Ok (match concat (map fst pages) with
           | [] => None
           | items => Some items
           end), w')
    ∧ net w' = net w ++ NGet quads_url params :: continuation
    ∧ length (NGet quads_url params :: continuation) = length pages
    ∧ fs w' = fs w ∧ hist w' = hist w.
Proof.
  intros quads_url params continuation Hs Hfuel.
  rewrite (list_quads_serves E _ _ _ _ _ _ Hs Hfuel).
  rewrite (page_requests_shape E) by (by eapply serves_nonempty).
  change (py_str E (JStr quads_url)) with quads_url. fold continuation.
  assert (length (NGet quads_url params :: continuation) = length pages) as Hlen.
  { subst continuation. simpl. rewrite length_map.
    pose proof (serves_nonempty E _ _ _ Hs) as Hne.
    destruct pages as [| p pages]; [done |]. apply length_removelast_cons. }
  destruct (concat (map fst pages)) as [| x items]; eexists; (split; [reflexivity |]);
    simpl; repeat split; done.
Qed.

(** ** Tile download *)

Section Tiles.
Variable E : Env.

Lemma touches_only_refl dest f : touches_only dest f f.
Proof. by intros q _. Qed.

Lemma touches_only_trans dest f0 f1 f2 :
  touches_only dest f0 f1 -> touches_only dest f1 f2 -> touches_only dest f0 f2.
Proof. intros H1 H2 q Hq. rewrite H2, H1; done. Qed.

Lemma touches_only_insert dest f c : touches_only dest f (<[dest := c]> f).
Proof. intros q Hq. by rewrite lookup_insert_ne. Qed.

Lemma write_blocks_spec dest blocks w old :
  fs w !! dest = Some old ->
  fs (write_blocks dest blocks w) !! dest = Some (old ++ concat blocks)
  ∧ touches_only dest (fs w) (fs (write_blocks dest blocks w))
  ∧ (exists new, hist (write_blocks dest blocks w) = hist w ++ new
                 ∧ Forall (touches_only dest (fs w)) new)
  ∧ net (write_blocks dest blocks w) = net w
  ∧ out (write_blocks dest blocks w) = out w
  ∧ next_tmp (write_blocks dest blocks w) = next_tmp w
  ∧ raster_log (write_blocks dest blocks w) = raster_log w.
Proof.
  revert w old. induction blocks as [| b blocks IH]; intros w old Hold.
  - simpl. rewrite app_nil_r.
    split; [done |]. split; [apply touches_only_refl |].
    split; [exists []; by rewrite app_nil_r | done].
  - simpl. rewrite Hold. simpl.
    set (w1 := set_fs (<[dest := old ++ b]> (fs w)) w).
    destruct (IH w1 (old ++ b)) as (Hc & Ht & (new & Hh & Hall) & Hn & Ho & Hx & Hr).
    { subst w1. simpl. apply lookup_insert_eq. }
    assert (touches_only dest (fs w) (fs w1)) as H01
      by (subst w1; simpl; apply touches_only_insert).
    split; [by rewrite Hc, <- app_assoc |].
    split; [by eapply touches_only_trans |].
    split; [| done].
    exists (fs w1 :: new). split.
    + rewrite Hh. subst w1. simpl. by rewrite <- app_assoc.
    + constructor; [done |]. eapply Forall_impl; [exact Hall |].
      intros f Hf. by eapply touches_only_trans.
Qed.

Lemma download_quad_cases output_dir tag quad id link w :
  quad_fields quad id link ->
  download_quad E output_dir tag quad w
  = let filename := quad_filename E output_dir tag id in
    if bool_decide (is_Some (fs w !! File filename)) then (Ok tt, w)
    else
      let tmp := TmpFile (next_tmp w) in
      let w1 := log_net (NRetrieve link) (set_fs (<[tmp := []]> (fs w)) (bump_tmp w)) in
      match fetch E (net w) link with
      | Refused e => (Ok tt, cleanup tmp (log_out (failure_line filename e) w1))
      | Received blocks failure =>
          let w2 := write_blocks tmp blocks (set_fs (<[tmp := []]> (fs w1)) w1) in
          match failure with
          | Some e => (Ok tt, cleanup tmp (log_out (failure_line filename e) w2))
          | None =>
              (Ok tt, set_fs (<[File filename := concat blocks]> (delete tmp (fs w2))) w2)
          end
      end.
Proof.
  intros (links & Hl & Hd & Hi). unfold download_quad.
  unfold bind at 1. unfold lift at 1. rewrite Hl.
  unfold bind at 1. unfold lift at 1. rewrite Hd.
  unfold bind at 1. unfold lift at 1. rewrite Hi.
  unfold bind at 1. unfold path_exists at 1. cbv zeta.
  destruct (bool_decide (is_Some (fs w !! File (quad_filename E output_dir tag id))));
    [reflexivity |].
  cbn [negb]. unfold bind at 1. unfold NamedTemporaryFile at 1.
  unfold try_, urlretrieve. unfold bind at 1. simpl net.
  set (tmp := TmpFile (next_tmp w)).
  set (w1 := log_net (NRetrieve link) (set_fs (<[tmp := []]> (fs w)) (bump_tmp w))).
  destruct (fetch E (net w) link) as [e | blocks failure].
  - unfold bind, print, path_exists. simpl.
    rewrite bool_decide_eq_true_2; [reflexivity |].
    rewrite lookup_insert_eq. by eexists.
  - set (w0 := set_fs (<[tmp := []]> (fs w1)) w1).
    destruct (write_blocks_spec tmp blocks w0 []) as (Hc & _).
    { subst w0. simpl. apply lookup_insert_eq. }
    simpl in Hc. fold w0.
    destruct failure as [e |].
    + unfold bind, print, path_exists. simpl.
      rewrite bool_decide_eq_true_2; [reflexivity |]. eexists. exact Hc.
    + unfold shutil_move.
      destruct (fs (write_blocks tmp blocks w0) !! tmp) as [c |] eqn:Hc';
        [| discriminate Hc].
      by injection Hc as ->.
Qed.

Lemma getitem_not_out_of_fuel v k : getitem v k <> OutOfFuel.
Proof. unfold getitem, not_subscriptable. repeat case_match; discriminate. Qed.

Lemma download_quad_malformed output_dir tag quad w :
  (exists id link, quad_fields quad id link)
  ∨ (exists e, download_quad E output_dir tag quad w = (Raise e, w)).
Proof.
  unfold download_quad, quad_fields.
  unfold bind at 1. unfold lift at 1.
  pose proof (getitem_not_out_of_fuel quad "_links") as Hl'.
  destruct (getitem quad "_links") as [links | e |] eqn:Hl; [| right; by exists e | done].
  unfold bind at 1. unfold lift at 1.
  pose proof (getitem_not_out_of_fuel links "download") as Hd'.
  destruct (getitem links "download") as [link | e |] eqn:Hd; [| right; by exists e | done].
  unfold bind at 1. unfold lift at 1.
  pose proof (getitem_not_out_of_fuel quad "id") as Hi'.
  destruct (getitem quad "id") as [id | e |] eqn:Hi; [| right; by exists e | done].
  left. exists id, link, links. done.
Qed.

(** The state before the blocks arrive and after the last one is written. *)
Lemma tile_transfer_state link blocks w :
  let tmp := TmpFile (next_tmp w) in
  let w1 := log_net (NRetrieve link) (set_fs (<[tmp := []]> (fs w)) (bump_tmp w)) in
  let w2 := write_blocks tmp blocks (set_fs (<[tmp := []]> (fs w1)) w1) in
  fs w2 !! tmp = Some (concat blocks)
  ∧ touches_only tmp (fs w) (fs w2)
  ∧ (exists new, hist w2 = hist w ++ new ∧ Forall (touches_only tmp (fs w)) new).
Proof.
  intros tmp w1 w2.
  set (w0 := set_fs (<[tmp := []]> (fs w1)) w1).
  assert (touches_only tmp (fs w) (fs w1)) as H1
    by (subst w1; simpl; apply touches_only_insert).
  assert (touches_only tmp (fs w) (fs w0)) as H0.
  { eapply touches_only_trans; [exact H1 |]. subst w0. simpl. apply touches_only_insert. }
  destruct (write_blocks_spec tmp blocks w0 []) as (Hc & Ht & (new & Hh & Hall) & _).
  { subst w0. simpl. apply lookup_insert_eq. }
  split; [exact Hc |]. split; [by eapply touches_only_trans |].
  exists (fs w1 :: fs w0 :: new). split.
  - subst w2. fold w0. rewrite Hh. subst w0 w1. simpl. by rewrite <- !app_assoc.
  - constructor; [done |]. constructor; [done |].
    eapply Forall_impl; [exact Hall |]. intros f Hf. by eapply touches_only_trans.
Qed.

Lemma touches_tmp_never_partial output_dir tag items n f0 f :
  touches_only (TmpFile n) f0 f -> never_partial E output_dir tag items f0 f.
Proof. intros H p. left. by apply H. Qed.

Lemma never_partial_refl output_dir tag items f :
  never_partial E output_dir tag items f f.
Proof. intros p. by left. Qed.

Lemma never_partial_trans output_dir tag items f0 f1 f2 :
  never_partial E output_dir tag items f0 f1 ->
  never_partial E output_dir tag items f1 f2 ->
  never_partial E output_dir tag items f0 f2.
Proof.
  intros H1 H2 p. destruct (H2 p) as [Heq | Hd]; [| by right].
  rewrite Heq. apply H1.
Qed.

(** What one tile does to the files, whatever its entry and its transfer. *)
Lemma download_quad_effect output_dir tag items quad w r w' :
  quad ∈ items ->
  download_quad E output_dir tag quad w = (r, w') ->
  r <> OutOfFuel
  ∧ never_partial E output_dir tag items (fs w) (fs w')
  ∧ (exists new, hist w' = hist w ++ new
                 ∧ Forall (never_partial E output_dir tag items (fs w)) new)
  ∧ (forall n, fs w !! TmpFile n = None -> fs w' !! TmpFile n = None).
Proof.
  intros Hin Hrun.
  destruct (download_quad_malformed output_dir tag quad w) as [(id & link & Hq) | [e He]].
  2:{ rewrite He in Hrun. injection Hrun as <- <-.
      split; [done |]. split; [apply never_partial_refl |].
      split; [exists []; by rewrite app_nil_r | done]. }
  rewrite (download_quad_cases _ _ _ _ _ _ Hq) in Hrun. cbv zeta in Hrun.
  destruct (bool_decide _) eqn:Hpresent.
  { injection Hrun as <- <-.
    split; [done |]. split; [apply never_partial_refl |].
    split; [exists []; by rewrite app_nil_r | done]. }
  set (tmp := TmpFile (next_tmp w)) in *.
  set (w1 := log_net (NRetrieve link) (set_fs (<[tmp := []]> (fs w)) (bump_tmp w))) in *.
  assert (forall f, touches_only tmp (fs w) f ->
                    touches_only tmp (fs w) (delete tmp f)) as Hdel.
  { intros f Hf q Hne. rewrite lookup_delete_ne by done. by apply Hf. }
  assert (forall f n, touches_only tmp (fs w) f -> fs w !! TmpFile n = None ->
                      delete tmp f !! TmpFile n = None) as Htmp.
  { intros f n Hf Hn. destruct (decide (TmpFile n = tmp)) as [-> | Hne].
    - apply lookup_delete_eq.
    - rewrite lookup_delete_ne by done. rewrite Hf; done. }
  destruct (fetch E (net w) link) as [e | blocks failure] eqn:Hfetch.
  - injection Hrun as <- <-. simpl.
    assert (touches_only tmp (fs w) (<[tmp := []]> (fs w))) as H1
      by apply touches_only_insert.
    split; [done |]. split; [eapply touches_tmp_never_partial, Hdel, H1 |].
    split.
    + exists [<[tmp := []]> (fs w); delete tmp (<[tmp := []]> (fs w))].
      split; [by rewrite <- app_assoc |].
      constructor; [eapply touches_tmp_never_partial, H1 |].
      constructor; [eapply touches_tmp_never_partial, Hdel, H1 | constructor].
    + intros n Hn. by apply Htmp.
  - destruct (tile_transfer_state link blocks w) as (Hc & Ht & (new & Hh & Hall)).
    fold tmp in Hc, Ht, Hh, Hall. fold w1 in Hc, Ht, Hh.
    set (w2 := write_blocks tmp blocks (set_fs (<[tmp := []]> (fs w1)) w1)) in *.
    assert (Forall (never_partial E output_dir tag items (fs w)) new) as Hall'.
    { eapply Forall_impl; [exact Hall |]. intros f Hf.
      by eapply touches_tmp_never_partial. }
    destruct failure as [e |]; injection Hrun as <- <-; simpl.
    + split; [done |]. split; [eapply touches_tmp_never_partial, Hdel, Ht |].
      split.
      * exists (new ++ [delete tmp (fs w2)]). split; [by rewrite Hh, <- app_assoc |].
        apply Forall_app. split; [done |].
        constructor; [eapply touches_tmp_never_partial, Hdel, Ht | constructor].
      * intros n Hn. by apply Htmp.
    + assert (never_partial E output_dir tag items (fs w)
                (<[File (quad_filename E output_dir tag id) := concat blocks]>
                   (delete tmp (fs w2)))) as Hfinal.
      { intros p. destruct (decide (p = quad_filename E output_dir tag id)) as [-> | Hne].
        - right. exists (concat blocks). split; [apply lookup_insert_eq |].
          exists quad, id, link, (net w), blocks. done.
        - left. rewrite lookup_insert_ne by congruence.
          rewrite lookup_delete_ne by done. by apply Ht. }
      split; [done |]. split; [exact Hfinal |]. split.
      * eexists (new ++ [_]). split; [by rewrite Hh, <- app_assoc |].
        apply Forall_app. split; [done |]. constructor; [exact Hfinal | constructor].
      * intros n Hn. rewrite lookup_insert_ne by done. by apply Htmp.
Qed.

Lemma download_quads_effect output_dir tag items l :
  l ⊆ items ->
  forall w r w',
    for_each (download_quad E output_dir tag) l w = (r, w') ->
    r <> OutOfFuel
    ∧ never_partial E output_dir tag items (fs w) (fs w')
    ∧ (exists new, hist w' = hist w ++ new
                   ∧ Forall (never_partial E output_dir tag items (fs w)) new)
    ∧ (forall n, fs w !! TmpFile n = None -> fs w' !! TmpFile n = None).
Proof.
  induction l as [| q l IH]; intros Hsub w r w'.
  - intros [= <- <-]. split; [done |]. split; [apply never_partial_refl |].
    split; [exists []; by rewrite app_nil_r | done].
  - simpl. unfold bind at 1.
    destruct (download_quad E output_dir tag q w) as [r1 w1] eqn:H1.
    apply (download_quad_effect output_dir tag items) in H1
      as (Hnf & Hnp & (new1 & Hh1 & Hall1) & Htmp1); [| apply Hsub; left].
    destruct r1 as [[] | e |]; [| intros [= <- <-]; by eauto 10 | done].
    intros H2. apply IH in H2 as (Hnf2 & Hnp2 & (new2 & Hh2 & Hall2) & Htmp2).
    2:{ intros x Hx. apply Hsub. by right. }
    split; [done |]. split; [by eapply never_partial_trans |]. split.
    + exists (new1 ++ new2). split; [by rewrite Hh2, Hh1, <- app_assoc |].
      apply Forall_app. split; [done |].
      eapply Forall_impl; [exact Hall2 |]. intros f Hf.
      by eapply never_partial_trans.
    + intros n Hn. by apply Htmp2, Htmp1.
Qed.

Lemma quad_fields_functional quad id link id' link' :
  quad_fields quad id link -> quad_fields quad id' link' -> id = id' ∧ link = link'.
Proof.
  intros (links & Hl & Hd & Hi) (links' & Hl' & Hd' & Hi'). split; congruence.
Qed.

Lemma download_quad_ok output_dir tag quad id link w :
  quad_fields quad id link ->
  exists w', download_quad E output_dir tag quad w = (Ok tt, w').
Proof.
  intros Hq. rewrite (download_quad_cases _ _ _ _ _ _ Hq). cbv zeta.
  repeat case_match; by eexists.
Qed.

(** A tile whose transfer completes is at its final path afterwards. *)
Lemma download_quad_delivers output_dir tag quad id link w w' blocks :
  quad_fields quad id link ->
  fetch E (net w) link = Received blocks None ->
  download_quad E output_dir tag quad w = (Ok tt, w') ->
  is_Some (fs w' !! File (quad_filename E output_dir tag id))
  ∧ (fs w !! File (quad_filename E output_dir tag id) = None ->
     fs w' !! File (quad_filename E output_dir tag id) = Some (concat blocks)).
Proof.
  intros Hq Hf. rewrite (download_quad_cases _ _ _ _ _ _ Hq). cbv zeta.
  rewrite Hf. destruct (bool_decide _) eqn:Hp.
  - intros [= <-]. apply bool_decide_eq_true_1 in Hp. split; [done |].
    intros Hn. rewrite Hn in Hp. by destruct Hp.
  - intros [= <-]. simpl. split; [eexists |]; [| intros _]; apply lookup_insert_eq.
Qed.

(** A tile whose transfer fails leaves its final path as it was. *)
Lemma download_quad_failure output_dir tag quad id link w w' :
  quad_fields quad id link ->
  match fetch E (net w) link with Received _ None => False | _ => True end ->
  download_quad E output_dir tag quad w = (Ok tt, w') ->
  forall p, fs w' !! File p = fs w !! File p.
Proof.
  intros Hq Hf. rewrite (download_quad_cases _ _ _ _ _ _ Hq). cbv zeta.
  destruct (bool_decide _); [by intros [= <-] |].
  destruct (fetch E (net w) link) as [e | blocks [e |]] eqn:Hfetch; [| | done].
  - intros [= <-] p. simpl. rewrite lookup_delete_ne by done.
    by rewrite lookup_insert_ne.
  - destruct (tile_transfer_state link blocks w) as (_ & Ht & _).
    intros [= <-] p. simpl. rewrite lookup_delete_ne by done. by apply Ht.
Qed.

Lemma files_stay output_dir tag items f0 f p :
  never_partial E output_dir tag items f0 f ->
  is_Some (f0 !! File p) -> is_Some (f !! File p).
Proof. intros H Hp. destruct (H p) as [-> | (c & -> & _)]; [done | by eexists]. Qed.

(** The loop over tiles that each either transfer or break. *)
Lemma download_quads_mixed output_dir tag l :
  Forall (fun q => transfers E q ∨ breaks E q) l ->
  forall w,
    exists w',
      for_each (download_quad E output_dir tag) l w = (Ok tt, w')
      ∧ never_partial E output_dir tag l (fs w) (fs w')
      ∧ (forall q id link,
            q ∈ l -> transfers E q -> quad_fields q id link ->
            is_Some (fs w' !! File (quad_filename E output_dir tag id)))
      ∧ (forall n, fs w !! TmpFile n = None -> fs w' !! TmpFile n = None).
Proof.
  intros Hall w.
  assert (exists w', for_each (download_quad E output_dir tag) l w = (Ok tt, w')) as [w' Hrun].
  { clear -Hall. revert w. induction Hall as [| q l Hq _ IH]; intros w; [by eexists |].
    simpl. unfold bind at 1.
    assert (exists id link, quad_fields q id link) as (id & link & Hf).
    { destruct Hq as [(id & link & ? & ? & _) | (id & link & ? & _)]; eauto. }
    destruct (download_quad_ok output_dir tag q id link w Hf) as [w1 ->]. apply IH. }
  exists w'. split; [done |].
  pose proof (download_quads_effect output_dir tag l l (reflexivity _) w _ _ Hrun)
    as (_ & Hnp & _ & Htmp).
  split; [done |]. split; [| done].
  clear Hnp Htmp. revert w Hrun.
  induction Hall as [| q l Hq Hall IH]; intros w Hrun q0 id link Hin Hgood Hf.
  { by apply elem_of_nil in Hin. }
  simpl in Hrun. apply bind_ok_inv in Hrun as ([] & w1 & H1 & Hrest).
  pose proof (download_quads_effect output_dir tag l l (reflexivity _) w1 _ _ Hrest)
    as (_ & Hnp & _).
  apply elem_of_cons in Hin as [-> | Hin]; [| by eapply IH].
  eapply files_stay; [exact Hnp |].
  destruct Hgood as (id' & link' & blocks & Hf' & Hfetch).
  destruct (quad_fields_functional _ _ _ _ _ Hf Hf') as [-> ->].
  by apply (download_quad_delivers output_dir tag q id' link' w w1 blocks).
Qed.
End Tiles.

(** *** The stub catalog of three pages *)

Lemma stub_serves_three_pages :
  serves Stub.good_env
    (JStr (API_URL +:+ "/" +:+ py_str Stub.good_env (JStr "m1") +:+ "/quads"))
    (Some [("bbox", JStr "0.0,0.0,0.0,0.0"); ("minimal", JBool true)])
    Stub.pages.
Proof.
  unfold Stub.pages.
  eapply serves_more;
    [ intros h; reflexivity
    | split; [reflexivity | eexists _, _, _; repeat split; reflexivity]
    | reflexivity | ].
  eapply serves_more;
    [ intros h; reflexivity
    | split; [reflexivity | eexists _, _, _; repeat split; reflexivity]
    | reflexivity | ].
  eapply serves_last;
    [ intros h; reflexivity
    | split; [reflexivity | eexists _, _, _; repeat split; reflexivity]
    | reflexivity ].
Defined.

Lemma paginated_listing_witness :
  exists w',
    list_quads Stub.good_env 3 (JStr "m1") "0.0,0.0,0.0,0.0" "pre" empty_world
    = (Ok (Some [Stub.quad "q1" "dl/q1"; Stub.quad "q2" "dl/q2";
                 Stub.quad "q3" "dl/q3"; Stub.quad "q4" "dl/q4"]), w')
    ∧ net w'
      = [NGet Stub.quads_url
           (Some [("bbox", JStr "0.0,0.0,0.0,0.0"); ("minimal", JBool true)]);
         NGet "next/2" None; NGet "next/3" None]
    ∧ length [NGet Stub.quads_url
                (Some [("bbox", JStr "0.0,0.0,0.0,0.0"); ("minimal", JBool true)]);
              NGet "next/2" None; NGet "next/3" None] = 3%nat
    ∧ fs w' = ∅ ∧ hist w' = [].
Proof.
  apply (paginated_listing Stub.good_env 3 (JStr "m1") "0.0,0.0,0.0,0.0" "pre"
           Stub.pages empty_world).
  - apply stub_serves_three_pages.
  - simpl. lia.
Defined.

Lemma mosaic_lookup_soft_failure_witness :
  for_each (process_window Stub.no_mosaic_env 3 "Lombok2018" "0.0,0.0,0.0,0.0" DOWNLOAD_DIR)
    [("pre", 2018, 7); ("post", 2018, 9)] empty_world
  = for_each (process_window Stub.no_mosaic_env 3 "Lombok2018" "0.0,0.0,0.0,0.0" DOWNLOAD_DIR)
      [("post", 2018, 9)]
      (gave_up (mosaic_name_of 2018 7)
         ("No mosaics found for '" +:+ mosaic_name_of 2018 7 +:+ "'")
         (log_out (banner "Lombok2018" "pre" 2018 7) empty_world))
  ∧ for_each (process_window Stub.unreachable_env 3 "Lombok2018" "0.0,0.0,0.0,0.0"
                DOWNLOAD_DIR)
      [("pre", 2018, 7); ("post", 2018, 9)] empty_world
    = for_each (process_window Stub.unreachable_env 3 "Lombok2018" "0.0,0.0,0.0,0.0"
                  DOWNLOAD_DIR)
        [("post", 2018, 9)]
        (gave_up (mosaic_name_of 2018 7)
           ("Error retrieving mosaic: " +:+ "Max retries exceeded")
           (log_out (banner "Lombok2018" "pre" 2018 7) empty_world)).
Proof.
  split.
  - apply (proj2 (proj2 (proj2 (proj2
             (mosaic_lookup_soft_failure Stub.no_mosaic_env 3 "Lombok2018"
                "0.0,0.0,0.0,0.0" DOWNLOAD_DIR "pre" 2018 7 [("post", 2018, 9)]
                empty_world))))
           (mkResponse 200 "OK" API_URL (inl (JObj [("mosaics", JArr [])])))
           (JObj [("mosaics", JArr [])]) (JArr [])); reflexivity.
  - apply (proj1
             (mosaic_lookup_soft_failure Stub.unreachable_env 3 "Lombok2018"
                "0.0,0.0,0.0,0.0" DOWNLOAD_DIR "pre" 2018 7 [("post", 2018, 9)]
                empty_world)
           (Exn "ConnectionError" "Max retries exceeded")); reflexivity.
Defined.



(** ** The whole run *)

Section Soft.
Variable E : Env.
Hypothesis Hwf : well_formed_catalog E.

Lemma quads_loop_fields fuel :
  forall url params acc w,
    Forall (fun q => exists id link, quad_fields q id link) acc ->
    match quads_loop E fuel url params acc w with
    | (Ok items, _) => Forall (fun q => exists id link, quad_fields q id link) items
    | _ => True
    end.
Proof.
  induction fuel as [| fuel IH]; intros url params acc w Hacc; simpl.
  - destruct (truthy url); simpl; done.
  - destruct (truthy url); [| done].
    unfold bind at 1. unfold session_get.
    destruct (http E (net w) (py_str E url) params) as [e | r] eqn:Hh; [done |].
    unfold bind at 1. unfold lift at 1.
    destruct (raise_for_status r) as [[] | e |]; [| done ..].
    unfold bind at 1. unfold lift at 1.
    destruct (res_json r) as [data | e |] eqn:Hj; [| done ..].
    unfold bind at 1. unfold lift at 1.
    destruct (dict_get data "items" (JArr [])) as [page | e |] eqn:Hp; [| done ..].
    unfold bind at 1. unfold lift at 1.
    destruct (py_iter page) as [more | e |] eqn:Hi; [| done ..].
    unfold bind at 1. unfold lift at 1.
    destruct (dict_get data "_links" (JObj [])) as [links | e |]; [| done ..].
    unfold bind at 1. unfold lift at 1.
    destruct (dict_get links "_next" JNull) as [next | e |]; [| done ..].
    apply IH. apply Forall_app. split; [done |].
    by eapply Hwf.
Qed.

Lemma list_quads_soft fuel mosaic_id bbox_str tag w :
  match list_quads E fuel mosaic_id bbox_str tag w with
  | (Ok (Some items), _) => Forall (fun q => exists id link, quad_fields q id link) items
  | (Raise _, _) => False
  | _ => True
  end.
Proof.
  unfold list_quads, try_. unfold bind at 1.
  pose proof (quads_loop_fields fuel
                (JStr (API_URL +:+ "/" +:+ py_str E mosaic_id +:+ "/quads"))
                (Some [("bbox", JStr bbox_str); ("minimal", JBool true)]) [] w
                (Forall_nil_2 _)) as H.
  destruct (quads_loop E fuel _ _ [] w) as [[items | e |] w1]; [| done ..].
  by destruct items.
Qed.

Lemma download_quads_well_formed output_dir tag items w :
  Forall (fun q => exists id link, quad_fields q id link) items ->
  exists w', for_each (download_quad E output_dir tag) items w = (Ok tt, w').
Proof.
  intros Hall. revert w. induction Hall as [| q l (id & link & Hq) _ IH]; intros w.
  - by eexists.
  - simpl. unfold bind at 1.
    destruct (download_quad_ok E output_dir tag q id link w Hq) as [w1 ->]. apply IH.
Qed.

Lemma process_window_soft fuel name bbox_str download_path win w :
  no_exception (process_window E fuel name bbox_str download_path win w).
Proof.
  destruct win as [[tag y] m]. unfold no_exception, process_window.
  unfold bind at 1. unfold print at 1. unfold bind at 1.
  destruct (resolve_mosaic_total E (mosaic_name_of y m) (log_out (banner name tag y m) w))
    as [[id ->] | [line ->]]; [| done].
  unfold bind at 1.
  pose proof (list_quads_soft fuel id bbox_str tag
                (log_net (lookup_request (mosaic_name_of y m))
                   (log_out (banner name tag y m) w))) as Hl.
  destruct (list_quads E fuel id bbox_str tag _) as [[[items |] | e |] w1]; try done.
  by destruct (download_quads_well_formed
                 (download_path // name // (tag +:+ "_quads")) tag items w1 Hl) as [w2 ->].
Qed.

Lemma for_each_no_exception {A} (body : A -> M unit) (l : list A) w :
  (forall x w, x ∈ l -> no_exception (body x w)) ->
  no_exception (for_each body l w).
Proof.
  revert w. induction l as [| x l IH]; intros w Hbody; [done |].
  simpl. unfold bind.
  pose proof (Hbody x w (list_elem_of_here _ _)) as Hx.
  destruct (body x w) as [[[] | e |] w1]; [| done ..].
  apply IH. intros y w2 Hy. apply Hbody. by right.
Qed.

Lemma process_inventory_soft fuel download_path inv w :
  dates inv <> [] -> area_resolves E inv ->
  no_exception (process_inventory E fuel download_path inv w).
Proof.
  intros Hd [b Hb]. unfold process_inventory.
  unfold bind at 1. unfold lift at 1. unfold windows.
  destruct (dates inv) as [| d0 rest]; [done |].
  destruct (get_previous_month _ _) as [mb yb].
  destruct (get_next_month _ _) as [ma ya].
  unfold bind at 1. unfold shapefile_to_bbox, call, lift. rewrite Hb. simpl of_answer.
  cbv iota beta.
  apply for_each_no_exception. intros win w1 _. apply process_window_soft.
Qed.
End Soft.

Section Ends.
Variable E : Env.
Variable fuel : nat.
Hypothesis Hwf : well_formed_catalog E.
Hypothesis Hends : paging_ends E fuel.

Lemma list_quads_ends mosaic_id bbox_str tag w :
  (list_quads E fuel mosaic_id bbox_str tag w).1 <> OutOfFuel.
Proof.
  unfold list_quads, try_. unfold bind at 1.
  pose proof (Hends (JStr (API_URL +:+ "/" +:+ py_str E mosaic_id +:+ "/quads"))
                (Some [("bbox", JStr bbox_str); ("minimal", JBool true)]) [] w) as H.
  destruct (quads_loop E fuel _ _ [] w) as [[items | e |] w1]; [| done ..].
  by destruct items.
Qed.

Lemma process_window_ends name bbox_str download_path win w :
  exists w', process_window E fuel name bbox_str download_path win w = (Ok tt, w').
Proof.
  destruct win as [[tag y] m]. unfold process_window.
  unfold bind at 1. unfold print at 1. unfold bind at 1.
  destruct (resolve_mosaic_total E (mosaic_name_of y m) (log_out (banner name tag y m) w))
    as [[id ->] | [line ->]]; [| by eexists].
  unfold bind at 1.
  pose proof (list_quads_soft E Hwf fuel id bbox_str tag
                (log_net (lookup_request (mosaic_name_of y m))
                   (log_out (banner name tag y m) w))) as Hl.
  pose proof (list_quads_ends id bbox_str tag
                (log_net (lookup_request (mosaic_name_of y m))
                   (log_out (banner name tag y m) w))) as Hn.
  destruct (list_quads E fuel id bbox_str tag _) as [[[items |] | e |] w1];
    try done; [| by eexists].
  apply (download_quads_well_formed E _ tag items w1 Hl).
Qed.

Lemma for_each_ends {A} (body : A -> M unit) (l : list A) w :
  (forall x w, x ∈ l -> exists w', body x w = (Ok tt, w')) ->
  exists w', for_each body l w = (Ok tt, w').
Proof.
  revert w. induction l as [| x l IH]; intros w Hbody; [by eexists |].
  simpl. unfold bind.
  destruct (Hbody x w (list_elem_of_here _ _)) as [w1 ->].
  apply IH. intros y w2 Hy. apply Hbody. by right.
Qed.

Lemma process_inventory_ends download_path inv w :
  dates inv <> [] -> area_resolves E inv ->
  exists w', process_inventory E fuel download_path inv w = (Ok tt, w').
Proof.
  intros Hd [b Hb]. unfold process_inventory.
  unfold bind at 1. unfold lift at 1. unfold windows.
  destruct (dates inv) as [| d0 rest]; [done |].
  destruct (get_previous_month _ _) as [mb yb].
  destruct (get_next_month _ _) as [ma ya].
  unfold bind at 1. unfold shapefile_to_bbox, call, lift. rewrite Hb. simpl of_answer.
  cbv iota beta.
  apply for_each_ends. intros win w1 _. apply process_window_ends.
Qed.
End Ends.



(** *** Runs on the stub catalogs *)

Lemma stub_tiles_transfer :
  Forall (transfers Stub.good_env) ([Stub.quad "q1" "dl/q1"] ++ [Stub.quad "q3" "dl/q3"]).
Proof.
  constructor; [| constructor; [| constructor]].
  - exists (JStr "q1"), (JStr "dl/q1"), Stub.tile_body.
    split; [eexists; repeat split; reflexivity | intros h; reflexivity].
  - exists (JStr "q3"), (JStr "dl/q3"), Stub.tile_body.
    split; [eexists; repeat split; reflexivity | intros h; reflexivity].
Defined.

Lemma stub_tile_breaks : breaks Stub.good_env (Stub.quad "q2" "dl/q2").
Proof.
  exists (JStr "q2"), (JStr "dl/q2").
  split; [eexists; repeat split; reflexivity | intros h; exact I].
Defined.



(** The files and the printed lines after the loop of the witness: the two
    good tiles in place, the failure reported, no temporary file. *)
Example tiles_after_one_failure :
  map_to_list
    (fs (for_each (download_quad Stub.good_env (Stub.lombok // "pre_quads") "pre")
           Stub.tiles empty_world).2)
  = [ (File ["basemaps"; "Lombok2018"; "pre_quads"; "q3_pre.tiff"],
       [Byte.x49; Byte.x49; Byte.x2a; Byte.x00]);
      (File ["basemaps"; "Lombok2018"; "pre_quads"; "q1_pre.tiff"],
       [Byte.x49; Byte.x49; Byte.x2a; Byte.x00]) ]
  ∧ out (for_each (download_quad Stub.good_env (Stub.lombok // "pre_quads") "pre")
           Stub.tiles empty_world).2
    = ["Download failed for basemaps/Lombok2018/pre_quads/q2_pre.tiff: retrieval incomplete"].
Proof. split; vm_compute; reflexivity. Qed.

Lemma stub_paging_ends : paging_ends Stub.one_page_env 1.
Proof.
  intros url params acc w.
  unfold quads_loop, bind, session_get, lift.
  change (http Stub.one_page_env) with Stub.one_page.
  unfold Stub.one_page, Stub.ok200.
  destruct (truthy url); [| done].
  destruct (String.eqb (py_str Stub.one_page_env url) API_URL); simpl; done.
Defined.

Lemma stub_catalog_well_formed : well_formed_catalog Stub.one_page_env.
Proof.
  intros h url params r data page items Hh Hj Hp Hi.
  change (http Stub.one_page_env h url params) with (Stub.one_page h url params) in Hh.
  unfold Stub.one_page, Stub.ok200 in Hh.
  destruct (String.eqb url API_URL); injection Hh as <-;
    injection Hj as <-; injection Hp as <-; injection Hi as <-;
    repeat constructor; eexists _, _, _; repeat split; reflexivity.
Defined.

Lemma stub_areas_resolve :
  forall inv, inv ∈ INVENTORIES -> dates inv <> [] ∧ area_resolves Stub.one_page_env inv.
Proof.
  intros inv Hin. split; [| eexists; reflexivity].
  unfold INVENTORIES in Hin.
  repeat (apply elem_of_cons in Hin as [-> | Hin]; [discriminate |]).
  by apply elem_of_nil in Hin.
Defined.



(** The soft failure of every mosaic lookup leaves the quad directories
    empty, and the first merge then ends the run. *)
Example run_without_mosaic_crashes :
  (main Stub.no_mosaic_env 3 empty_world).1
  = Raise (Exn "IndexError" "list index out of range")
  ∧ out (main Stub.no_mosaic_env 3 empty_world).2
    = [ "[Lombok2018] Downloading pre-event area for 2018-07";
        "No mosaics found for 'global_monthly_2018_07_mosaic'";
        "[Lombok2018] Downloading post-event area for 2018-09";
        "No mosaics found for 'global_monthly_2018_09_mosaic'";
        "[Philippines2019] Downloading pre-event area for 2019-09";
        "No mosaics found for 'global_monthly_2019_09_mosaic'";
        "[Philippines2019] Downloading post-event area for 2020-01";
        "No mosaics found for 'global_monthly_2020_01_mosaic'";
        "[Michoacan2022] Downloading pre-event area for 2022-08";
        "No mosaics found for 'global_monthly_2022_08_mosaic'";
        "[Michoacan2022] Downloading post-event area for 2022-10";
        "No mosaics found for 'global_monthly_2022_10_mosaic'";
        "[EmiliaRomagna2023] Downloading pre-event area for 2023-04";
        "No mosaics found for 'global_monthly_2023_04_mosaic'";
        "[EmiliaRomagna2023] Downloading post-event area for 2023-06";
        "No mosaics found for 'global_monthly_2023_06_mosaic'" ]
  ∧ fs (main Stub.no_mosaic_env 3 empty_world).2 = ∅.
Proof. repeat split; vm_compute; reflexivity. Qed.

(** ** The earlier download script

    mosaics_download.py has none of the three mechanisms above: the lookup
    request is outside any [try], the listing is a single request, and a tile
    is retrieved straight to its final path with no handler. *)

Lemma mosaics_partial_file_at_final_path (E : Env) (path : Path) (el_name tag : string)
    (i : json) (id : string) (link : json) (blocks : list bytes) (e : exn) (w : World) :
  quad_fields i (JStr id) link ->
  fs w !! File (path // el_name // (id +:+ "_" +:+ tag +:+ ".tiff")) = None ->
  fetch E (net w) link = Received blocks (Some e) ->
  exists w',
    Mosaics.download_item E path el_name tag i w = (Raise e, w')
    ∧ fs w' !! File (path // el_name // (id +:+ "_" +:+ tag +:+ ".tiff"))
      = Some (concat blocks).
Proof.
  intros (links & Hl & Hd & Hi) Habsent Hfetch. unfold Mosaics.download_item.
  unfold bind at 1. unfold lift at 1. rewrite Hl.
  unfold bind at 1. unfold lift at 1. rewrite Hd.
  unfold bind at 1. unfold lift at 1. rewrite Hi.
  unfold bind at 1. unfold lift at 1. simpl py_add_str. cbv iota beta.
  unfold bind at 1. unfold path_exists at 1.
  rewrite bool_decide_eq_false_2 by (rewrite Habsent; by intros [? ?]).
  cbn [negb]. unfold bind, print, urlretrieve. simpl net. rewrite Hfetch.
  eexists. split; [reflexivity |].
  apply (write_blocks_spec (File (path // el_name // (id +:+ "_" +:+ tag +:+ ".tiff")))
           blocks _ []).
  simpl. apply lookup_insert_eq.
Qed.

Lemma mosaics_transport_error_propagates (E : Env) (bbox_str : string) (path : Path)
    (el_name tag y m : string) (e : exn) (w : World) :
  http E (net w) Mosaics.API_URL
    (Some [("name__is", JStr ("global_monthly_" +:+ y +:+ "_" +:+ m +:+ "_mosaic"))])
  = ConnectionFailed e ->
  exists w', Mosaics.process_window E bbox_str path el_name (tag, y, m) w = (Raise e, w').
Proof.
  intros Hh. unfold Mosaics.process_window, bind, print, session_get. simpl net.
  rewrite Hh. by eexists.
Qed.

(** C1 as stated fails on mosaics_download.py: on the catalog whose tiles
    come in three linked pages (four tiles), with every transfer completing,
    the script makes one listing request per window, never follows a
    continuation link, and ends with the two tiles of the first page only. *)
Lemma mosaics_lists_first_page_only :
  (Mosaics.download_basemaps Stub.all_ok_env [Stub.lombok_entry] ["quads"] empty_world).1
  = Ok tt
  ∧ net (Mosaics.download_basemaps Stub.all_ok_env [Stub.lombok_entry] ["quads"]
           empty_world).2
    = [ NGet Mosaics.API_URL (Some [("name__is", JStr "global_monthly_2018_07_mosaic")]);
        NGet Stub.quads_url
          (Some [("bbox", JStr "0.0,0.0,0.0,0.0"); ("minimal", JBool true)]);
        NRetrieve (JStr "dl/q1"); NRetrieve (JStr "dl/q2");
        NGet Mosaics.API_URL (Some [("name__is", JStr "global_monthly_2018_09_mosaic")]);
        NGet Stub.quads_url
          (Some [("bbox", JStr "0.0,0.0,0.0,0.0"); ("minimal", JBool true)]);
        NRetrieve (JStr "dl/q1"); NRetrieve (JStr "dl/q2") ]
  ∧ map fst
      (map_to_list
         (fs (Mosaics.download_basemaps Stub.all_ok_env [Stub.lombok_entry] ["quads"]
                empty_world).2))
    = [ File ["quads"; "Lombok2018"; "q2_post.tiff"];
        File ["quads"; "Lombok2018"; "q1_post.tiff"];
        File ["quads"; "Lombok2018"; "q2_pre.tiff"];
        File ["quads"; "Lombok2018"; "q1_pre.tiff"] ].
Proof. repeat split; vm_compute; reflexivity. Qed.



(** C7 as stated fails on mosaics_download.py: when the catalog cannot be
    reached, the exception of the lookup request ends the run; the second
    window is never looked up. *)
Lemma mosaics_transport_error_aborts :
  (Mosaics.download_basemaps Stub.unreachable_env [Stub.lombok_entry] ["quads"]
     empty_world).1
  = Raise (Exn "ConnectionError" "Max retries exceeded")
  ∧ net (Mosaics.download_basemaps Stub.unreachable_env [Stub.lombok_entry] ["quads"]
           empty_world).2
    = [ NGet Mosaics.API_URL (Some [("name__is", JStr "global_monthly_2018_07_mosaic")]) ]
  ∧ out (Mosaics.download_basemaps Stub.unreachable_env [Stub.lombok_entry] ["quads"]
           empty_world).2
    = ["Looking for mosaic: global_monthly_2018_07_mosaic"].
Proof. repeat split; vm_compute; reflexivity. Qed.

(** ** The earlier merge script

    merge_mosaics.py merges whatever it finds, with no check of the output:
    a second call reads the tiles and writes the mosaic again; and a folder
    with no tile of the suffix ends the call in an exception. *)

(** C4 as stated fails on merge_mosaics.py: a second call of [mergeTiff],
    with the merged output of the first in place, reads the tile and writes
    the output again. *)
Lemma mergeTiff_merges_again :
  (MergeMosaics.mergeTiff Stub.good_env ["quads"] "pre" Stub.quads_world).1 = Ok tt
  ∧ is_Some (fs (MergeMosaics.mergeTiff Stub.good_env ["quads"] "pre" Stub.quads_world).2
               !! File ["quads"; "Lombok2018"; "lombok2018_pre_merged.tiff"])
  ∧ raster_log (MergeMosaics.mergeTiff Stub.good_env ["quads"] "pre" Stub.quads_world).2
    = [ RRead ["quads"; "Lombok2018"; "q1_pre.tiff"];
        RWrite ["quads"; "Lombok2018"; "lombok2018_pre_merged.tiff"] ]
  ∧ raster_log
      (MergeMosaics.mergeTiff Stub.good_env ["quads"] "pre"
         (MergeMosaics.mergeTiff Stub.good_env ["quads"] "pre" Stub.quads_world).2).2
    = [ RRead ["quads"; "Lombok2018"; "q1_pre.tiff"];
        RWrite ["quads"; "Lombok2018"; "lombok2018_pre_merged.tiff"];
        RRead ["quads"; "Lombok2018"; "q1_pre.tiff"];
        RWrite ["quads"; "Lombok2018"; "lombok2018_pre_merged.tiff"] ].
Proof.
  split; [vm_compute; reflexivity |].
  split; [vm_compute; by eexists |].
  split; vm_compute; reflexivity.
Qed.

(** A folder with no tile of the suffix ends [mergeTiff] in an exception,
    as it does [merge_quads]. *)
Example mergeTiff_without_tiles :
  (MergeMosaics.mergeTiff Stub.good_env ["quads"] "post" Stub.quads_world).1
  = Raise (Exn "IndexError" "list index out of range")
  ∧ out (MergeMosaics.mergeTiff Stub.good_env ["quads"] "post" Stub.quads_world).2
    = ["reading: quads/Lombok2018/*_post.tiff"].
Proof. repeat split; vm_compute; reflexivity. Qed.

(** * Further properties *)

(** ** How the files change *)

Lemma bind_cases {A B} (m : M A) (k : A -> M B) (w w' : World) (r : outcome B) :
  bind m k w = (r, w') ->
  (exists a w1, m w = (Ok a, w1) ∧ k a w1 = (r, w'))
  ∨ (exists e, m w = (Raise e, w') ∧ r = Raise e)
  ∨ (m w = (OutOfFuel, w') ∧ r = OutOfFuel).
Proof.
  unfold bind. destruct (m w) as [[a | e |] w1]; intros H.
  - left. by exists a, w1.
  - right. left. injection H as <- <-. by exists e.
  - right. right. by injection H as <- <-.
Qed.

Lemma bind_rel {A B} (P : World -> World -> Prop) (m : M A) (k : A -> M B)
    (w w' : World) (r : outcome B) :
  (forall a b c, P a b -> P b c -> P a c) ->
  (forall r1 w1, m w = (r1, w1) -> P w w1) ->
  (forall a w1 r2 w2, m w = (Ok a, w1) -> k a w1 = (r2, w2) -> P w1 w2) ->
  bind m k w = (r, w') -> P w w'.
Proof.
  intros Htrans Hm Hk H.
  apply bind_cases in H as [(a & w1 & H1 & H2) | [(e & H1 & _) | (H1 & _)]].
  - eapply Htrans; [by eapply Hm | by eapply Hk].
  - by eapply Hm.
  - by eapply Hm.
Qed.

Lemma keeps_refl f : keeps f f.
Proof. by intros p c. Qed.

Lemma keeps_trans f0 f1 f2 : keeps f0 f1 -> keeps f1 f2 -> keeps f0 f2.
Proof. intros H1 H2 p c Hp. by apply H2, H1. Qed.

Lemma touches_tmp_keeps n f0 f : touches_only (TmpFile n) f0 f -> keeps f0 f.
Proof. intros H p c Hp. by rewrite H. Qed.

Lemma touches_new_keeps p f0 f :
  f0 !! File p = None -> touches_only (File p) f0 f -> keeps f0 f.
Proof.
  intros Hn H q c Hq. rewrite H; [done |]. intros [= ->]. congruence.
Qed.

Section Throughout.
Variable R : FS -> FS -> Prop.
Hypothesis R_refl : forall f, R f f.
Hypothesis R_trans : forall a b c, R a b -> R b c -> R a c.

Lemma throughout_same w w' : fs w' = fs w -> hist w' = hist w -> throughout R w w'.
Proof.
  intros Hf Hh. split; [rewrite Hf; apply R_refl |].
  exists []. by rewrite app_nil_r.
Qed.

Lemma throughout_trans w0 w1 w2 :
  throughout R w0 w1 -> throughout R w1 w2 -> throughout R w0 w2.
Proof.
  intros [H1 (n1 & Hh1 & Ha1)] [H2 (n2 & Hh2 & Ha2)].
  split; [by eapply R_trans |].
  exists (n1 ++ n2). split; [by rewrite Hh2, Hh1, <- app_assoc |].
  apply Forall_app. split; [done |].
  eapply Forall_impl; [exact Ha2 |]. intros f Hf. by eapply R_trans.
Qed.

Lemma throughout_set_fs f w : R (fs w) f -> throughout R w (set_fs f w).
Proof.
  intros H. split; [done |]. exists [f]. split; [done |]. by constructor.
Qed.

Lemma for_each_throughout {A} (body : A -> M unit) (l : list A) :
  (forall x w r w', x ∈ l -> body x w = (r, w') -> throughout R w w') ->
  forall w r w', for_each body l w = (r, w') -> throughout R w w'.
Proof.
  induction l as [| x l IH]; intros Hbody w r w'.
  - intros [= <- <-]. by apply throughout_same.
  - simpl. apply bind_rel.
    + apply throughout_trans.
    + intros r1 w1. apply Hbody. left.
    + intros [] w1 r2 w2 _. apply IH. intros y w3 r3 w4 Hy. apply Hbody. by right.
Qed.

End Throughout.

Lemma same_files_refl w : same_files w w.
Proof. done. Qed.

Lemma same_files_trans a b c : same_files a b -> same_files b c -> same_files a c.
Proof. intros [H1 H2] [H3 H4]. split; congruence. Qed.

Lemma lift_same {A} (x : outcome A) w r w' : lift x w = (r, w') -> same_files w w'.
Proof. by intros [= _ <-]. Qed.

Lemma print_same s w r w' : print s w = (r, w') -> same_files w w'.
Proof. by intros [= _ <-]. Qed.

Lemma ret_same {A} (a : A) w r w' : ret a w = (r, w') -> same_files w w'.
Proof. by intros [= _ <-]. Qed.

Lemma path_exists_same p w r w' : path_exists p w = (r, w') -> same_files w w'.
Proof. by intros [= _ <-]. Qed.

Lemma session_get_same E url params w r w' :
  session_get E url params w = (r, w') -> same_files w w'.
Proof. unfold session_get. destruct (http E _ _ _); by intros [= _ <-]. Qed.

Ltac same_bind x :=
  eapply bind_rel; [apply same_files_trans | intros ? ? | intros x ? ? ? _].

Lemma quads_loop_same E fuel :
  forall url params acc w r w',
    quads_loop E fuel url params acc w = (r, w') -> same_files w w'.
Proof.
  induction fuel as [| fuel IH]; intros url params acc w r w'; simpl.
  - destruct (truthy url); [apply lift_same | apply ret_same].
  - destruct (truthy url); [| apply ret_same].
    same_bind res; [apply session_get_same |].
    same_bind ok; [apply lift_same |].
    same_bind data; [apply lift_same |].
    same_bind page; [apply lift_same |].
    same_bind more; [apply lift_same |].
    same_bind links; [apply lift_same |].
    same_bind next; [apply lift_same |].
    apply IH.
Qed.

Lemma try_rel {A} (P : World -> World -> Prop) (body : M A) (handler : exn -> M A)
    (w w' : World) (r : outcome A) :
  (forall a b c, P a b -> P b c -> P a c) ->
  (forall r1 w1, body w = (r1, w1) -> P w w1) ->
  (forall e w1 r2 w2, body w = (Raise e, w1) -> handler e w1 = (r2, w2) -> P w1 w2) ->
  try_ body handler w = (r, w') -> P w w'.
Proof.
  intros Htrans Hb Hh. unfold try_.
  destruct (body w) as [[a | e |] w1] eqn:Hbody; intros H.
  - injection H as <- <-. by eapply Hb.
  - eapply Htrans; [by eapply Hb | by eapply Hh].
  - injection H as <- <-. by eapply Hb.
Qed.

Lemma list_quads_same E fuel mosaic_id bbox_str tag w r w' :
  list_quads E fuel mosaic_id bbox_str tag w = (r, w') -> same_files w w'.
Proof.
  unfold list_quads. apply try_rel; [apply same_files_trans | |].
  - intros r1 w1. same_bind items; [apply quads_loop_same |].
    destruct items; [| apply ret_same].
    same_bind u; [apply print_same | apply ret_same].
  - intros e w1 r2 w2 _. same_bind u; [apply print_same | apply ret_same].
Qed.

Lemma resolve_mosaic_same E nm w r w' :
  resolve_mosaic E nm w = (r, w') -> same_files w w'.
Proof.
  destruct (resolve_mosaic_total E nm w) as [[id ->] | [line ->]]; by intros [= _ <-].
Qed.

(** One tile, whatever its entry and its transfer: no named file that was
    there is changed on the way. *)
Lemma download_quad_keeps E output_dir tag quad w r w' :
  download_quad E output_dir tag quad w = (r, w') -> throughout keeps w w'.
Proof.
  intros Hrun.
  destruct (download_quad_malformed E output_dir tag quad w) as [(id & link & Hq) | [e He]].
  2:{ rewrite He in Hrun. injection Hrun as <- <-.
      by apply throughout_same; [apply keeps_refl | |]. }
  rewrite (download_quad_cases E _ _ _ _ _ _ Hq) in Hrun. cbv zeta in Hrun.
  destruct (bool_decide _) eqn:Hpresent.
  { injection Hrun as <- <-. by apply throughout_same; [apply keeps_refl | |]. }
  apply bool_decide_eq_false_1 in Hpresent.
  set (tmp := TmpFile (next_tmp w)) in *.
  set (w1 := log_net (NRetrieve link) (set_fs (<[tmp := []]> (fs w)) (bump_tmp w))) in *.
  assert (forall f, touches_only tmp (fs w) f ->
                    touches_only tmp (fs w) (delete tmp f)) as Hdel.
  { intros f Hf q Hne. rewrite lookup_delete_ne by done. by apply Hf. }
  destruct (fetch E (net w) link) as [e | blocks failure] eqn:Hfetch.
  - injection Hrun as <- <-. unfold throughout. simpl.
    assert (touches_only tmp (fs w) (<[tmp := []]> (fs w))) as H1
      by apply touches_only_insert.
    split; [eapply touches_tmp_keeps, Hdel, H1 |].
    exists [<[tmp := []]> (fs w); delete tmp (<[tmp := []]> (fs w))].
    split; [simpl; by rewrite <- app_assoc |].
    constructor; [eapply touches_tmp_keeps, H1 |].
    constructor; [eapply touches_tmp_keeps, Hdel, H1 | constructor].
  - destruct (tile_transfer_state link blocks w) as (Hc & Ht & (new & Hh & Hall)).
    fold tmp in Hc, Ht, Hh, Hall. fold w1 in Hc, Ht, Hh.
    set (w2 := write_blocks tmp blocks (set_fs (<[tmp := []]> (fs w1)) w1)) in *.
    assert (Forall (keeps (fs w)) new) as Hall'.
    { eapply Forall_impl; [exact Hall |]. intros f Hf. by eapply touches_tmp_keeps. }
    destruct failure as [e |]; injection Hrun as <- <-; unfold throughout; simpl.
    + split; [eapply touches_tmp_keeps, Hdel, Ht |].
      exists (new ++ [delete tmp (fs w2)]). split; [by rewrite Hh, <- app_assoc |].
      apply Forall_app. split; [done |].
      constructor; [eapply touches_tmp_keeps, Hdel, Ht | constructor].
    + assert (keeps (fs w)
                (<[File (quad_filename E output_dir tag id) := concat blocks]>
                   (delete tmp (fs w2)))) as Hfinal.
      { intros p c Hp.
        assert (p <> quad_filename E output_dir tag id) as Hne
          by (intros ->; apply Hpresent; by eexists).
        rewrite lookup_insert_ne by congruence.
        rewrite lookup_delete_ne by done. by rewrite Ht. }
      split; [exact Hfinal |].
      eexists (new ++ [_]). split; [by rewrite Hh, <- app_assoc |].
      apply Forall_app. split; [done |]. constructor; [exact Hfinal | constructor].
Qed.

Lemma unharmed_trans a b c : unharmed a b -> unharmed b c -> unharmed a c.
Proof.
  intros [H1 T1] [H2 T2]. split.
  - eapply throughout_trans; [apply keeps_trans | exact H1 | exact H2].
  - intros n Hn. by apply T2, T1.
Qed.

Lemma same_unharmed w w' : same_files w w' -> unharmed w w'.
Proof.
  intros [Hf Hh]. split; [by apply throughout_same; [apply keeps_refl | |] |].
  intros n Hn. by rewrite Hf.
Qed.

Lemma for_each_rel {A} (P : World -> World -> Prop) (body : A -> M unit) (l : list A) :
  (forall w, P w w) ->
  (forall a b c, P a b -> P b c -> P a c) ->
  (forall x w r w', x ∈ l -> body x w = (r, w') -> P w w') ->
  forall w r w', for_each body l w = (r, w') -> P w w'.
Proof.
  intros Hrefl Htrans. induction l as [| x l IH]; intros Hbody w r w'.
  - by intros [= <- <-].
  - simpl. apply bind_rel; [done | |].
    + intros r1 w1. apply Hbody. left.
    + intros [] w1 r2 w2 _. apply IH. intros y w3 r3 w4 Hy. apply Hbody. by right.
Qed.

Lemma unharmed_refl w : unharmed w w.
Proof. by apply same_unharmed. Qed.

Lemma download_quad_unharmed E output_dir tag quad w r w' :
  download_quad E output_dir tag quad w = (r, w') -> unharmed w w'.
Proof.
  intros Hrun. split; [by eapply download_quad_keeps |].
  apply (download_quad_effect E output_dir tag [quad]) in Hrun as (_ & _ & _ & Htmp);
    [exact Htmp | left].
Qed.

Ltac unharmed_bind x :=
  eapply bind_rel; [apply unharmed_trans | intros ? ? | intros x ? ? ? _].

Lemma process_window_unharmed E fuel name bbox_str download_path win w r w' :
  process_window E fuel name bbox_str download_path win w = (r, w') -> unharmed w w'.
Proof.
  destruct win as [[tag y] m]. unfold process_window.
  unharmed_bind u; [intros H; eapply same_unharmed, print_same, H |].
  unharmed_bind found; [intros H; eapply same_unharmed, resolve_mosaic_same, H |].
  destruct found as [mosaic_id |]; [| intros H; eapply same_unharmed, ret_same, H].
  unharmed_bind listed; [intros H; eapply same_unharmed, list_quads_same, H |].
  destruct listed as [items |]; [| intros H; eapply same_unharmed, ret_same, H].
  apply for_each_rel; [apply unharmed_refl | apply unharmed_trans |].
  intros ? ? ? ? _. apply download_quad_unharmed.
Qed.

Lemma process_inventory_unharmed E fuel download_path inv w r w' :
  process_inventory E fuel download_path inv w = (r, w') -> unharmed w w'.
Proof.
  unfold process_inventory.
  unharmed_bind wins; [intros H; eapply same_unharmed, lift_same, H |].
  unharmed_bind area_bbox; [intros H; eapply same_unharmed, lift_same, H |].
  apply for_each_rel; [apply unharmed_refl | apply unharmed_trans |].
  intros ? ? ? ? _. apply process_window_unharmed.
Qed.

Lemma download_basemaps_unharmed E fuel inventories download_path w r w' :
  download_basemaps E fuel inventories download_path w = (r, w') -> unharmed w w'.
Proof.
  apply for_each_rel; [apply unharmed_refl | apply unharmed_trans |].
  intros ? ? ? ? _. apply process_inventory_unharmed.
Qed.

(** ** What a merge and the terrain step touch *)

Section Touches.
Variable E : Env.
Variable dest : fpath.

Let T := throughout (touches_only dest).

Lemma T_trans a b c : T a b -> T b c -> T a c.
Proof. apply throughout_trans. apply touches_only_trans. Qed.

Lemma same_T w w' : same_files w w' -> T w w'.
Proof. intros [Hf Hh]. by apply throughout_same; [apply touches_only_refl | |]. Qed.

Lemma T_write c w : T w (set_fs (<[dest := c]> (fs w)) w).
Proof. apply throughout_set_fs, touches_only_insert. Qed.

End Touches.

Lemma open_all_same E files w r w' :
  map_M (rasterio_open E) files w = (r, w') -> same_files w w'.
Proof. intros H. apply open_all_frame in H as (Hf & Hh & _). by split. Qed.

Lemma glob_tiff_same dir w r w' : glob_tiff dir w = (r, w') -> same_files w w'.
Proof. by intros [= _ <-]. Qed.

Lemma rasterio_open_same E fp w r w' :
  rasterio_open E fp w = (r, w') -> same_files w w'.
Proof. intros H. apply rasterio_open_frame in H as (_ & Hf & Hh & _). by split. Qed.

Ltac touches_bind x :=
  eapply bind_rel; [apply T_trans | intros ? ? | intros x ? ? ? _].

Lemma rasterio_create_touches E p meta w r w' :
  rasterio_create E p meta w = (r, w') -> throughout (touches_only (File p)) w w'.
Proof.
  unfold rasterio_create. destruct (raster_create E meta) as [header | e].
  - intros [= _ <-].
    apply (T_trans (File p) w (log_raster (RWrite p) w));
      [by apply same_T | apply (T_write (File p) header (log_raster (RWrite p) w))].
  - intros [= _ <-]. by apply same_T.
Qed.

Lemma dest_write_touches E p meta mosaic w r w' :
  dest_write E p meta mosaic w = (r, w') -> throughout (touches_only (File p)) w w'.
Proof.
  unfold dest_write. destruct (raster_encode E meta mosaic) as [c | e].
  - intros [= _ <-]. apply T_write.
  - intros [= _ <-]. by apply same_T.
Qed.

Lemma merge_quads_touches E folder tag w r w' :
  merge_quads E folder tag w = (r, w') ->
  throughout (touches_only (File (folder // (tag +:+ "_merged.tif")))) w w'.
Proof.
  unfold merge_quads.
  touches_bind present; [intros H; eapply same_T, path_exists_same, H |].
  destruct present; [intros H; eapply same_T, print_same, H |].
  touches_bind tiff_files; [intros H; eapply same_T, glob_tiff_same, H |].
  touches_bind srcs; [intros H; eapply same_T, open_all_same, H |].
  touches_bind merged; [intros H; eapply same_T, lift_same, H |].
  destruct merged as [mosaic out_trans].
  touches_bind src0; [intros H; eapply same_T, lift_same, H |].
  touches_bind height; [intros H; eapply same_T, lift_same, H |].
  touches_bind width; [intros H; eapply same_T, lift_same, H |].
  touches_bind u; [| intros H; eapply same_T, print_same, H].
  unfold rasterio_write.
  touches_bind u; [apply rasterio_create_touches | apply dest_write_touches].
Qed.

Lemma download_dtm_touches E inv output_dir w r w' :
  download_dtm E inv output_dir w = (r, w') ->
  throughout (touches_only (File (output_dir // name inv // "dtm.tif"))) w w'.
Proof.
  unfold download_dtm.
  touches_bind present; [intros H; eapply same_T, path_exists_same, H |].
  destruct present; [intros H; eapply same_T, print_same, H |].
  touches_bind bounds.
  { unfold get_bounds_wgs84.
    touches_bind src; [intros H; eapply same_T, rasterio_open_same, H |].
    intros H; eapply same_T, lift_same, H. }
  touches_bind c; [intros H; eapply same_T, lift_same, H |].
  touches_bind u; [intros [= _ <-]; apply T_write |].
  touches_bind u'; [intros H; eapply same_T, lift_same, H |].
  intros H; eapply same_T, print_same, H.
Qed.

Lemma throughout_impl (R R' : FS -> FS -> Prop) w w' :
  (forall f, R (fs w) f -> R' (fs w) f) -> throughout R w w' -> throughout R' w w'.
Proof.
  intros Himp [H (new & Hh & Hall)]. split; [by apply Himp |].
  exists new. split; [done |]. eapply Forall_impl; [exact Hall | exact Himp].
Qed.

Lemma touches_new_unharmed p w w' :
  fs w !! File p = None -> throughout (touches_only (File p)) w w' -> unharmed w w'.
Proof.
  intros Hn Ht. split.
  - eapply throughout_impl; [| exact Ht]. intros f. by apply touches_new_keeps.
  - intros n Hx. destruct Ht as [Ht _]. by rewrite Ht.
Qed.

Lemma not_present_none (f : FS) (p : fpath) :
  bool_decide (is_Some (f !! p)) = false -> f !! p = None.
Proof.
  intros H. apply bool_decide_eq_false_1 in H.
  destruct (f !! p) eqn:Hp; [| done]. exfalso. apply H. by eexists.
Qed.

Lemma merge_quads_unharmed E folder tag w r w' :
  merge_quads E folder tag w = (r, w') -> unharmed w w'.
Proof.
  intros H.
  destruct (bool_decide (is_Some (fs w !! File (folder // (tag +:+ "_merged.tif")))))
    eqn:Hp.
  - apply bool_decide_eq_true_1 in Hp.
    rewrite (merge_quads_present E folder tag w Hp) in H. injection H as _ <-.
    by apply same_unharmed.
  - apply not_present_none in Hp.
    eapply touches_new_unharmed; [exact Hp | by eapply merge_quads_touches].
Qed.

Lemma download_dtm_present E inv output_dir w :
  is_Some (fs w !! File (output_dir // name inv // "dtm.tif")) ->
  download_dtm E inv output_dir w
  = (Ok tt, log_out ("DTM already exists for " +:+ name inv +:+ ", skipping download.") w).
Proof.
  intros H. unfold download_dtm, path_exists, bind.
  rewrite bool_decide_eq_true_2 by done. reflexivity.
Qed.

Lemma download_dtm_unharmed E inv output_dir w r w' :
  download_dtm E inv output_dir w = (r, w') -> unharmed w w'.
Proof.
  intros H.
  destruct (bool_decide (is_Some (fs w !! File (output_dir // name inv // "dtm.tif"))))
    eqn:Hp.
  - apply bool_decide_eq_true_1 in Hp.
    rewrite (download_dtm_present E inv output_dir w Hp) in H. injection H as _ <-.
    by apply same_unharmed.
  - apply not_present_none in Hp.
    eapply touches_new_unharmed; [exact Hp | by eapply download_dtm_touches].
Qed.

Lemma assemble_unharmed E inv w r w' : assemble E inv w = (r, w') -> unharmed w w'.
Proof.
  unfold assemble.
  unharmed_bind u; [| apply download_dtm_unharmed].
  apply for_each_rel; [apply unharmed_refl | apply unharmed_trans |].
  intros ? ? ? ? _. apply merge_quads_unharmed.
Qed.

Lemma main_unharmed E fuel w r w' : main E fuel w = (r, w') -> unharmed w w'.
Proof.
  unfold main.
  unharmed_bind u; [apply download_basemaps_unharmed |].
  apply for_each_rel; [apply unharmed_refl | apply unharmed_trans |].
  intros ? ? ? ? _. apply assemble_unharmed.
Qed.

(** X1: whatever the catalog and the transfers do and however the pass ends,
    [download_basemaps] changes and removes no file that was there when it
    started, in no state the files go through, and leaves no temporary file
    behind. *)
Theorem download_pass_keeps_files (E : Env) (fuel : nat) (inventories : list inventory)
    (download_path : Path) (w : World) :
  throughout keeps w (download_basemaps E fuel inventories download_path w).2
  ∧ no_new_tmp (fs w) (fs (download_basemaps E fuel inventories download_path w).2).
Proof.
  destruct (download_basemaps E fuel inventories download_path w) as [r w'] eqn:Hrun.
  by apply download_basemaps_unharmed in Hrun.
Qed.

(** X2: whatever its outcome, [merge_quads] touches no file but its output
    [<tag>_merged.tif], in no state the files go through: no tile is changed
    or removed and nothing else is created. *)
Theorem merge_touches_output_only (E : Env) (folder : Path) (tag : string) (w : World) :
  throughout (touches_only (File (folder // (tag +:+ "_merged.tif"))))
    w (merge_quads E folder tag w).2.
Proof.
  destruct (merge_quads E folder tag w) as [r w'] eqn:Hrun.
  by apply merge_quads_touches in Hrun.
Qed.


(** ** What a finished run leaves *)

Lemma unharmed_is_Some w w' p :
  unharmed w w' -> is_Some (fs w !! File p) -> is_Some (fs w' !! File p).
Proof. intros [[Hk _] _] [c Hc]. exists c. by apply Hk. Qed.

Lemma download_dtm_ok_output E inv output_dir w w' :
  download_dtm E inv output_dir w = (Ok tt, w') ->
  is_Some (fs w' !! File (output_dir // name inv // "dtm.tif")).
Proof.
  destruct (decide (is_Some (fs w !! File (output_dir // name inv // "dtm.tif"))))
    as [Hp | Hp].
  - rewrite download_dtm_present by done. by intros [= <-].
  - unfold download_dtm. intros H.
    apply bind_ok_inv in H as (present & w1 & H1 & H).
    unfold path_exists in H1. injection H1 as <- <-.
    rewrite bool_decide_eq_false_2 in H by done. cbv iota in H.
    apply bind_ok_inv in H as (bounds & w2 & _ & H).
    apply bind_ok_inv in H as (c & w3 & _ & H).
    apply bind_ok_inv in H as ([] & w4 & Hw & H).
    injection Hw as <-.
    apply bind_ok_inv in H as ([] & w5 & Hc & H).
    apply lift_same in Hc as [Hc _]. apply print_same in H as [H _].
    rewrite H, Hc. simpl. rewrite lookup_insert_eq. by eexists.
Qed.

Lemma assemble_ok_products E inv w w' :
  assemble E inv w = (Ok tt, w') ->
  is_Some (fs w' !! File (DOWNLOAD_DIR // name inv // "pre_merged.tif"))
  ∧ is_Some (fs w' !! File (DOWNLOAD_DIR // name inv // "post_merged.tif"))
  ∧ is_Some (fs w' !! File (DOWNLOAD_DIR // name inv // "dtm.tif")).
Proof.
  unfold assemble. intros H.
  apply bind_ok_inv in H as ([] & w2 & Hm & Hd).
  simpl in Hm.
  apply bind_ok_inv in Hm as ([] & w1 & Hpre & Hm).
  apply bind_ok_inv in Hm as ([] & w1' & Hpost & Hm).
  injection Hm as <-.
  pose proof (merge_quads_ok_output E _ _ _ _ Hpre) as Opre.
  pose proof (merge_quads_ok_output E _ _ _ _ Hpost) as Opost.
  apply merge_quads_unharmed in Hpost.
  pose proof (download_dtm_ok_output E _ _ _ _ Hd) as Odtm.
  apply download_dtm_unharmed in Hd.
  split; [| split; [| done]].
  - by eapply unharmed_is_Some, unharmed_is_Some.
  - by eapply unharmed_is_Some.
Qed.

Lemma assemble_all_products E invs :
  forall w w',
    for_each (assemble E) invs w = (Ok tt, w') ->
    forall inv, inv ∈ invs ->
      is_Some (fs w' !! File (DOWNLOAD_DIR // name inv // "pre_merged.tif"))
      ∧ is_Some (fs w' !! File (DOWNLOAD_DIR // name inv // "post_merged.tif"))
      ∧ is_Some (fs w' !! File (DOWNLOAD_DIR // name inv // "dtm.tif")).
Proof.
  induction invs as [| inv0 invs IH]; intros w w' H inv Hin.
  - by apply elem_of_nil in Hin.
  - simpl in H. apply bind_ok_inv in H as ([] & w1 & H0 & Hrest).
    apply elem_of_cons in Hin as [-> | Hin]; [| by eapply IH].
    apply assemble_ok_products in H0 as (Hpre & Hpost & Hdtm).
    assert (unharmed w1 w') as Hu.
    { revert Hrest. apply for_each_rel; [apply unharmed_refl | apply unharmed_trans |].
      intros ? ? ? ? _. apply assemble_unharmed. }
    repeat split; by eapply unharmed_is_Some.
Qed.

(** X4: when the run of the script ends normally, every inventory of
    [INVENTORIES] has its merged pre-event mosaic, its merged post-event
    mosaic and its terrain model under [basemaps/<name>]. *)
Theorem finished_run_leaves_products (E : Env) (fuel : nat) (w : World)
    (inv : inventory) :
  (main E fuel w).1 = Ok tt ->
  inv ∈ INVENTORIES ->
  is_Some (fs (main E fuel w).2 !! File (DOWNLOAD_DIR // name inv // "pre_merged.tif"))
  ∧ is_Some (fs (main E fuel w).2 !! File (DOWNLOAD_DIR // name inv // "post_merged.tif"))
  ∧ is_Some (fs (main E fuel w).2 !! File (DOWNLOAD_DIR // name inv // "dtm.tif")).
Proof.
  destruct (main E fuel w) as [r w'] eqn:Hrun. simpl. intros -> Hin.
  unfold main in Hrun. apply bind_ok_inv in Hrun as ([] & w1 & _ & Hrun).
  by eapply assemble_all_products.
Qed.

Lemma finished_run_leaves_products_witness :
  is_Some (fs (main Stub.all_ok_env 3 empty_world).2
             !! File (DOWNLOAD_DIR // "Michoacan2022" // "pre_merged.tif"))
  ∧ is_Some (fs (main Stub.all_ok_env 3 empty_world).2
               !! File (DOWNLOAD_DIR // "Michoacan2022" // "post_merged.tif"))
  ∧ is_Some (fs (main Stub.all_ok_env 3 empty_world).2
               !! File (DOWNLOAD_DIR // "Michoacan2022" // "dtm.tif")).
Proof.
  apply (finished_run_leaves_products Stub.all_ok_env 3 empty_world
           {| name := "Michoacan2022"; dates := [mk_datetime 2022 9 19] |}).
  - vm_compute. reflexivity.
  - unfold INVENTORIES. right. right. left.
Defined.

(** ** A second pass over the same tiles *)

Lemma download_quad_present E output_dir tag quad id link w :
  quad_fields quad id link ->
  is_Some (fs w !! File (quad_filename E output_dir tag id)) ->
  download_quad E output_dir tag quad w = (Ok tt, w).
Proof.
  intros Hq Hp. rewrite (download_quad_cases E _ _ _ _ _ _ Hq). cbv zeta.
  by rewrite bool_decide_eq_true_2.
Qed.

Lemma download_quads_present E output_dir tag l w :
  Forall (fun q => exists id link,
              quad_fields q id link
              ∧ is_Some (fs w !! File (quad_filename E output_dir tag id))) l ->
  for_each (download_quad E output_dir tag) l w = (Ok tt, w).
Proof.
  induction 1 as [| q l (id & link & Hq & Hp) _ IH]; [done |].
  simpl. unfold bind. by rewrite (download_quad_present E _ _ _ id link).
Qed.


Lemma stub_all_tiles_transfer : Forall (transfers Stub.all_ok_env) Stub.tiles.
Proof.
  unfold Stub.tiles.
  repeat (constructor;
          [eexists _, _, Stub.tile_body;
           split; [eexists; repeat split; reflexivity | intros h; reflexivity] |]).
  constructor.
Defined.


(** ** A listing that goes wrong *)

Section BrokenListing.
Variable E : Env.

Lemma quads_loop_request_fails fuel url params acc w e :
  truthy url = true ->
  http E (net w) (py_str E url) params = ConnectionFailed e ->
  quads_loop E (S fuel) url params acc w
  = (Raise e, log_net (NGet (py_str E url) params) w).
Proof.
  intros Ht Hh. simpl. rewrite Ht. unfold bind, session_get. by rewrite Hh.
Qed.

Lemma quads_loop_page_fails fuel url params acc w r e :
  truthy url = true ->
  http E (net w) (py_str E url) params = Reply r ->
  page_fails r e ->
  quads_loop E (S fuel) url params acc w
  = (Raise e, log_net (NGet (py_str E url) params) w).
Proof.
  intros Ht Hh Hf. simpl. rewrite Ht. unfold bind, session_get, lift. rewrite Hh.
  destruct Hf as [-> | [-> Hf]]; [done |].
  destruct Hf as [-> | (data & -> & Hf)]; [done |].
  destruct Hf as [-> | (page & -> & Hf)]; [done |].
  destruct Hf as [-> | (more & -> & Hf)]; [done |].
  destruct Hf as [-> | (links & -> & ->)]; done.
Qed.

Lemma quads_loop_breaks url params pages e :
  listing_breaks E url params pages e ->
  forall fuel acc w,
    truthy url = true ->
    (length pages < fuel)%nat ->
    quads_loop E fuel url params acc w
    = (Raise e,
       add_requests (page_requests E url params pages
                       ++ [broken_request E url params pages]) w).
Proof.
  induction 1 as [url params e Hh | url params r e Hh Hf
                 | url params r items next rest e Hh Hp Hn Hrest IH];
    intros fuel acc w Ht Hfuel.
  - destruct fuel as [| fuel]; [simpl in Hfuel; lia |].
    by rewrite (quads_loop_request_fails _ _ _ _ _ e).
  - destruct fuel as [| fuel]; [simpl in Hfuel; lia |].
    by rewrite (quads_loop_page_fails _ _ _ _ _ r e).
  - destruct fuel as [| fuel]; [simpl in Hfuel; lia |].
    rewrite (quads_loop_step E _ _ _ _ _ r items next) by done.
    rewrite IH by (done || simpl in Hfuel; lia).
    by rewrite add_requests_log.
Qed.

Lemma quads_loop_endless :
  endless E ->
  forall fuel url params acc w,
    truthy url = true ->
    exists w',
      quads_loop E fuel url params acc w = (OutOfFuel, w')
      ∧ length (net w') = (length (net w) + fuel)%nat
      ∧ fs w' = fs w.
Proof.
  intros Hend. induction fuel as [| fuel IH]; intros url params acc w Ht.
  - exists w. simpl. rewrite Ht. split; [done |]. split; [lia | done].
  - destruct (Hend (net w) (py_str E url) params) as (r & items & next & Hh & Hp & Hn).
    rewrite (quads_loop_step E _ _ _ _ _ r items next) by done.
    destruct (IH next None (acc ++ items) (log_net (NGet (py_str E url) params) w) Hn)
      as (w' & Hrun & Hlen & Hfs).
    exists w'. split; [done |]. split; [| done].
    rewrite Hlen. simpl. rewrite length_app. simpl. lia.
Qed.

End BrokenListing.

(** X6: when the catalog serves some pages of a listing and then fails, on
    the request after the last of them (or on the first request), [list_quads]
    gives up the whole listing: the items of the pages it had read are
    dropped, the window gets no tile list, the failure is printed, one request
    was made per page read and one more, and no file is touched. *)
Theorem broken_listing_drops_pages (E : Env) (fuel : nat) (mosaic_id : json)
    (bbox_str tag : string) (pages : list (list json * json)) (e : exn) (w : World) :
  let quads_url := JStr (API_URL +:+ "/" +:+ py_str E mosaic_id +:+ "/quads") in
  let params := Some [("bbox", JStr bbox_str); ("minimal", JBool true)] in
  listing_breaks E quads_url params pages e ->
  (length pages < fuel)%nat ->
  exists w',
    list_quads E fuel mosaic_id bbox_str tag w = (Ok None, w')
    ∧ net w' = net w ++ page_requests E quads_url params pages
                     ++ [broken_request E quads_url params pages]
    ∧ length (net w') = (length (net w) + length pages + 1)%nat
    ∧ out w' = out w ++ ["Error retrieving quads: " +:+ exn_msg e]
    ∧ fs w' = fs w ∧ hist w' = hist w.
Proof.
  intros quads_url params Hb Hfuel.
  unfold list_quads, try_. unfold bind at 1. fold quads_url. fold params.
  rewrite (quads_loop_breaks E _ _ _ _ Hb) by done.
  eexists. split; [reflexivity |]. simpl. repeat split.
  rewrite !length_app. simpl.
  assert (forall u p, length (page_requests E u p pages) = length pages) as ->.
  { clear. induction pages as [| [items next] rest IH]; intros u p; [done |].
    simpl. by rewrite IH. }
  lia.
Qed.

Lemma stub_listing_breaks :
  listing_breaks Cases.third_page_down_env
    (JStr (API_URL +:+ "/" +:+ py_str Cases.third_page_down_env (JStr "m1") +:+ "/quads"))
    (Some [("bbox", JStr "0.0,0.0,0.0,0.0"); ("minimal", JBool true)])
    Cases.two_pages
    (Exn "HTTPError" "503 Server Error: Service Unavailable for url: next/3").
Proof.
  unfold Cases.two_pages.
  eapply breaks_later;
    [ intros h; reflexivity
    | split; [reflexivity | eexists _, _, _; repeat split; reflexivity]
    | reflexivity | ].
  eapply breaks_later;
    [ intros h; reflexivity
    | split; [reflexivity | eexists _, _, _; repeat split; reflexivity]
    | reflexivity | ].
  eapply breaks_response; [intros h; reflexivity |]. left. reflexivity.
Defined.

Lemma broken_listing_drops_pages_witness :
  exists w',
    list_quads Cases.third_page_down_env 3 (JStr "m1") "0.0,0.0,0.0,0.0" "pre" empty_world
    = (Ok None, w')
    ∧ net w'
      = [NGet Stub.quads_url
           (Some [("bbox", JStr "0.0,0.0,0.0,0.0"); ("minimal", JBool true)]);
         NGet "next/2" None; NGet "next/3" None]
    ∧ length (net w') = 3%nat
    ∧ out w'
      = ["Error retrieving quads: 503 Server Error: Service Unavailable for url: next/3"]
    ∧ fs w' = ∅ ∧ hist w' = [].
Proof.
  apply (broken_listing_drops_pages Cases.third_page_down_env 3 (JStr "m1")
           "0.0,0.0,0.0,0.0" "pre" Cases.two_pages
           (Exn "HTTPError" "503 Server Error: Service Unavailable for url: next/3")
           empty_world).
  - apply stub_listing_breaks.
  - simpl. lia.
Defined.

(** X7: the paging loop has no bound of its own and keeps no record of the
    links it followed: on a catalog whose every page links to a next one,
    [list_quads] never comes to an end.  Whatever the fuel, the loop uses it
    up, having made one request for each unit of it and touched no file. *)
Theorem endless_listing_never_ends (E : Env) (fuel : nat) (mosaic_id : json)
    (bbox_str tag : string) (w : World) :
  endless E ->
  (list_quads E fuel mosaic_id bbox_str tag w).1 = OutOfFuel
  ∧ length (net (list_quads E fuel mosaic_id bbox_str tag w).2)
    = (length (net w) + fuel)%nat
  ∧ fs (list_quads E fuel mosaic_id bbox_str tag w).2 = fs w.
Proof.
  intros Hend.
  destruct (quads_loop_endless E Hend fuel
              (JStr (API_URL +:+ "/" +:+ py_str E mosaic_id +:+ "/quads"))
              (Some [("bbox", JStr bbox_str); ("minimal", JBool true)]) [] w)
    as (w' & Hrun & Hlen & Hfs); [done |].
  assert (list_quads E fuel mosaic_id bbox_str tag w = (OutOfFuel, w')) as ->.
  { unfold list_quads, try_, bind. by rewrite Hrun. }
  done.
Qed.

Lemma stub_endless : endless Cases.always_more_env.
Proof.
  intros h url params. eexists _, _, _.
  split; [reflexivity |].
  split; [split; [reflexivity | eexists _, _, _; repeat split; reflexivity] |].
  reflexivity.
Defined.

Lemma endless_listing_never_ends_witness :
  (list_quads Cases.always_more_env 50 (JStr "m1") "0.0,0.0,0.0,0.0" "pre" empty_world).1
  = OutOfFuel
  ∧ length (net (list_quads Cases.always_more_env 50 (JStr "m1") "0.0,0.0,0.0,0.0" "pre"
                   empty_world).2)
    = (length (net empty_world) + 50)%nat
  ∧ fs (list_quads Cases.always_more_env 50 (JStr "m1") "0.0,0.0,0.0,0.0" "pre"
          empty_world).2 = fs empty_world.
Proof.
  apply (endless_listing_never_ends Cases.always_more_env 50 (JStr "m1")
           "0.0,0.0,0.0,0.0" "pre" empty_world).
  apply stub_endless.
Defined.

(** ** A listed entry that cannot be read *)

Lemma download_quad_malformed_raises E output_dir tag quad e w :
  malformed quad e -> download_quad E output_dir tag quad w = (Raise e, w).
Proof.
  unfold download_quad, bind, lift.
  intros [-> | (links & -> & [-> | (link & -> & ->)])]; reflexivity.
Qed.

(** X8: reading an entry's download link and id stands outside the handler
    of the transfer.  When a listed entry lacks its links, its download link or
    its id, the loop over the tiles ends there with the [KeyError] (or
    [TypeError]) of the lookup, after the tiles before it were handled: no
    request is made for the entry or for the tiles after it, and whatever
    follows the loop is not run. *)
Theorem malformed_entry_ends_loop (E : Env) (output_dir : Path) (tag : string)
    (before after : list json) (bad : json) (e : exn) (w : World) :
  Forall (fun q => exists id link, quad_fields q id link) before ->
  malformed bad e ->
  exists w',
    for_each (download_quad E output_dir tag) before w = (Ok tt, w')
    ∧ for_each (download_quad E output_dir tag) (before ++ bad :: after) w = (Raise e, w')
    ∧ (forall rest : M unit,
          (for_each (download_quad E output_dir tag) (before ++ bad :: after) >> rest) w
          = (Raise e, w')).
Proof.
  intros Hwf Hbad.
  destruct (download_quads_well_formed E output_dir tag before w Hwf) as [w' Hrun].
  exists w'. split; [done |].
  assert (for_each (download_quad E output_dir tag) (before ++ bad :: after) w
          = (Raise e, w')) as Hall.
  { clear Hwf. revert w Hrun. induction before as [| q l IH]; intros w Hrun.
    - injection Hrun as <-. simpl. unfold bind.
      by rewrite (download_quad_malformed_raises E _ _ _ e).
    - simpl in Hrun |- *. apply bind_ok_inv in Hrun as ([] & w1 & H1 & Hrest).
      unfold bind at 1. rewrite H1. by apply IH. }
  split; [done |]. intros rest. unfold bind. by rewrite Hall.
Qed.

Lemma malformed_entry_ends_loop_witness :
  exists w',
    for_each (download_quad Stub.all_ok_env (Stub.lombok // "pre_quads") "pre")
      [Stub.quad "q1" "dl/q1"] empty_world = (Ok tt, w')
    ∧ for_each (download_quad Stub.all_ok_env (Stub.lombok // "pre_quads") "pre")
        ([Stub.quad "q1" "dl/q1"] ++ Cases.no_links :: [Stub.quad "q3" "dl/q3"])
        empty_world
      = (Raise (Exn "KeyError" "'_links'"), w')
    ∧ (forall rest : M unit,
          (for_each (download_quad Stub.all_ok_env (Stub.lombok // "pre_quads") "pre")
             ([Stub.quad "q1" "dl/q1"] ++ Cases.no_links :: [Stub.quad "q3" "dl/q3"])
           >> rest) empty_world
          = (Raise (Exn "KeyError" "'_links'"), w')).
Proof.
  apply (malformed_entry_ends_loop Stub.all_ok_env (Stub.lombok // "pre_quads") "pre"
           [Stub.quad "q1" "dl/q1"] [Stub.quad "q3" "dl/q3"] Cases.no_links
           (Exn "KeyError" "'_links'") empty_world).
  - constructor; [| constructor].
    eexists _, _, _. repeat split; reflexivity.
  - left. reflexivity.
Defined.

(** ** The windows around the events *)

(** X9: for a non-empty ascending list of event dates, the pre-event window
    is a month that lies before the month of every event date and the
    post-event window a month that lies after the month of every event date;
    and when the first and the last date have months between 1 and 12, so
    have the windows. *)
Theorem windows_bracket_events (inv : inventory) (d0 : datetime) (rest : list datetime) :
  dates inv = d0 :: rest ->
  Sorted date_le (dates inv) ->
  exists yb mb ya ma,
    windows inv = Ok [("pre", yb, mb); ("post", ya, ma)]
    ∧ (forall d, d ∈ dates inv -> month_before yb mb d ∧ month_after ya ma d)
    ∧ (1 <= month d0 <= 12 -> 1 <= mb <= 12)
    ∧ (1 <= month (List.last (dates inv) d0) <= 12 -> 1 <= ma <= 12).
Proof.
  intros Hd Hs. unfold windows. rewrite Hd in Hs |- *.
  set (dl := List.last (d0 :: rest) d0).
  assert (forall d, d ∈ d0 :: rest -> date_le d0 d ∧ date_le d dl) as Hall.
  { intros d Hin. split; [by apply (sorted_first_earliest d0 rest) |].
    by apply sorted_last_latest. }
  unfold get_previous_month, get_next_month.
  destruct (month d0 =? 1) eqn:H1; destruct (month dl =? 12) eqn:H12;
    eexists _, _, _, _; (split; [reflexivity |]);
    (split; [| split; lia]);
    intros d Hin; destruct (Hall d Hin) as [Hlo Hhi];
    unfold date_le in Hlo, Hhi; unfold month_before, month_after; lia.
Qed.

Lemma philippines_sorted :
  Sorted date_le [mk_datetime 2019 10 16; mk_datetime 2019 10 29;
                  mk_datetime 2019 10 31; mk_datetime 2019 12 15].
Proof.
  repeat (apply Sorted_cons;
          [| first [apply HdRel_nil | apply HdRel_cons; unfold date_le; simpl; lia]]).
  apply Sorted_nil.
Defined.

Lemma windows_bracket_events_witness :
  exists yb mb ya ma,
    windows {| name := "Philippines2019";
               dates := [mk_datetime 2019 10 16; mk_datetime 2019 10 29;
                         mk_datetime 2019 10 31; mk_datetime 2019 12 15] |}
    = Ok [("pre", yb, mb); ("post", ya, ma)]
    ∧ (forall d,
          d ∈ [mk_datetime 2019 10 16; mk_datetime 2019 10 29;
               mk_datetime 2019 10 31; mk_datetime 2019 12 15] ->
          month_before yb mb d ∧ month_after ya ma d)
    ∧ (1 <= 10 <= 12 -> 1 <= mb <= 12)
    ∧ (1 <= 12 <= 12 -> 1 <= ma <= 12).
Proof.
  apply (windows_bracket_events
           {| name := "Philippines2019";
              dates := [mk_datetime 2019 10 16; mk_datetime 2019 10 29;
                        mk_datetime 2019 10 31; mk_datetime 2019 12 15] |}
           (mk_datetime 2019 10 16)
           [mk_datetime 2019 10 29; mk_datetime 2019 10 31; mk_datetime 2019 12 15]).
  - reflexivity.
  - apply philippines_sorted.
Defined.

(** The windows of the witness: September 2019 and January 2020. *)
Example philippines_windows :
  windows {| name := "Philippines2019";
             dates := [mk_datetime 2019 10 16; mk_datetime 2019 10 29;
                       mk_datetime 2019 10 31; mk_datetime 2019 12 15] |}
  = Ok [("pre", 2019, 9); ("post", 2020, 1)].
Proof. reflexivity. Qed.

(** ** The two halves of the earlier download script *)

(** X10: [download_basemaps_pre] works on the first window of
    [download_basemaps] and [download_basemaps_post] on the second; and for one
    inventory and one download directory, [download_basemaps] does what
    [download_basemaps_pre] followed by [download_basemaps_post] does: the same
    requests, files and printed lines, and the same outcome. *)
Theorem pre_then_post_is_both (E : Env) (el : Mosaics.inventory) (path : Path)
    (w : World) :
  (forall wins,
      Mosaics.windows el = Ok wins ->
      MosaicsSplit.windows_pre el = Ok (take 1 wins)
      ∧ MosaicsSplit.windows_post el = Ok (drop 1 wins))
  ∧ Mosaics.download_basemaps E [el] path w
    = (MosaicsSplit.download_basemaps_pre E [el] path
       >> MosaicsSplit.download_basemaps_post E [el] path) w.
Proof.
  split.
  - unfold Mosaics.windows, MosaicsSplit.windows_pre, MosaicsSplit.windows_post.
    intros wins. destruct (Mosaics.dates el) as [| d0 [| d1 rest]]; [done | |];
      destruct (Mosaics.get_previous_month _ _) as [mb yb];
      destruct (Mosaics.get_next_month _ _) as [ma ya];
      by intros [= <-].
  - unfold Mosaics.download_basemaps, MosaicsSplit.download_basemaps_pre,
      MosaicsSplit.download_basemaps_post. simpl.
    unfold Mosaics.process_inventory, MosaicsSplit.process_inventory_pre,
      MosaicsSplit.process_inventory_post.
    unfold Mosaics.windows, MosaicsSplit.windows_pre, MosaicsSplit.windows_post.
    pose (run := fun wins : outcome (list (string * string * string)) =>
                   (let* wins := lift wins in
                    let* area_bbox := Mosaics.shapefile_to_bbox E (Mosaics.area el) 4326 in
                    for_each (Mosaics.process_window E (Mosaics.bbox_string E area_bbox)
                                path (Mosaics.name el)) wins)
                   >> ret tt).
    assert (forall p q, run (Ok [p; q]) w = (run (Ok [p]) >> run (Ok [q])) w) as Hboth.
    { intros p q.
      cbv beta iota zeta delta [run bind lift call ret for_each of_answer
                                Mosaics.shapefile_to_bbox].
      destruct (total_bounds E (Mosaics.area el) None 4326) as [b | e]; [| done].
      destruct (Mosaics.process_window E (Mosaics.bbox_string E b) path (Mosaics.name el)
                  p w) as [[[] | e |] w1]; [| done ..].
      by destruct (Mosaics.process_window E (Mosaics.bbox_string E b) path
                     (Mosaics.name el) q w1) as [[[] | e |] w2]. }
    destruct (Mosaics.dates el) as [| d0 [| d1 rest]]; [done | |];
      destruct (Mosaics.get_previous_month _ _) as [mb yb];
      destruct (Mosaics.get_next_month _ _) as [ma ya];
      apply Hboth.
Qed.

(** The three functions on the first entry of the table. *)
Example split_download_requests :
  net (MosaicsSplit.download_basemaps_pre Stub.all_ok_env [Stub.lombok_entry] ["quads"]
         empty_world).2
  = [ NGet Mosaics.API_URL (Some [("name__is", JStr "global_monthly_2018_07_mosaic")]);
      NGet Stub.quads_url
        (Some [("bbox", JStr "0.0,0.0,0.0,0.0"); ("minimal", JBool true)]);
      NRetrieve (JStr "dl/q1"); NRetrieve (JStr "dl/q2") ]
  ∧ net (MosaicsSplit.download_basemaps_post Stub.all_ok_env [Stub.lombok_entry] ["quads"]
           empty_world).2
    = [ NGet Mosaics.API_URL (Some [("name__is", JStr "global_monthly_2018_09_mosaic")]);
        NGet Stub.quads_url
          (Some [("bbox", JStr "0.0,0.0,0.0,0.0"); ("minimal", JBool true)]);
        NRetrieve (JStr "dl/q1"); NRetrieve (JStr "dl/q2") ].
Proof. split; vm_compute; reflexivity. Qed.

(** ** The terrain step *)

(** X11: the terrain step is idempotent on its output.  When [dtm.tif] is
    there, [download_dtm] only prints a line: it opens no raster, and leaves
    the files, the requests and the raster log as they were; and after a call
    that ended normally [dtm.tif] is there, so that a second call is such a
    no-op. *)
Theorem terrain_step_idempotent (E : Env) (inv : inventory) (output_dir : Path)
    (w : World) :
  let dtm := File (output_dir // name inv // "dtm.tif") in
  (is_Some (fs w !! dtm) ->
   exists w',
     download_dtm E inv output_dir w = (Ok tt, w')
     ∧ fs w' = fs w ∧ hist w' = hist w
     ∧ raster_log w' = raster_log w ∧ net w' = net w
     ∧ out w' = out w ++ ["DTM already exists for " +:+ name inv +:+ ", skipping download."])
  ∧ (forall w1,
       download_dtm E inv output_dir w = (Ok tt, w1) ->
       is_Some (fs w1 !! dtm)
       ∧ exists w2,
           download_dtm E inv output_dir w1 = (Ok tt, w2)
           ∧ fs w2 = fs w1 ∧ hist w2 = hist w1
           ∧ raster_log w2 = raster_log w1 ∧ net w2 = net w1).
Proof.
  intros dtm. split.
  - intros H. eexists. split; [by apply download_dtm_present |]. simpl. repeat split.
  - intros w1 H1. apply download_dtm_ok_output in H1. split; [done |].
    eexists. split; [by apply download_dtm_present |]. done.
Qed.

Lemma terrain_step_idempotent_witness :
  (exists w',
     download_dtm Stub.good_env Terrain.lombok_entry DOWNLOAD_DIR
       (set_fs (<[File (Stub.lombok // "dtm.tif") := [Byte.x44]]> ∅) empty_world)
     = (Ok tt, w')
     ∧ fs w' = fs (set_fs (<[File (Stub.lombok // "dtm.tif") := [Byte.x44]]> ∅) empty_world)
     ∧ hist w'
       = hist (set_fs (<[File (Stub.lombok // "dtm.tif") := [Byte.x44]]> ∅) empty_world)
     ∧ raster_log w' = [] ∧ net w' = []
     ∧ out w' = [] ++ ["DTM already exists for " +:+ "Lombok2018" +:+ ", skipping download."])
  ∧ (is_Some (fs (download_dtm Stub.good_env Terrain.lombok_entry DOWNLOAD_DIR
                    Stub.merged_world).2
                !! File (Stub.lombok // "dtm.tif"))
     ∧ exists w2,
         download_dtm Stub.good_env Terrain.lombok_entry DOWNLOAD_DIR
           (download_dtm Stub.good_env Terrain.lombok_entry DOWNLOAD_DIR
              Stub.merged_world).2
         = (Ok tt, w2)
         ∧ fs w2 = fs (download_dtm Stub.good_env Terrain.lombok_entry DOWNLOAD_DIR
                         Stub.merged_world).2
         ∧ hist w2 = hist (download_dtm Stub.good_env Terrain.lombok_entry DOWNLOAD_DIR
                             Stub.merged_world).2
         ∧ raster_log w2
           = raster_log (download_dtm Stub.good_env Terrain.lombok_entry DOWNLOAD_DIR
                           Stub.merged_world).2
         ∧ net w2 = net (download_dtm Stub.good_env Terrain.lombok_entry DOWNLOAD_DIR
                           Stub.merged_world).2).
Proof.
  split.
  - apply (proj1 (terrain_step_idempotent Stub.good_env Terrain.lombok_entry DOWNLOAD_DIR
                    (set_fs (<[File (Stub.lombok // "dtm.tif") := [Byte.x44]]> ∅)
                       empty_world))).
    vm_compute. by eexists.
  - apply (proj2 (terrain_step_idempotent Stub.good_env Terrain.lombok_entry DOWNLOAD_DIR
                    Stub.merged_world)).
    vm_compute. reflexivity.
Defined.

Lemma get_bounds_reads E raster_path w r w' :
  get_bounds_wgs84 E raster_path w = (r, w') ->
  fs w' = fs w ∧ hist w' = hist w ∧ raster_log w' = raster_log w ++ [RRead raster_path]
  ∧ (fs w !! File raster_path = None ->
     exists e, r = Raise e ∧ exn_class e = "RasterioIOError").
Proof.
  unfold get_bounds_wgs84, bind, rasterio_open, call, lift.
  destruct (fs w !! File raster_path) as [c |].
  - destruct (raster_meta E c) as [m | e].
    + destruct (transform_bounds E _); by intros [= <- <-].
    + by intros [= <- <-].
  - intros [= <- <-]. repeat split. intros _. by eexists.
Qed.



(** X13: the terrain model is written before the cache of the elevation
    library is cleaned.  When the clipping succeeds and the cleaning fails, the
    step ends with the exception of the cleaning, with [dtm.tif] written in
    full; the next call finds it and skips the step. *)
Theorem failed_cleaning_keeps_model (E : Env) (inv : inventory) (output_dir : Path)
    (w : World) (content : bytes) (m : Meta) (b : Bounds) (c : bytes) (e : exn) :
  let dtm := File (output_dir // name inv // "dtm.tif") in
  let pre_tif := output_dir // name inv // "pre_merged.tif" in
  fs w !! dtm = None ->
  fs w !! File pre_tif = Some content ->
  raster_meta E content = Done m ->
  transform_bounds E (mkDataset pre_tif m content) = Done b ->
  elevation_clip E b = Done c ->
  elevation_clean E = Fails e ->
  exists w1,
    download_dtm E inv output_dir w = (Raise e, w1)
    ∧ fs w1 !! dtm = Some c
    ∧ download_dtm E inv output_dir w1
      = (Ok tt, log_out ("DTM already exists for " +:+ name inv +:+ ", skipping download.")
                  w1).
Proof.
  intros dtm pre_tif Habsent Hpre Hm Hb Hc He.
  assert (exists w1, download_dtm E inv output_dir w = (Raise e, w1)
                     ∧ fs w1 !! dtm = Some c) as (w1 & Hrun & Hdtm).
  { unfold download_dtm, path_exists. unfold bind at 1.
    rewrite bool_decide_eq_false_2 by (fold dtm; rewrite Habsent; by intros [? ?]).
    cbv iota beta. fold pre_tif.
    unfold get_bounds_wgs84, rasterio_open, bind, call, lift.
    rewrite Hpre, Hm, Hb. simpl. rewrite Hc. simpl. rewrite He. simpl.
    eexists. split; [reflexivity |]. simpl. apply lookup_insert_eq. }
  exists w1. split; [done |]. split; [done |].
  apply download_dtm_present. by eexists.
Qed.

Lemma failed_cleaning_keeps_model_witness :
  exists w1,
    download_dtm Terrain.clean_fails_env Terrain.lombok_entry DOWNLOAD_DIR Stub.merged_world
    = (Raise (Exn "CalledProcessError" "make clean returned non-zero exit status 2"), w1)
    ∧ fs w1 !! File (DOWNLOAD_DIR // "Lombok2018" // "dtm.tif") = Some [Byte.x44]
    ∧ download_dtm Terrain.clean_fails_env Terrain.lombok_entry DOWNLOAD_DIR w1
      = (Ok tt, log_out ("DTM already exists for " +:+ "Lombok2018"
                         +:+ ", skipping download.") w1).
Proof.
  apply (failed_cleaning_keeps_model Terrain.clean_fails_env Terrain.lombok_entry
           DOWNLOAD_DIR Stub.merged_world [Byte.x49]
           [("driver", MStr "GTiff"); ("count", MInt 3)] Stub.unit_box [Byte.x44]
           (Exn "CalledProcessError" "make clean returned non-zero exit status 2"));
    reflexivity.
Defined.

(** ** Where the tiles are written and where the merges look *)

Lemma length_append (a b : string) :
  String.length (a +:+ b) = (String.length a + String.length b)%nat.
Proof. induction a as [| c a IH]; simpl; [done | by rewrite IH]. Qed.

Lemma substring_all (s : string) : String.substring 0 (String.length s) s = s.
Proof. induction s as [| c s IH]; simpl; [done | by rewrite IH]. Qed.

Lemma ends_with_refl (b : string) : ends_with b b = true.
Proof.
  unfold ends_with. rewrite Nat.leb_refl, Nat.sub_diag, substring_all.
  by rewrite String.eqb_refl.
Qed.

Lemma ends_with_cons (c : Ascii.ascii) (b s : string) :
  (String.length b <= String.length s)%nat ->
  ends_with b (String c s) = ends_with b s.
Proof.
  intros Hle. unfold ends_with. simpl String.length.
  rewrite (leb_correct _ _ Hle), (leb_correct _ (S _)) by lia.
  replace (S (String.length s) - String.length b)%nat
    with (S (String.length s - String.length b)) by lia.
  reflexivity.
Qed.

Lemma ends_with_append (a b s : string) :
  (String.length b <= String.length s)%nat ->
  ends_with b (a +:+ s) = ends_with b s.
Proof.
  intros Hle. induction a as [| c a IH]; [done |].
  change (String c a +:+ s) with (String c (a +:+ s)).
  rewrite ends_with_cons; [done |]. rewrite length_append. lia.
Qed.

Lemma ends_with_suffix (a b : string) : ends_with b (a +:+ b) = true.
Proof. rewrite ends_with_append by done. apply ends_with_refl. Qed.

Lemma elem_of_keys (f : FS) (p : fpath) :
  p ∈ map fst (map_to_list f) ↔ is_Some (f !! p).
Proof.
  rewrite list_elem_of_fmap. split.
  - intros ([q c] & -> & Hin). apply elem_of_map_to_list in Hin. by eexists.
  - intros [c Hc]. exists (p, c). split; [done |]. by apply elem_of_map_to_list.
Qed.

Lemma path_of_reverse (q : Path) (nm : string) (rd : list string) :
  reverse q = nm :: rd -> q = reverse rd // nm.
Proof.
  intros H. rewrite <- (reverse_involutive q), H. unfold pjoin.
  by rewrite reverse_cons.
Qed.

Lemma reverse_pjoin (dir : Path) (nm : string) : reverse (dir // nm) = nm :: reverse dir.
Proof. unfold pjoin. by rewrite reverse_app. Qed.

Lemma in_dir_tiff_inv dir p q :
  in_dir_tiff dir p = Some q ->
  p = File q ∧ exists nm, q = dir // nm ∧ ends_with ".tiff" nm = true.
Proof.
  unfold in_dir_tiff. destruct p as [n | q0]; [done |].
  destruct (reverse q0) as [| nm rd] eqn:Hr; [done |].
  destruct (bool_decide (reverse rd = dir)) eqn:Hd; [| done].
  destruct (ends_with ".tiff" nm) eqn:He; [| done].
  intros [= <-]. split; [done |]. exists nm. split; [| done].
  apply bool_decide_eq_true_1 in Hd as <-. by apply path_of_reverse.
Qed.

Lemma in_dir_tiff_file dir nm :
  ends_with ".tiff" nm = true -> in_dir_tiff dir (File (dir // nm)) = Some (dir // nm).
Proof.
  intros He. unfold in_dir_tiff. rewrite reverse_pjoin, reverse_involutive, He.
  by rewrite bool_decide_eq_true_2.
Qed.

Lemma pjoin_inj (p q : Path) (a b : string) : p // a = q // b -> p = q ∧ a = b.
Proof. unfold pjoin. intros H. apply app_inj_tail in H. done. Qed.

Lemma pjoin_longer (p : Path) (a b c : string) : p // a <> p // b // c.
Proof.
  unfold pjoin. intros H. apply (f_equal length) in H.
  rewrite !length_app in H. simpl in H. lia.
Qed.



Lemma write_blocks_present dest blocks w :
  is_Some (fs w !! dest) -> is_Some (fs (write_blocks dest blocks w) !! dest).
Proof.
  intros [old Hold]. destruct (write_blocks_spec dest blocks w old Hold) as [H _].
  by eexists.
Qed.

Lemma download_item_cases E path el_name tag i id link w :
  quad_fields i (JStr id) link ->
  Mosaics.download_item E path el_name tag i w
  = let filename := path // el_name // (id +:+ "_" +:+ tag +:+ ".tiff") in
    if bool_decide (is_Some (fs w !! File filename)) then (Ok tt, w)
    else urlretrieve E link (File filename)
           (log_out ("Downloading " +:+ path_str filename) w).
Proof.
  intros (links & Hl & Hd & Hi). unfold Mosaics.download_item.
  unfold bind at 1. unfold lift at 1. rewrite Hl.
  unfold bind at 1. unfold lift at 1. rewrite Hd.
  unfold bind at 1. unfold lift at 1. rewrite Hi.
  unfold bind at 1. unfold lift at 1. simpl py_add_str. cbv iota beta.
  unfold bind at 1. unfold path_exists at 1. cbv zeta.
  by destruct (bool_decide _).
Qed.

Lemma download_item_leaves_file E path el_name tag i id link w :
  quad_fields i (JStr id) link ->
  (Mosaics.download_item E path el_name tag i w).1 = Ok tt ->
  is_Some (fs (Mosaics.download_item E path el_name tag i w).2
             !! File (path // el_name // (id +:+ "_" +:+ tag +:+ ".tiff"))).
Proof.
  intros Hq. rewrite (download_item_cases E _ _ _ _ _ _ _ Hq). cbv zeta.
  destruct (bool_decide _) eqn:Hp; [intros _; by apply bool_decide_eq_true_1 in Hp |].
  unfold urlretrieve. simpl net.
  destruct (fetch E (net w) link) as [e | blocks [e |]]; [done | done |].
  intros _. simpl. apply write_blocks_present. simpl.
  rewrite lookup_insert_eq. by eexists.
Qed.

Lemma prefix_dot_append (id rest : string) :
  String.prefix "." id = false -> String.prefix "." (id +:+ "_" +:+ rest) = false.
Proof.
  destruct id as [| c s]; [done |].
  change (String c s +:+ "_" +:+ rest) with (String c (s +:+ "_" +:+ rest)).
  cbn [String.prefix]. destruct (Ascii.ascii_dec _ c); [| done]. by destruct s.
Qed.

Lemma in_dir_suffix_inv dir suffix p q :
  MergeMosaics.in_dir_suffix dir suffix p = Some q ->
  p = File q
  ∧ exists nm, q = dir // nm ∧ ends_with ("_" +:+ suffix +:+ ".tiff") nm = true.
Proof.
  unfold MergeMosaics.in_dir_suffix. destruct p as [n | q0]; [done |].
  destruct (reverse q0) as [| nm rd] eqn:Hr; [done |].
  destruct (bool_decide (reverse rd = dir)) eqn:Hd; [| done].
  destruct (ends_with ("_" +:+ suffix +:+ ".tiff") nm) eqn:He; [| done].
  destruct (String.prefix "." nm); [done |].
  intros [= <-]. split; [done |]. exists nm. split; [| done].
  apply bool_decide_eq_true_1 in Hd as <-. by apply path_of_reverse.
Qed.

Lemma elem_of_glob_suffix dir suffix (f : FS) fp :
  fp ∈ omap (MergeMosaics.in_dir_suffix dir suffix) (map fst (map_to_list f))
  ↔ is_Some (f !! File fp) ∧ MergeMosaics.in_dir_suffix dir suffix (File fp) = Some fp.
Proof.
  rewrite list_elem_of_omap. split.
  - intros (p & Hin & Hp). pose proof (in_dir_suffix_inv _ _ _ _ Hp) as [-> _].
    split; [by apply elem_of_keys | done].
  - intros [Hin Hp]. exists (File fp). split; [by apply elem_of_keys | done].
Qed.

Lemma entry_under_child (dir : Path) (nm : string) :
  MergeMosaics.entry_under dir (File (dir // nm)) = Some nm.
Proof.
  unfold MergeMosaics.entry_under, pjoin.
  rewrite take_app_length, bool_decide_eq_true_2 by done.
  by apply list_lookup_middle.
Qed.

Lemma entry_under_grandchild (dir : Path) (a nm : string) :
  MergeMosaics.entry_under dir (File (dir // a // nm)) = Some a.
Proof.
  unfold MergeMosaics.entry_under, pjoin.
  rewrite <- app_assoc, take_app_length, bool_decide_eq_true_2 by done.
  by apply list_lookup_middle.
Qed.



(** ** What the earlier merge leaves of the tiles *)

Lemma only_merged_refl path_root suffix f : only_merged path_root suffix f f.
Proof. by intros q _. Qed.

Lemma only_merged_trans path_root suffix f0 f1 f2 :
  only_merged path_root suffix f0 f1 -> only_merged path_root suffix f1 f2 ->
  only_merged path_root suffix f0 f2.
Proof. intros H1 H2 q Hq. rewrite H2, H1; done. Qed.

Section MergeTiff.
Variable E : Env.
Variable path_root : Path.
Variable suffix : string.

Let P (w w' : World) : Prop := only_merged path_root suffix (fs w) (fs w').

Lemma P_trans a b c : P a b -> P b c -> P a c.
Proof. apply only_merged_trans. Qed.

Lemma same_P w w' : same_files w w' -> P w w'.
Proof. intros [Hf _]. unfold P. rewrite Hf. apply only_merged_refl. Qed.

Lemma P_write name c w :
  P w (set_fs (<[File (path_root // name // merged_name name suffix) := c]> (fs w)) w).
Proof. intros q Hq. simpl. rewrite lookup_insert_ne; [done |]. intros <-. by eapply Hq. Qed.

Lemma rasterio_create_only_merged name meta w r w' :
  rasterio_create E (path_root // name // merged_name name suffix) meta w = (r, w') ->
  P w w'.
Proof.
  unfold rasterio_create. destruct (raster_create E meta) as [header | e].
  - intros [= _ <-].
    apply (P_trans _ (log_raster (RWrite (path_root // name // merged_name name suffix))
                        w)); [by apply same_P |].
    apply (P_write name header
             (log_raster (RWrite (path_root // name // merged_name name suffix)) w)).
  - intros [= _ <-]. by apply same_P.
Qed.

Lemma dest_write_only_merged name meta mosaic w r w' :
  dest_write E (path_root // name // merged_name name suffix) meta mosaic w = (r, w') ->
  P w w'.
Proof.
  unfold dest_write. destruct (raster_encode E meta mosaic) as [c | e].
  - intros [= _ <-]. apply P_write.
  - intros [= _ <-]. by apply same_P.
Qed.

Lemma merge_folder_only_merged name w r w' :
  MergeMosaics.merge_folder E path_root suffix name w = (r, w') -> P w w'.
Proof.
  unfold MergeMosaics.merge_folder.
  eapply bind_rel; [apply P_trans | intros ? ? | intros is_dir ? ? ? _].
  { intros [= _ <-]. by apply same_P. }
  destruct is_dir; cbn [negb]; [| intros H; eapply same_P, ret_same, H].
  eapply bind_rel; [apply P_trans | intros ? ? | intros raster_files ? ? ? _].
  { intros [= _ <-]. by apply same_P. }
  eapply bind_rel; [apply P_trans | intros ? ? | intros u ? ? ? _].
  { intros H; eapply same_P, print_same, H. }
  eapply bind_rel; [apply P_trans | intros ? ? | intros srcs ? ? ? _].
  { intros H; eapply same_P, open_all_same, H. }
  eapply bind_rel; [apply P_trans | intros ? ? | intros merged ? ? ? _].
  { intros H; eapply same_P, lift_same, H. }
  destruct merged as [mosaic out_transform].
  eapply bind_rel; [apply P_trans | intros ? ? | intros src0 ? ? ? _].
  { intros H; eapply same_P, lift_same, H. }
  eapply bind_rel; [apply P_trans | intros ? ? | intros height ? ? ? _].
  { intros H; eapply same_P, lift_same, H. }
  eapply bind_rel; [apply P_trans | intros ? ? | intros width ? ? ? _].
  { intros H; eapply same_P, lift_same, H. }
  eapply bind_rel; [apply P_trans | intros ? ? | intros u1 ? ? ? _].
  { apply rasterio_create_only_merged. }
  eapply bind_rel; [apply P_trans | intros ? ? | intros u2 ? ? ? _].
  { intros H; eapply same_P, print_same, H. }
  apply dest_write_only_merged.
Qed.

Lemma mergeTiff_only_merged w r w' :
  MergeMosaics.mergeTiff E path_root suffix w = (r, w') -> P w w'.
Proof.
  unfold MergeMosaics.mergeTiff.
  eapply bind_rel; [apply P_trans | intros ? ? | intros names ? ? ? _].
  { intros [= _ <-]. by apply same_P. }
  apply for_each_rel; [intros w0; by apply same_P | apply P_trans |].
  intros ? ? ? ? _. apply merge_folder_only_merged.
Qed.

End MergeTiff.

Lemma merged_name_not_tile (name suffix suffix' : string) :
  suffix' = "pre" ∨ suffix' = "post" ->
  ends_with ("_" +:+ suffix' +:+ ".tiff") (merged_name name suffix) = false.
Proof.
  intros [-> | ->]; unfold merged_name;
    rewrite !ends_with_append by (rewrite ?length_append; simpl; lia); reflexivity.
Qed.

(** X16: [mergeTiff] writes its mosaics into the folders it reads the tiles
    from, yet it leaves the tiles alone: however a call ends, the files that a
    merge of the pre-event or of the post-event tiles reads in any folder are
    the same after it as before, each with the content it had.  No tile is
    changed or removed, and no mosaic it wrote is taken for a tile by the
    merge that follows. *)
Theorem mergeTiff_leaves_tiles (E : Env) (path_root : Path) (suffix : string)
    (dir : Path) (suffix' : string) (fp : Path) (w : World) :
  let w' := (MergeMosaics.mergeTiff E path_root suffix w).2 in
  let inputs (v : World) :=
    omap (MergeMosaics.in_dir_suffix dir suffix') (map fst (map_to_list (fs v))) in
  suffix' = "pre" ∨ suffix' = "post" ->
  (fp ∈ inputs w' ↔ fp ∈ inputs w)
  ∧ (fp ∈ inputs w -> fs w' !! File fp = fs w !! File fp).
Proof.
  intros w' inputs Hs.
  assert (MergeMosaics.in_dir_suffix dir suffix' (File fp) = Some fp ->
          fs w' !! File fp = fs w !! File fp) as Hsame.
  { intros Hp. subst w'.
    destruct (MergeMosaics.mergeTiff E path_root suffix w) as [r w1] eqn:Hrun.
    apply mergeTiff_only_merged in Hrun. simpl. apply Hrun.
    intros name [= ->].
    apply in_dir_suffix_inv in Hp as (_ & nm & Heq & Hends).
    apply pjoin_inj in Heq as [_ <-].
    by rewrite merged_name_not_tile in Hends. }
  subst inputs. cbv beta. rewrite !elem_of_glob_suffix. split.
  - split; intros [Hin Hp]; (split; [| done]).
    + by rewrite <- Hsame.
    + by rewrite Hsame.
  - intros [_ Hp]. by apply Hsame.
Qed.

Lemma mergeTiff_leaves_tiles_witness :
  (["quads"; "Lombok2018"; "q1_pre.tiff"]
   ∈ omap (MergeMosaics.in_dir_suffix ["quads"; "Lombok2018"] "pre")
       (map fst (map_to_list
                   (fs (MergeMosaics.mergeTiff Stub.good_env ["quads"] "pre"
                          Stub.quads_world).2)))
   ↔ ["quads"; "Lombok2018"; "q1_pre.tiff"]
     ∈ omap (MergeMosaics.in_dir_suffix ["quads"; "Lombok2018"] "pre")
         (map fst (map_to_list (fs Stub.quads_world))))
  ∧ (["quads"; "Lombok2018"; "q1_pre.tiff"]
     ∈ omap (MergeMosaics.in_dir_suffix ["quads"; "Lombok2018"] "pre")
         (map fst (map_to_list (fs Stub.quads_world))) ->
     fs (MergeMosaics.mergeTiff Stub.good_env ["quads"] "pre" Stub.quads_world).2
        !! File ["quads"; "Lombok2018"; "q1_pre.tiff"]
     = fs Stub.quads_world !! File ["quads"; "Lombok2018"; "q1_pre.tiff"]).
Proof.
  apply (mergeTiff_leaves_tiles Stub.good_env ["quads"] "pre" ["quads"; "Lombok2018"]
           "pre" ["quads"; "Lombok2018"; "q1_pre.tiff"] Stub.quads_world).
  left. reflexivity.
Defined.

(** The folder of the witness after the merge: the tile and the mosaic. *)
Example folder_after_mergeTiff :
  map fst (map_to_list
             (fs (MergeMosaics.mergeTiff Stub.good_env ["quads"] "pre" Stub.quads_world).2))
  = [ File ["quads"; "Lombok2018"; "q1_pre.tiff"];
      File ["quads"; "Lombok2018"; "lombok2018_pre_merged.tiff"] ]
  ∧ omap (MergeMosaics.in_dir_suffix ["quads"; "Lombok2018"] "pre")
      (map fst (map_to_list
                  (fs (MergeMosaics.mergeTiff Stub.good_env ["quads"] "pre"
                         Stub.quads_world).2)))
    = [ ["quads"; "Lombok2018"; "q1_pre.tiff"] ].
Proof. split; vm_compute; reflexivity. Qed.

(** ** The conversion to GeoPackages *)

Lemma only_outputs_refl table f : only_outputs table f f.
Proof. by intros q _. Qed.

Lemma only_outputs_trans table f0 f1 f2 :
  only_outputs table f0 f1 -> only_outputs table f1 f2 -> only_outputs table f0 f2.
Proof. intros H1 H2 q Hq. rewrite H2, H1; done. Qed.

Lemma touches_output_only_outputs table country f0 f :
  country ∈ map fst table ->
  touches_only (File (Conversion.output_gpkg country)) f0 f -> only_outputs table f0 f.
Proof. intros Hin Ht q Hq. apply Ht. by apply Hq. Qed.

Lemma shapefile_not_output (country shp_file country' : string) :
  File (shapefile country shp_file) <> File (Conversion.output_gpkg country').
Proof.
  unfold shapefile, Conversion.output_gpkg. intros H.
  assert (Conversion.inventories_root // country // shp_file
          = Conversion.inventories_root // (country' +:+ ".gpkg")) as H' by congruence.
  symmetry in H'. by apply pjoin_longer in H'.
Qed.

Section Conv.
Variable G : Conversion.GeoLib.

Lemma gdf_to_file_touches gdf output layer w r w' :
  Conversion.gdf_to_file G gdf output layer w = (r, w') ->
  throughout (touches_only (File output)) w w'.
Proof.
  unfold Conversion.gdf_to_file. destruct (Conversion.to_file G _ _ _) as [c | e].
  - intros [= _ <-]. apply T_write.
  - intros [= _ <-]. by apply same_T.
Qed.

Lemma convert_layer_touches country layer w r w' :
  Conversion.convert_layer G country layer w = (r, w') ->
  throughout (touches_only (File (Conversion.output_gpkg country))) w w'.
Proof.
  unfold Conversion.convert_layer. destruct layer as [layer_name shp_file].
  touches_bind present; [intros H; eapply same_T, path_exists_same, H |].
  destruct present; cbn [negb]; [| intros H; eapply same_T, print_same, H].
  touches_bind gdf; [intros [= _ <-]; by apply same_T |].
  touches_bind u; [apply gdf_to_file_touches |].
  intros H; eapply same_T, print_same, H.
Qed.

Lemma convert_only_outputs table w r w' :
  Conversion.convert G table w = (r, w') -> throughout (only_outputs table) w w'.
Proof.
  unfold Conversion.convert.
  apply for_each_throughout; [apply only_outputs_refl | apply only_outputs_trans |].
  intros [country layers] w1 r1 w2 Hin Hrun. simpl in Hrun.
  eapply throughout_impl.
  - intros f. apply touches_output_only_outputs.
    apply list_elem_of_fmap. by exists (country, layers).
  - revert Hrun.
    apply for_each_throughout; [apply touches_only_refl | apply touches_only_trans |].
    intros layer w3 r3 w4 _. apply convert_layer_touches.
Qed.

(** What a step of the conversion keeps: the shapefiles as they are, every
    file that is there, and every line printed. *)
Let step (w w' : World) : Prop :=
  (forall country shp_file,
      fs w' !! File (shapefile country shp_file) = fs w !! File (shapefile country shp_file))
  ∧ (forall q, is_Some (fs w !! q) -> is_Some (fs w' !! q))
  ∧ (forall line, line ∈ out w -> line ∈ out w').

Lemma step_refl w : step w w.
Proof. done. Qed.

Lemma step_trans a b c : step a b -> step b c -> step a c.
Proof.
  intros (S1 & K1 & O1) (S2 & K2 & O2). split; [| split].
  - intros country shp_file. by rewrite S2, S1.
  - intros q Hq. by apply K2, K1.
  - intros line Hl. by apply O2, O1.
Qed.

Hypothesis Hlib : lib_succeeds G.

Lemma convert_layer_spec country layer_name shp_file w :
  exists w',
    Conversion.convert_layer G country (layer_name, shp_file) w = (Ok tt, w')
    ∧ step w w'
    ∧ (is_Some (fs w !! File (shapefile country shp_file)) ->
       is_Some (fs w' !! File (Conversion.output_gpkg country)))
    ∧ (fs w !! File (shapefile country shp_file) = None ->
       missing_line country shp_file ∈ out w').
Proof.
  unfold Conversion.convert_layer, path_exists. unfold bind at 1.
  fold (shapefile country shp_file).
  destruct (fs w !! File (shapefile country shp_file)) as [content |] eqn:Hshp.
  - rewrite bool_decide_eq_true_2 by by eexists. cbn [negb].
    destruct Hlib as [Hread Hwrite].
    destruct (Hread (fs w) (shapefile country shp_file)) as [x Hx]; [by eexists |].
    destruct (Hwrite (fs w !! File (Conversion.output_gpkg country)) layer_name x)
      as [c Hc].
    unfold bind, Conversion.gpd_read_file, Conversion.gdf_to_file, print.
    rewrite Hx. simpl. rewrite Hc.
    eexists. split; [reflexivity |]. unfold step. simpl. split; [| split; [| done]].
    + split; [| split].
      * intros country' shp'. rewrite lookup_insert_ne; [done |].
        intros H. by eapply shapefile_not_output.
      * intros q Hq.
        destruct (decide (q = File (Conversion.output_gpkg country))) as [-> | Hne].
        -- rewrite lookup_insert_eq. by eexists.
        -- by rewrite lookup_insert_ne.
      * intros line Hl. apply elem_of_app. by left.
    + intros _. rewrite lookup_insert_eq. by eexists.
  - rewrite bool_decide_eq_false_2 by (by intros [? ?]). cbn [negb]. unfold print.
    eexists. split; [reflexivity |]. unfold step. simpl. split; [| split].
    + split; [done |]. split; [done |]. intros line Hl. apply elem_of_app. by left.
    + by intros [? ?].
    + intros _. apply elem_of_app. right. unfold missing_line. left.
Qed.

Lemma convert_layers_spec country layers :
  forall w,
    exists w',
      for_each (Conversion.convert_layer G country) layers w = (Ok tt, w')
      ∧ step w w'
      ∧ forall layer_name shp_file,
          (layer_name, shp_file) ∈ layers ->
          (is_Some (fs w !! File (shapefile country shp_file)) ->
           is_Some (fs w' !! File (Conversion.output_gpkg country)))
          ∧ (fs w !! File (shapefile country shp_file) = None ->
             missing_line country shp_file ∈ out w').
Proof.
  induction layers as [| [l0 s0] rest IH]; intros w.
  - exists w. split; [done |]. split; [apply step_refl |].
    intros ? ? Hin. by apply elem_of_nil in Hin.
  - destruct (convert_layer_spec country l0 s0 w) as (w1 & H1 & S1 & P1 & M1).
    destruct (IH w1) as (w' & Hrest & S2 & Hall).
    exists w'. split; [by rewrite (for_each_cons_ok _ _ _ _ _ H1) |].
    split; [by eapply step_trans |].
    intros layer_name shp_file Hin.
    apply elem_of_cons in Hin as [[= -> ->] | Hin].
    + destruct S2 as (_ & K2 & O2). split.
      * intros Hp. by apply K2, P1.
      * intros Hn. by apply O2, M1.
    + destruct S1 as (Sh1 & _). destruct (Hall _ _ Hin) as [Hp Hm].
      split; intros H; [apply Hp | apply Hm]; by rewrite Sh1.
Qed.

Lemma convert_spec table :
  forall w,
    exists w',
      Conversion.convert G table w = (Ok tt, w')
      ∧ step w w'
      ∧ forall country layers layer_name shp_file,
          (country, layers) ∈ table ->
          (layer_name, shp_file) ∈ layers ->
          (is_Some (fs w !! File (shapefile country shp_file)) ->
           is_Some (fs w' !! File (Conversion.output_gpkg country)))
          ∧ (fs w !! File (shapefile country shp_file) = None ->
             missing_line country shp_file ∈ out w').
Proof.
  unfold Conversion.convert.
  induction table as [| [c0 ls0] rest IH]; intros w.
  - exists w. split; [done |]. split; [apply step_refl |].
    intros ? ? ? ? Hin. by apply elem_of_nil in Hin.
  - destruct (convert_layers_spec c0 ls0 w) as (w1 & H1 & S1 & Hall1).
    destruct (IH w1) as (w' & Hrest & S2 & Hall).
    exists w'. split.
    { by rewrite (for_each_cons_ok
                    (fun entry => for_each (Conversion.convert_layer G entry.1) entry.2)
                    (c0, ls0) rest w w1 H1). }
    split; [by eapply step_trans |].
    intros country layers layer_name shp_file Hin Hl.
    apply elem_of_cons in Hin as [[= -> ->] | Hin].
    + destruct S2 as (_ & K2 & O2). destruct (Hall1 _ _ Hl) as [Hp Hm]. split.
      * intros H. by apply K2, Hp.
      * intros H. by apply O2, Hm.
    + destruct S1 as (Sh1 & _). destruct (Hall _ _ _ _ Hin Hl) as [Hp Hm].
      split; intros H; [apply Hp | apply Hm]; by rewrite Sh1.
Qed.

End Conv.

(** X17: the conversion writes GeoPackages and nothing else.  However it
    ends, the loop over a table of layers touches no file but the GeoPackages
    [inventories/<country>.gpkg] of the countries of the table, in no state the
    files go through; in particular every shapefile is after it as it was
    before. *)
Theorem conversion_touches_outputs_only (G : Conversion.GeoLib)
    (table : list (string * list (string * string))) (w : World) :
  throughout (only_outputs table) w (Conversion.convert G table w).2
  ∧ (forall country shp_file,
        fs (Conversion.convert G table w).2 !! File (shapefile country shp_file)
        = fs w !! File (shapefile country shp_file)).
Proof.
  destruct (Conversion.convert G table w) as [r w'] eqn:Hrun.
  apply convert_only_outputs in Hrun. split; [done |].
  intros country shp_file. destruct Hrun as [Hrun _]. apply Hrun.
  intros country' _. apply shapefile_not_output.
Qed.

(** X18: a missing shapefile does not stop the conversion.  When the
    library reads every shapefile that is there and writes every layer, the
    loop over a table of layers ends normally whatever files are missing; for
    every layer of the table, when its shapefile is there the country's
    GeoPackage is there afterwards, and when it is missing the line
    [Missing file: <path>] was printed. *)
Theorem conversion_skips_missing_files (G : Conversion.GeoLib)
    (table : list (string * list (string * string))) (w : World) :
  lib_succeeds G ->
  exists w',
    Conversion.convert G table w = (Ok tt, w')
    ∧ forall country layers layer_name shp_file,
        (country, layers) ∈ table ->
        (layer_name, shp_file) ∈ layers ->
        (is_Some (fs w !! File (shapefile country shp_file)) ->
         is_Some (fs w' !! File (Conversion.output_gpkg country)))
        ∧ (fs w !! File (shapefile country shp_file) = None ->
           missing_line country shp_file ∈ out w').
Proof.
  intros Hlib. destruct (convert_spec G Hlib table w) as (w' & Hrun & _ & Hall).
  by exists w'.
Qed.

Lemma stub_lib_succeeds : lib_succeeds Shapes.lib.
Proof.
  split.
  - intros f p [c Hc]. exists c. simpl. by rewrite Hc.
  - intros old layer x. by eexists.
Defined.

Lemma conversion_skips_missing_files_witness :
  exists w',
    Conversion.convert Shapes.lib Geopackage.layer_map Shapes.lombok_area_only = (Ok tt, w')
    ∧ forall country layers layer_name shp_file,
        (country, layers) ∈ Geopackage.layer_map ->
        (layer_name, shp_file) ∈ layers ->
        (is_Some (fs Shapes.lombok_area_only !! File (shapefile country shp_file)) ->
         is_Some (fs w' !! File (Conversion.output_gpkg country)))
        ∧ (fs Shapes.lombok_area_only !! File (shapefile country shp_file) = None ->
           missing_line country shp_file ∈ out w').
Proof.
  apply (conversion_skips_missing_files Shapes.lib Geopackage.layer_map
           Shapes.lombok_area_only).
  apply stub_lib_succeeds.
Defined.

(** The run of the witness: one GeoPackage, seven shapefiles reported. *)
Example conversion_of_one_area :
  map fst (map_to_list (fs (Conversion.main Shapes.lib Shapes.lombok_area_only).2))
  = [ File ["inventories"; "Lombok2018"; "area.shp"];
      File ["inventories"; "Lombok2018.gpkg"] ]
  ∧ out (Conversion.main Shapes.lib Shapes.lombok_area_only).2
    = [ "Missing file: inventories/EmiliaRomagna2023/Area_rev.shp";
        "Missing file: inventories/EmiliaRomagna2023/Emilia_landslides_v2.shp";
        "Lombok2018: Saved 'area' from 'area.shp'";
        "Missing file: inventories/Lombok2018/LS19-08.shp";
        "Missing file: inventories/Michoacan2022/investigated_area_LS_Michoacan2022.shp";
        "Missing file: inventories/Michoacan2022/Michoacan2022_LS_polygon.shp";
        "Missing file: inventories/Philippines2019/area_study.shp";
        "Missing file: inventories/Philippines2019/landslides_dic2019.shp" ].
Proof. split; vm_compute; reflexivity. Qed.

Lemma assoc_elem_of {A} (k : string) (l : list (string * A)) (v : A) :
  assoc k l = Some v -> (k, v) ∈ l.
Proof.
  induction l as [| [k' v'] l IH]; [done |]. simpl.
  destruct (String.eqb k k') eqn:Hk.
  - apply String.eqb_eq in Hk as ->. intros [= ->]. left.
  - intros H. right. by apply IH.
Qed.

(** X19: the conversion script feeds the pipeline.  For every inventory of
    the pipeline's table, [layer_map] names an area shapefile; the GeoPackage
    that [shapefile_to_bbox] reads, with its layer [area], is the file that the
    conversion writes for that country; and when the library succeeds and the
    area shapefile is there, that file is there after the conversion. *)
Theorem conversion_feeds_pipeline (G : Conversion.GeoLib) (E : Env) (inv : inventory)
    (w : World) :
  inv ∈ INVENTORIES ->
  exists shp_file,
    Geopackage.area_file (name inv) = Some shp_file
    ∧ shapefile_to_bbox E inv 4326
      = call (total_bounds E (Conversion.output_gpkg (name inv)) (Some "area") 4326)
    ∧ (lib_succeeds G ->
       is_Some (fs w !! File (shapefile (name inv) shp_file)) ->
       is_Some (fs (Conversion.main G w).2 !! File (Conversion.output_gpkg (name inv)))).
Proof.
  intros Hin.
  assert (exists shp_file, Geopackage.area_file (name inv) = Some shp_file)
    as [shp_file Harea].
  { unfold INVENTORIES in Hin.
    repeat (apply elem_of_cons in Hin as [-> | Hin]; [by eexists |]).
    by apply elem_of_nil in Hin. }
  exists shp_file. split; [done |]. split; [reflexivity |].
  intros Hlib Hshp.
  destruct (convert_spec G Hlib Geopackage.layer_map w) as (w' & Hrun & _ & Hall).
  unfold Conversion.main. rewrite Hrun. simpl.
  unfold Geopackage.area_file in Harea.
  destruct (assoc (name inv) Geopackage.layer_map) as [layers |] eqn:Hl; [| done].
  apply assoc_elem_of in Hl. apply assoc_elem_of in Harea.
  by apply (Hall (name inv) layers "area" shp_file Hl Harea).
Qed.

Lemma conversion_feeds_pipeline_witness :
  exists shp_file,
    Geopackage.area_file "Lombok2018" = Some shp_file
    ∧ shapefile_to_bbox Stub.good_env Terrain.lombok_entry 4326
      = call (total_bounds Stub.good_env (Conversion.output_gpkg "Lombok2018")
                (Some "area") 4326)
    ∧ (lib_succeeds Shapes.lib ->
       is_Some (fs Shapes.lombok_area_only !! File (shapefile "Lombok2018" shp_file)) ->
       is_Some (fs (Conversion.main Shapes.lib Shapes.lombok_area_only).2
                  !! File (Conversion.output_gpkg "Lombok2018"))).
Proof.
  apply (conversion_feeds_pipeline Shapes.lib Stub.good_env Terrain.lombok_entry
           Shapes.lombok_area_only).
  unfold INVENTORIES. left.
Defined.

(** ** The metadata of a merged mosaic *)

Lemma assoc_meta_set_eq (k : string) (v : metaval) (d : Meta) :
  assoc k (meta_set k v d) = Some v.
Proof.
  induction d as [| [k' v'] d IH]; simpl.
  - by rewrite String.eqb_refl.
  - destruct (String.eqb k k') eqn:Hk; simpl; [by rewrite String.eqb_refl | by rewrite Hk].
Qed.

Lemma assoc_meta_set_ne (k k' : string) (v : metaval) (d : Meta) :
  k <> k' -> assoc k' (meta_set k v d) = assoc k' d.
Proof.
  intros Hne. induction d as [| [k0 v0] d IH]; simpl.
  - apply String.eqb_neq in Hne. rewrite String.eqb_sym. by rewrite Hne.
  - destruct (String.eqb k k0) eqn:Hk; simpl.
    + apply String.eqb_eq in Hk as <-.
      assert (String.eqb k' k = false) as -> by (apply String.eqb_neq; congruence).
      done.
    + by rewrite IH.
Qed.

Lemma assoc_app {A} (k : string) (l l' : list (string * A)) :
  assoc k (l ++ l') = match assoc k l with Some v => Some v | None => assoc k l' end.
Proof.
  induction l as [| [k' v'] l IH]; [done |]. simpl. by destruct (String.eqb k k').
Qed.

(** X20: a merge that ends normally, with no merged output there before,
    leaves at the output path what the raster library encodes of the merged
    array under the metadata of the first tile opened, in which the driver is
    [GTiff], the compression [lzw], the height and the width those of the
    merged array and the transform that of the merge; every other entry of the
    first tile's metadata is kept, and [BIGTIFF] is [YES] when the tile's
    metadata did not set it. *)
Theorem merged_mosaic_metadata (E : Env) (folder : Path) (tag : string) (w : World) :
  let output_path := folder // (tag +:+ "_merged.tif") in
  let w' := (merge_quads E folder tag w).2 in
  fs w !! File output_path = None ->
  (merge_quads E folder tag w).1 = Ok tt ->
  exists src_files_to_mosaic src0 mosaic out_trans height width out_meta c,
    raster_merge E src_files_to_mosaic = Done (mosaic, out_trans)
    ∧ head src_files_to_mosaic = Some src0
    ∧ shape mosaic !! 1%nat = Some height
    ∧ shape mosaic !! 2%nat = Some width
    ∧ raster_encode E out_meta mosaic = Done c
    ∧ fs w' !! File output_path = Some c
    ∧ assoc "driver" out_meta = Some (MStr "GTiff")
    ∧ assoc "compress" out_meta = Some (MStr "lzw")
    ∧ assoc "height" out_meta = Some (MInt height)
    ∧ assoc "width" out_meta = Some (MInt width)
    ∧ assoc "transform" out_meta = Some (MTransform out_trans)
    ∧ (assoc "BIGTIFF" (ds_meta src0) = None ->
       assoc "BIGTIFF" out_meta = Some (MStr "YES"))
    ∧ (forall k,
          k ∉ ["driver"; "height"; "width"; "transform"; "compress"; "BIGTIFF"] ->
          assoc k out_meta = assoc k (ds_meta src0)).
Proof.
  intros output_path w' Habsent Hok. subst w'.
  destruct (merge_quads E folder tag w) as [r w'] eqn:Hrun. simpl in Hok |- *. subst r.
  unfold merge_quads in Hrun. fold output_path in Hrun.
  apply bind_ok_inv in Hrun as (present & w1 & H1 & Hrun).
  unfold path_exists in H1. injection H1 as <- <-.
  rewrite bool_decide_eq_false_2 in Hrun by (rewrite Habsent; by intros [? ?]).
  apply bind_ok_inv in Hrun as (tiff_files & w2 & _ & Hrun).
  apply bind_ok_inv in Hrun as (srcs & w3 & _ & Hrun).
  apply bind_ok_inv in Hrun as ([mosaic out_trans] & w4 & Hm & Hrun).
  apply bind_ok_inv in Hrun as (src0 & w5 & H0 & Hrun).
  apply bind_ok_inv in Hrun as (height & w6 & Hh & Hrun).
  apply bind_ok_inv in Hrun as (width & w7 & Hw & Hrun).
  apply bind_ok_inv in Hrun as ([] & w8 & Hwrite & Hrun).
  injection Hrun as <-.
  unfold call, lift in Hm. destruct (raster_merge E srcs) as [m |] eqn:Hmerge; [| done].
  injection Hm as -> _.
  unfold lift, first_of in H0. destruct srcs as [| s0 srcs']; [done |].
  injection H0 as -> _.
  unfold lift, shape_at in Hh, Hw.
  destruct (shape mosaic !! 1%nat) as [h |] eqn:Hs1; [| done]. injection Hh as -> _.
  destruct (shape mosaic !! 2%nat) as [wd |] eqn:Hs2; [| done]. injection Hw as -> _.
  unfold rasterio_write, rasterio_create, dest_write, bind in Hwrite.
  destruct (raster_create E _) as [header |]; [| done].
  destruct (raster_encode E _ mosaic) as [c |] eqn:Henc; [| done].
  injection Hwrite as <-.
  eexists (src0 :: srcs'), src0, mosaic, out_trans, height, width, _, c.
  split; [done |]. split; [done |]. split; [done |]. split; [done |].
  split; [exact Henc |]. split; [simpl; apply lookup_insert_eq |].
  unfold meta_update. cbn [fold_left fst snd].
  rewrite !assoc_app.
  repeat (first [rewrite assoc_meta_set_eq | rewrite assoc_meta_set_ne by done]).
  repeat (split; [done |]).
  split.
  - intros Hb. repeat (rewrite assoc_meta_set_ne by done). by rewrite Hb.
  - intros k Hk. rewrite assoc_app.
    assert (forall k0, k0 ∈ ["driver"; "height"; "width"; "transform"; "compress";
                             "BIGTIFF"] -> k0 <> k) as Hne.
    { intros k0 Hin ->. by apply Hk. }
    rewrite !assoc_meta_set_ne by (apply Hne; set_solver).
    destruct (assoc k (ds_meta src0)); [done |]. simpl.
    assert (String.eqb k "BIGTIFF" = false) as ->; [| done].
    apply String.eqb_neq. intros ->. apply Hk. set_solver.
Qed.

Lemma merged_mosaic_metadata_witness :
  exists src_files_to_mosaic src0 mosaic out_trans height width out_meta c,
    raster_merge Stub.good_env src_files_to_mosaic = Done (mosaic, out_trans)
    ∧ head src_files_to_mosaic = Some src0
    ∧ shape mosaic !! 1%nat = Some height
    ∧ shape mosaic !! 2%nat = Some width
    ∧ raster_encode Stub.good_env out_meta mosaic = Done c
    ∧ fs (merge_quads Stub.good_env Stub.lombok "pre" Stub.one_tile_world).2
        !! File (Stub.lombok // ("pre" +:+ "_merged.tif")) = Some c
    ∧ assoc "driver" out_meta = Some (MStr "GTiff")
    ∧ assoc "compress" out_meta = Some (MStr "lzw")
    ∧ assoc "height" out_meta = Some (MInt height)
    ∧ assoc "width" out_meta = Some (MInt width)
    ∧ assoc "transform" out_meta = Some (MTransform out_trans)
    ∧ (assoc "BIGTIFF" (ds_meta src0) = None ->
       assoc "BIGTIFF" out_meta = Some (MStr "YES"))
    ∧ (forall k,
          k ∉ ["driver"; "height"; "width"; "transform"; "compress"; "BIGTIFF"] ->
          assoc k out_meta = assoc k (ds_meta src0)).
Proof.
  apply (merged_mosaic_metadata Stub.good_env Stub.lombok "pre" Stub.one_tile_world).
  - reflexivity.
  - vm_compute. reflexivity.
Defined.

(** ** The tiles a merge reads *)

Lemma open_all_log E files :
  forall w srcs w',
    map_M (rasterio_open E) files w = (Ok srcs, w') ->
    raster_log w' = raster_log w ++ map RRead files
    ∧ Forall2 (fun fp d => ds_path d = fp
                           ∧ fs w !! File fp = Some (ds_content d)
                           ∧ raster_meta E (ds_content d) = Done (ds_meta d))
        files srcs.
Proof.
  induction files as [| fp files IH]; intros w srcs w' H.
  - injection H as <- <-. split; [by rewrite app_nil_r | constructor].
  - simpl in H. apply bind_ok_inv in H as (d & w1 & Hopen & H).
    apply bind_ok_inv in H as (ds & w2 & Hrest & H). injection H as <- <-.
    pose proof (rasterio_open_frame E _ _ _ _ Hopen) as (_ & Hfs & _).
    apply IH in Hrest as [Hlog Hall].
    unfold rasterio_open in Hopen.
    destruct (fs w !! File fp) as [c |] eqn:Hc; [| done].
    destruct (raster_meta E c) as [m |] eqn:Hm; [| done].
    injection Hopen as <- <-. simpl in Hlog. split.
    + rewrite Hlog. simpl. by rewrite <- app_assoc.
    + constructor; [done |].
      eapply Forall2_impl; [exact Hall |]. simpl. intros fp' d' (? & ? & ?). done.
Qed.

(** X21: a merge that ends normally, with no merged output there before,
    has opened every [*.tiff] file of the window's quad directory, each once
    and in the order of the listing, and nothing else; the merged array is
    that of all of them; the output is written once and the line
    [Saved merged file to <path>] printed. *)
Theorem merge_reads_every_tile (E : Env) (folder : Path) (tag : string) (w : World) :
  let output_path := folder // (tag +:+ "_merged.tif") in
  let input_dir := folder // (tag +:+ "_quads") in
  let tiff_files := omap (in_dir_tiff input_dir) (map fst (map_to_list (fs w))) in
  let w' := (merge_quads E folder tag w).2 in
  fs w !! File output_path = None ->
  (merge_quads E folder tag w).1 = Ok tt ->
  exists src_files_to_mosaic mosaic out_trans,
    Forall2 (fun fp d => ds_path d = fp
                         ∧ fs w !! File fp = Some (ds_content d)
                         ∧ raster_meta E (ds_content d) = Done (ds_meta d))
      tiff_files src_files_to_mosaic
    ∧ raster_merge E src_files_to_mosaic = Done (mosaic, out_trans)
    ∧ raster_log w' = raster_log w ++ map RRead tiff_files ++ [RWrite output_path]
    ∧ out w' = out w ++ ["Saved merged file to " +:+ path_str output_path].
Proof.
  intros output_path input_dir tiff_files w' Habsent Hok. subst w'.
  destruct (merge_quads E folder tag w) as [r w'] eqn:Hrun. simpl in Hok |- *. subst r.
  unfold merge_quads in Hrun. fold output_path input_dir in Hrun.
  apply bind_ok_inv in Hrun as (present & w1 & H1 & Hrun).
  unfold path_exists in H1. injection H1 as <- <-.
  rewrite bool_decide_eq_false_2 in Hrun by (rewrite Habsent; by intros [? ?]).
  apply bind_ok_inv in Hrun as (files & w2 & Hglob & Hrun).
  unfold glob_tiff in Hglob. injection Hglob as <- <-. fold tiff_files in Hrun.
  apply bind_ok_inv in Hrun as (srcs & w3 & Hopen & Hrun).
  pose proof (open_all_frame E _ _ _ _ Hopen) as (_ & _ & Hout).
  apply open_all_log in Hopen as [Hlog Hall].
  apply bind_ok_inv in Hrun as ([mosaic out_trans] & w4 & Hm & Hrun).
  unfold call, lift in Hm. destruct (raster_merge E srcs) as [m |] eqn:Hmerge; [| done].
  injection Hm as -> <-.
  apply bind_ok_inv in Hrun as (src0 & w5 & H0 & Hrun).
  apply lift_same in H0 as Hs5. unfold lift in H0. injection H0 as _ <-.
  apply bind_ok_inv in Hrun as (height & w6 & Hh & Hrun).
  unfold lift in Hh. injection Hh as _ <-.
  apply bind_ok_inv in Hrun as (width & w7 & Hw & Hrun).
  unfold lift in Hw. injection Hw as _ <-.
  apply bind_ok_inv in Hrun as ([] & w8 & Hwrite & Hrun).
  injection Hrun as <-.
  unfold rasterio_write, rasterio_create, dest_write, bind in Hwrite.
  destruct (raster_create E _) as [header |]; [| done].
  destruct (raster_encode E _ mosaic) as [c |]; [| done].
  injection Hwrite as <-.
  exists srcs, mosaic, out_trans. split; [done |]. split; [done |]. simpl.
  split; [by rewrite Hlog, <- app_assoc | by rewrite Hout].
Qed.

Lemma merge_reads_every_tile_witness :
  exists src_files_to_mosaic mosaic out_trans,
    Forall2 (fun fp d => ds_path d = fp
                         ∧ fs Stub.one_tile_world !! File fp = Some (ds_content d)
                         ∧ raster_meta Stub.good_env (ds_content d) = Done (ds_meta d))
      (omap (in_dir_tiff (Stub.lombok // ("pre" +:+ "_quads")))
         (map fst (map_to_list (fs Stub.one_tile_world))))
      src_files_to_mosaic
    ∧ raster_merge Stub.good_env src_files_to_mosaic = Done (mosaic, out_trans)
    ∧ raster_log (merge_quads Stub.good_env Stub.lombok "pre" Stub.one_tile_world).2
      = raster_log Stub.one_tile_world
        ++ map RRead (omap (in_dir_tiff (Stub.lombok // ("pre" +:+ "_quads")))
                        (map fst (map_to_list (fs Stub.one_tile_world))))
        ++ [RWrite (Stub.lombok // ("pre" +:+ "_merged.tif"))]
    ∧ out (merge_quads Stub.good_env Stub.lombok "pre" Stub.one_tile_world).2
      = out Stub.one_tile_world
        ++ ["Saved merged file to "
            +:+ path_str (Stub.lombok // ("pre" +:+ "_merged.tif"))].
Proof.
  apply (merge_reads_every_tile Stub.good_env Stub.lombok "pre" Stub.one_tile_world).
  - reflexivity.
  - vm_compute. reflexivity.
Defined.

(** ** A library error in the conversion *)

Lemma for_each_app_ok {A} (body : A -> M unit) (l1 l2 : list A) :
  forall w w1,
    for_each body l1 w = (Ok tt, w1) ->
    for_each body (l1 ++ l2) w = for_each body l2 w1.
Proof.
  induction l1 as [| x l1 IH]; intros w w1 H.
  - by injection H as <-.
  - simpl in H |- *. apply bind_ok_inv in H as ([] & w0 & Hx & H).
    unfold bind at 1. rewrite Hx. by apply IH.
Qed.

Lemma for_each_cons_raise {A} (body : A -> M unit) (x : A) (l : list A) w e w' :
  body x w = (Raise e, w') -> for_each body (x :: l) w = (Raise e, w').
Proof. intros H. simpl. unfold bind. by rewrite H. Qed.

(** X22: an exception of the library is not caught by the conversion.
    When reading a shapefile that is there, or writing its layer, fails, the
    script ends there with that exception, after the layers and countries
    before it were handled: the layers and the countries after it are not
    converted. *)
Theorem conversion_stops_on_library_error (G : Conversion.GeoLib)
    (before after : list (string * list (string * string))) (country : string)
    (layers_before layers_after : list (string * string)) (layer_name shp_file : string)
    (e : exn) (w w0 w1 : World) :
  Conversion.convert G before w = (Ok tt, w0) ->
  for_each (Conversion.convert_layer G country) layers_before w0 = (Ok tt, w1) ->
  is_Some (fs w1 !! File (shapefile country shp_file)) ->
  (Conversion.read_file G (fs w1) (shapefile country shp_file) = Fails e
   ∨ exists x,
       Conversion.read_file G (fs w1) (shapefile country shp_file) = Done x
       ∧ Conversion.to_file G (fs w1 !! File (Conversion.output_gpkg country)) layer_name x
         = Fails e) ->
  Conversion.convert G
    (before ++ (country, layers_before ++ (layer_name, shp_file) :: layers_after) :: after) w
  = (Raise e, w1).
Proof.
  intros Hbefore Hlayers Hshp Hfail. unfold Conversion.convert in *.
  rewrite (for_each_app_ok _ _ _ _ _ Hbefore).
  apply for_each_cons_raise. cbn [fst snd].
  rewrite (for_each_app_ok _ _ _ _ _ Hlayers).
  apply for_each_cons_raise.
  unfold Conversion.convert_layer, path_exists. unfold bind at 1.
  fold (shapefile country shp_file).
  rewrite bool_decide_eq_true_2 by done. cbn [negb].
  unfold bind, Conversion.gpd_read_file, Conversion.gdf_to_file.
  destruct Hfail as [-> | (x & -> & Hw)]; [done |]. simpl. by rewrite Hw.
Qed.

Lemma conversion_stops_on_library_error_witness :
  Conversion.convert Corrupt.lib
    ([] ++ ("Lombok2018", [] ++ ("area", "area.shp") :: [("landslides", "LS19-08.shp")])
        :: [("Michoacan2022", [("area", "investigated_area_LS_Michoacan2022.shp")])])
    Shapes.lombok_area_only
  = (Raise (Exn "DriverError"
              "inventories/Lombok2018/area.shp not recognized as a supported file format"),
     Shapes.lombok_area_only).
Proof.
  apply (conversion_stops_on_library_error Corrupt.lib []
           [("Michoacan2022", [("area", "investigated_area_LS_Michoacan2022.shp")])]
           "Lombok2018" [] [("landslides", "LS19-08.shp")] "area" "area.shp"
           (Exn "DriverError"
              "inventories/Lombok2018/area.shp not recognized as a supported file format")
           Shapes.lombok_area_only Shapes.lombok_area_only Shapes.lombok_area_only).
  - reflexivity.
  - reflexivity.
  - vm_compute. by eexists.
  - left. reflexivity.
Defined.

(** The script itself on that world: the missing shapefiles of the first
    country are reported, then the unreadable one ends the run. *)
Example conversion_ended_by_one_shapefile :
  (Conversion.main Corrupt.lib Shapes.lombok_area_only).1
  = Raise (Exn "DriverError"
             "inventories/Lombok2018/area.shp not recognized as a supported file format")
  ∧ out (Conversion.main Corrupt.lib Shapes.lombok_area_only).2
    = [ "Missing file: inventories/EmiliaRomagna2023/Area_rev.shp";
        "Missing file: inventories/EmiliaRomagna2023/Emilia_landslides_v2.shp" ].
Proof. split; vm_compute; reflexivity. Qed.
